(** * Discord-Shiller: message scheduling and delivery

    A shallow embedding of the delivery core of the repository:
    - [framework/message/voice_based.py]  (VoiceMESSAGE: __init__, get_data,
                                           initialize_channels, send_channel, send)
    - [framework/guild.py]                (generate_log, log_file_name, add_message,
                                           remove_message, initialize,
                                           GUILD.advertise, USER.advertise)
    - [daf/message/voice_based.py]        (VoiceMESSAGE.__init__, _get_data,
                                           _handle_error, _send_channel,
                                           _move_to_connect)
    - [daf/misc.py]                       (_write_attr_once, _update)
    - [daf/logging/logging.py]            (LoggerJSON._save_log, save_log)

    Python objects live in a store indexed by references, methods are
    computations in a state-and-exception monad that also records the calls
    made to the outside (voice connection, tracing, logging).  The Discord
    client is an interface ([DiscordAPI]); every theorem holds for any
    implementation of it.

    Conventions: an exception is a Python [Exception]; the calls that the
    source makes outside any [try] block into the client (cache lookups,
    attribute reads) and into the user's data function are taken to
    complete.  The disconnect awaited in the [finally] clause of
    [send_channel] may raise. *)

From Stdlib Require Import ZArith Lia Ascii.
From stdpp Require Import base tactics option list strings gmap functions.

(** ** Values shared by the modules *)

(** Channels are Discord objects compared by their snowflake id. *)
Definition channel := Z.

(** A reference to a message object (object identity). *)
Definition msg_ref := nat.

Inductive http_class := Forbidden | NotFound | HTTPException.

(** Python exceptions that the modelled code raises, receives or inspects.
    [HTTP status code] is a [discord.HTTPException]; its class follows its
    status, as in the client library and in every [generate_exception] call
    of the sources: 403 is [discord.Forbidden], 404 is [discord.NotFound]. *)
Inductive exn :=
| FileExistsError
| HTTP (status code : Z)
| ValueError
| TypeError
| AttributeError
| OtherException (name : string).

Inductive result (A : Type) :=
| Ok (a : A)
| Raise (e : exn).
Arguments Ok {A} a.
Arguments Raise {A} e.

(** [BaseMESSAGE.generate_exception(status, code, description, cls)]: an
    exception of class [cls] carrying [status] and [code]. *)
Definition generate_exception (status code : Z) (cls : http_class) : exn :=
  HTTP status code.

Definition is_HTTPException (ex : exn) : bool :=
  match ex with HTTP _ _ => true | _ => false end.

Definition is_Forbidden (ex : exn) : bool :=
  match ex with HTTP status _ => (status =? 403)%Z | _ => false end.

Definition is_FileExistsError (ex : exn) : bool :=
  match ex with FileExistsError => true | _ => false end.

(** [isinstance(ex, discord.HTTPException) and ex.status == n] *)
Definition has_status (n : Z) (ex : exn) : bool :=
  match ex with HTTP status _ => (status =? n)%Z | _ => false end.

Inductive TraceLEVELS := NORMAL | WARNING | ERROR.

Inductive message_kind := TextMESSAGE | VoiceMESSAGE | DirectMESSAGE.

Record AUDIO := { filename : string; url : string }.

(** What a [data] parameter can hold: [None], one object, or a
    list/tuple/set of objects.  An object is an AUDIO or anything else
    (of which only the truth value is ever looked at). *)
Inductive element := EAudio (a : AUDIO) | EObject (truthy : bool).
Inductive pydata := PyNone | PyObj (e : element) | PySeq (es : list element).

(** A static value or a [FunctionBaseCLASS] wrapper around a user function. *)
Inductive data_source := Static (d : pydata) | DataFunction (f : nat).

(** Modelled from the spec: the Timer of section 3 and 4.1, which stands for
    the timing slots of [BaseMESSAGE] (framework/message/base.py is absent). *)
Record Timer := {
  start_period : option Z;
  end_period : Z;
  next_fire_time : Z
}.

Record message := {
  kind : message_kind;
  timer : Timer;
  data : data_source;
  volume : Z;
  channels : list channel;
  dm_channel : option channel;
  update_mutex : bool
}.

Definition set_channels (l : list channel) (m : message) : message :=
  {| kind := kind m; timer := timer m; data := data m; volume := volume m;
     channels := l; dm_channel := dm_channel m; update_mutex := update_mutex m |}.

Definition set_update_mutex (b : bool) (m : message) : message :=
  {| kind := kind m; timer := timer m; data := data m; volume := volume m;
     channels := channels m; dm_channel := dm_channel m; update_mutex := b |}.

Definition set_timer (t : Timer) (m : message) : message :=
  {| kind := kind m; timer := t; data := data m; volume := volume m;
     channels := channels m; dm_channel := dm_channel m;
     update_mutex := update_mutex m |}.

(** The dictionary returned by [send_channel]. *)
Inductive context := Success | Failure (reason : exn).

(** The dictionary returned by [send]; [OtherLog] is the context of a
    text or direct message. *)
Inductive log_context :=
| VoiceLog (streamed_audio : string) (successful : list channel)
           (failed : list (channel * exn))
| OtherLog (payload : string).

Inductive trace_msg :=
| TrChannelRemoved (c : channel) (was_deleted : bool)
| TrRemovingMessage (k : message_kind) (guild : Z)
| TrRemovingAllMessages (user : Z)
| TrCouldNotPlay (ex : exn)
| TrTimedOut (retry_after : Z).

(** Calls in the order they happen: those made to the outside (voice
    session, trace, log) and the two calls [reset_timer] and [send] that a
    container makes on a message, each with the fire time of the message's
    timer at that moment. *)
Inductive event :=
| EvConnect (c : channel)
| EvMoveTo (c : channel)
| EvPlay (c : channel) (vol : Z)
| EvDisconnect
| EvTrace (level : TraceLEVELS) (msg : trace_msg)
| EvGenerateLog (guild : Z) (ctx : log_context)
| EvResetTimer (r : msg_ref) (fire : Z)
| EvSend (r : msg_ref) (fire : Z).

(** [list.remove(x)]: drops the first element equal to [x]; [None] stands
    for the [ValueError] raised when there is none. *)
Fixpoint list_remove_first `{EqDecision A} (x : A) (l : list A)
  : option (list A) :=
  match l with
  | [] => None
  | y :: l' =>
      if decide (x = y) then Some l'
      else match list_remove_first x l' with
           | Some r => Some (y :: r)
           | None => None
           end
  end.

(** ** The Discord client and the absent parts of the repository *)

Class DiscordAPI (W : Type) := {
  time_now : W → Z;
  randrange : Z → Z → W → Z * W;
  (** [client.get_client().get_channel(id) is not None] *)
  channel_cached : channel → W → bool;
  (** [channel.permissions_for(member)]: connect, stream, speak *)
  permissions_for : channel → W → result (bool * bool * bool);
  vc_is_connected : W → bool;
  (** [channel.connect(timeout=...)] *)
  vc_connect : channel → Z → W → result unit * W;
  vc_move_to : channel → W → result unit * W;
  (** [PCMVolumeTransformer(FFmpegPCMAudio(audio.url), volume)] *)
  open_stream : AUDIO → Z → W → result unit * W;
  (** [play(stream)] and the wait until [is_playing()] is false *)
  vc_play_to_end : W → result unit * W;
  (** [await GLOBALS.voice_client.disconnect()] *)
  vc_disconnect : W → result unit * W;
  sleep : Z → W → W;
  (** [FunctionBaseCLASS.get_data()]: runs the user's function *)
  call_data_function : nat → W → pydata * W;
  (** [TextMESSAGE.send] and [DirectMESSAGE.send] (framework/message/
      text_based.py is absent): any behaviour on the message and the client *)
  TextMESSAGE_send : message → W → result (option log_context) * message * W;
  DirectMESSAGE_send : message → W → result (option log_context) * message * W
}.

(** ** The program monad *)

Section Program.
Context {W : Type} `{API : DiscordAPI W}.

Record state := {
  world : W;
  (** [GLOBALS.voice_client is not None] *)
  voice_client : bool;
  heap : msg_ref → message
}.

Definition Py (A : Type) : Type := state → result A * state * list event.

Definition ret {A} (a : A) : Py A := λ s, (Ok a, s, []).

Definition bind {A B} (c : Py A) (k : A → Py B) : Py B := λ s,
  match c s with
  | (Ok a, s1, t1) => let '(r, s2, t2) := k a s1 in (r, s2, t1 ++ t2)
  | (Raise e, s1, t1) => (Raise e, s1, t1)
  end.

Notation "x <- c ;; k" := (bind c (λ x, k))
  (at level 100, c at next level, right associativity).
Notation "c ;;; k" := (bind c (λ _, k))
  (at level 100, right associativity).

Definition raise {A} (e : exn) : Py A := λ s, (Raise e, s, []).

(** [try: body / except Exception as ex: handler ex] *)
Definition try_except {A} (body : Py A) (handler : exn → Py A) : Py A := λ s,
  match body s with
  | (Ok a, s1, t1) => (Ok a, s1, t1)
  | (Raise e, s1, t1) => let '(r, s2, t2) := handler e s1 in (r, s2, t1 ++ t2)
  end.

(** [try: body / finally: fin] where [fin] has no [return] *)
Definition try_finally {A} (body : Py A) (fin : Py unit) : Py A := λ s,
  let '(r, s1, t1) := body s in
  match fin s1 with
  | (Ok _, s2, t2) => (r, s2, t1 ++ t2)
  | (Raise e, s2, t2) => (Raise e, s2, t1 ++ t2)
  end.

Definition emit (e : event) : Py unit := λ s, (Ok tt, s, [e]).

Definition trace (level : TraceLEVELS) (msg : trace_msg) : Py unit :=
  emit (EvTrace level msg).

Definition read (r : msg_ref) : Py message := λ s, (Ok (heap s r), s, []).

Definition write (r : msg_ref) (m : message) : Py unit := λ s,
  (Ok tt, {| world := world s; voice_client := voice_client s;
             heap := <[r := m]> (heap s) |}, []).

Definition get_voice_client : Py bool := λ s, (Ok (voice_client s), s, []).

Definition set_voice_client (b : bool) : Py unit := λ s,
  (Ok tt, {| world := world s; voice_client := b; heap := heap s |}, []).

Definition set_world (w : W) (s : state) : state :=
  {| world := w; voice_client := voice_client s; heap := heap s |}.

(** Lifting of the client's operations. *)
Definition api_read {A} (f : W → A) : Py A := λ s, (Ok (f (world s)), s, []).
Definition api_try {A} (f : W → result A) : Py A := λ s, (f (world s), s, []).
Definition api_call {A} (f : W → result A * W) : Py A := λ s,
  let '(r, w) := f (world s) in (r, set_world w s, []).
Definition api_do (f : W → W) : Py unit := λ s,
  (Ok tt, set_world (f (world s)) s, []).
Definition api_get {A} (f : W → A * W) : Py A := λ s,
  let '(a, w) := f (world s) in (Ok a, set_world w s, []).


(** ** framework/message/voice_based.py: VoiceMESSAGE *)

(** [VoiceMESSAGE.__init__]: [super_init] is what [super().__init__] sets
    up (the timing slots, the free mutex); [list(set(channels))] keeps one
    of each channel, in an order Python does not promise. *)
Definition VoiceMESSAGE_init (super_init : Timer) (data : data_source)
    (channels : list channel) (volume : Z) : message :=
  {| kind := VoiceMESSAGE; timer := super_init; data := data;
     volume := Z.max 0 (Z.min 100 volume);
     channels := remove_dups channels;
     dm_channel := None; update_mutex := false |}.

(** The loop of [get_data]: the last AUDIO element wins. *)
Definition pick_audio (es : list element) : option AUDIO :=
  fold_left (λ acc e, match e with EAudio a => Some a | EObject _ => acc end)
            es None.

Definition resolve_data (src : data_source) : Py pydata :=
  match src with
  | Static d => ret d
  | DataFunction f => api_get (call_data_function f)
  end.

(** [get_data]: the dictionary [_data_to_send] has at most the key
    ["audio"]; it is [None] here when the key is absent. *)
Definition audio_of (d : pydata) : option AUDIO :=
  match d with
  | PyNone => None
  | PyObj e => pick_audio [e]
  | PySeq es => pick_audio es
  end.

Definition get_data (self : msg_ref) : Py (option AUDIO) :=
  m <- read self ;;
  d <- resolve_data (data m) ;;
  ret (audio_of d).

(** The constant of const.py (absent); daf/message/voice_based.py has 3. *)
Definition C_VC_CONNECT_TIMEOUT : Z := 3.

Definition send_channel_try (self : msg_ref) (c : channel) (audio : AUDIO)
  : Py context :=
  perms <- api_try (permissions_for c) ;;
  let '(p_connect, p_stream, p_speak) := perms in
  if negb (p_connect && p_stream && p_speak)
  then raise (generate_exception 403 50013 Forbidden)
  else
    vc <- get_voice_client ;;
    connected <- api_read vc_is_connected ;;
    (if negb vc || negb connected
     then emit (EvConnect c) ;;;
          api_call (vc_connect c C_VC_CONNECT_TIMEOUT) ;;;
          set_voice_client true
     else emit (EvMoveTo c) ;;; api_call (vc_move_to c)) ;;;
    m <- read self ;;
    api_call (open_stream audio (volume m)) ;;;
    emit (EvPlay c (volume m)) ;;;
    api_call vc_play_to_end ;;;
    ret Success.

Definition send_channel_except (c : channel) (ex : exn) : Py context :=
  if is_FileExistsError ex || is_Forbidden ex
  then ret (Failure ex)
  else
    cached <- api_read (channel_cached c) ;;
    if negb cached
    then ret (Failure (generate_exception 404 10003 NotFound))
    else ret (Failure (generate_exception 500 0 HTTPException)).

Definition send_channel_finally : Py unit :=
  vc <- get_voice_client ;;
  connected <- api_read vc_is_connected ;;
  if vc && connected
  then emit EvDisconnect ;;; api_call vc_disconnect ;;;
       set_voice_client false ;;; api_do (sleep 1)
  else ret tt.

Definition send_channel (self : msg_ref) (c : channel) (audio : AUDIO)
  : Py context :=
  try_finally
    (try_except (send_channel_try self c audio) (send_channel_except c))
    send_channel_finally.

(** The first loop of [send]: one [send_channel] per channel. *)
Fixpoint send_to_channels (self : msg_ref) (audio : AUDIO)
    (chs : list channel) (succeded : list channel)
    (errored : list (channel * exn))
  : Py (list channel * list (channel * exn)) :=
  match chs with
  | [] => ret (succeded, errored)
  | c :: rest =>
      ctx <- send_channel self c audio ;;
      match ctx with
      | Success => send_to_channels self audio rest (succeded ++ [c]) errored
      | Failure reason =>
          send_to_channels self audio rest succeded (errored ++ [(c, reason)])
      end
  end.

(** The test guarding [self.channels.remove(channel)]. *)
Definition removable (reason : exn) : bool :=
  match reason with
  | HTTP status code =>
      (status =? 403)%Z || (code =? 10003)%Z || (code =? 50013)%Z
  | _ => false
  end.

Definition reason_code (reason : exn) : Z :=
  match reason with HTTP _ code => code | _ => 0%Z end.

(** The second loop of [send]. *)
Fixpoint remove_errored (self : msg_ref) (errored : list (channel * exn))
  : Py unit :=
  match errored with
  | [] => ret tt
  | (c, reason) :: rest =>
      (if removable reason
       then
         m <- read self ;;
         match list_remove_first c (channels m) with
         | Some l =>
             write self (set_channels l m) ;;;
             trace WARNING (TrChannelRemoved c (reason_code reason =? 10003)%Z)
         | None => raise ValueError
         end
       else ret tt) ;;;
      remove_errored self rest
  end.

Definition generate_log_context (audio : AUDIO) (succeeded_ch : list channel)
    (failed_ch : list (channel * exn)) : log_context :=
  VoiceLog (filename audio) succeeded_ch failed_ch.

(** [async with self.update_mutex: body] *)
Definition with_update_mutex {A} (self : msg_ref) (body : Py A) : Py A :=
  m <- read self ;;
  write self (set_update_mutex true m) ;;;
  try_finally body
    (m' <- read self ;; write self (set_update_mutex false m')).

(** The block of [send] under the mutex.  An AUDIO object is true, so
    [any(_data_to_send.values())] holds iff the key ["audio"] is there. *)
Definition send_locked (self : msg_ref) : Py (option log_context) :=
  _data_to_send <- get_data self ;;
  match _data_to_send with
  | Some audio =>
      m <- read self ;;
      r <- send_to_channels self audio (channels m) [] [] ;;
      let '(succeded_channels, errored_channels) := r in
      remove_errored self errored_channels ;;;
      ret (Some (generate_log_context audio succeded_channels
                                      errored_channels))
  | None => ret None
  end.

Definition send (self : msg_ref) : Py (option log_context) :=
  m <- read self ;;
  if update_mutex m then ret None
  else with_update_mutex self (send_locked self).

(** ** framework/guild.py: GUILD and USER *)

(** Modelled from the spec: [is_ready] and [reset_timer] of [BaseMESSAGE]
    (framework/message/base.py is absent), after section 4.1: ready iff
    the current time has reached the fire time; a reset puts the fire time
    one period after the current time, the period being [end_period] or a
    fresh sample between [start_period] and [end_period]. *)
Definition is_ready (m : message) (now : Z) : bool :=
  (next_fire_time (timer m) <=? now)%Z.

Definition reset_timer (self : msg_ref) : Py unit :=
  m <- read self ;;
  now <- api_read time_now ;;
  period <- match start_period (timer m) with
            | None => ret (end_period (timer m))
            | Some p => api_get (randrange p (end_period (timer m)))
            end ;;
  write self (set_timer {| start_period := start_period (timer m);
                           end_period := end_period (timer m);
                           next_fire_time := now + period |} m) ;;;
  emit (EvResetTimer self (now + period)%Z).

(** A send of a class whose source is absent: it works on its own object
    and on the client. *)
Definition absent_send
    (f : message → W → result (option log_context) * message * W)
    (self : msg_ref) : Py (option log_context) := λ s,
  let '(r, m, w) := f (heap s self) (world s) in
  (r, {| world := w; voice_client := voice_client s;
         heap := <[self := m]> (heap s) |}, []).

(** [await message.send()], dispatched on the class of the object. *)
Definition message_send (self : msg_ref) : Py (option log_context) :=
  m <- read self ;;
  emit (EvSend self (next_fire_time (timer m))) ;;;
  match kind m with
  | VoiceMESSAGE => send self
  | TextMESSAGE => absent_send TextMESSAGE_send self
  | DirectMESSAGE => absent_send DirectMESSAGE_send self
  end.

(** The slots of [BaseGUILD] that [advertise] uses. *)
Record BaseGUILD := {
  snowflake : Z;
  _generate_log : bool;
  t_messages : list msg_ref;
  vc_messages : list msg_ref
}.

Definition set_t_messages (l : list msg_ref) (g : BaseGUILD) : BaseGUILD :=
  {| snowflake := snowflake g; _generate_log := _generate_log g;
     t_messages := l; vc_messages := vc_messages g |}.

Definition set_vc_messages (l : list msg_ref) (g : BaseGUILD) : BaseGUILD :=
  {| snowflake := snowflake g; _generate_log := _generate_log g;
     t_messages := t_messages g; vc_messages := l |}.

(** [BaseGUILD.generate_log]: hands the context to the SQL manager or the
    file log; whatever fails there is caught inside. *)
Definition generate_log (g : BaseGUILD) (message_context : log_context)
  : Py unit :=
  emit (EvGenerateLog (snowflake g) message_context).

Definition log_if_enabled (g : BaseGUILD) (message_ret : option log_context)
  : Py unit :=
  match message_ret with
  | Some ctx => if _generate_log g then generate_log g ctx else ret tt
  | None => ret tt
  end.

(** The body of the loop of [GUILD.advertise] for one message; the result
    tells whether the message was appended to [marked_del]. *)
Definition GUILD_advertise_message (g : BaseGUILD) (r : msg_ref) : Py bool :=
  m <- read r ;;
  now <- api_read time_now ;;
  if is_ready m now then
    reset_timer r ;;;
    message_ret <- message_send r ;;
    m' <- read r ;;
    log_if_enabled g message_ret ;;;
    ret (bool_decide (length (channels m') = 0%nat))
  else ret false.

Fixpoint GUILD_advertise_loop (g : BaseGUILD) (msgs : list msg_ref)
    (marked_del : list msg_ref) : Py (list msg_ref) :=
  match msgs with
  | [] => ret marked_del
  | r :: rest =>
      marked <- GUILD_advertise_message g r ;;
      GUILD_advertise_loop g rest
        (if marked : bool then marked_del ++ [r] else marked_del)
  end.

(** [if message in msg_list: msg_list.remove(message)] *)
Definition remove_if_present (r : msg_ref) (msg_list : list msg_ref)
  : list msg_ref :=
  if bool_decide (r ∈ msg_list)
  then default msg_list (list_remove_first r msg_list)
  else msg_list.

Fixpoint GUILD_cleanup (g : BaseGUILD) (marked_del : list msg_ref)
    (msg_list : list msg_ref) : Py (list msg_ref) :=
  match marked_del with
  | [] => ret msg_list
  | r :: rest =>
      m <- read r ;;
      trace WARNING (TrRemovingMessage (kind m) (snowflake g)) ;;;
      GUILD_cleanup g rest (remove_if_present r msg_list)
  end.

(** [self.t_messages if mode == "text" else self.vc_messages] *)
Definition msg_list_of (g : BaseGUILD) (mode : string) : list msg_ref :=
  if String.eqb mode "text" then t_messages g else vc_messages g.

Definition GUILD_advertise (g : BaseGUILD) (mode : string) : Py BaseGUILD :=
  let msg_list := msg_list_of g mode in
  marked_del <- GUILD_advertise_loop g msg_list [] ;;
  msg_list' <- GUILD_cleanup g marked_del msg_list ;;
  ret (if String.eqb mode "text" then set_t_messages msg_list' g
       else set_vc_messages msg_list' g).

(** The body of the loop of [USER.advertise] for one message, up to the
    test [message.dm_channel is None], of which it returns the outcome
    ([False] for a message that is not ready: the test is not reached). *)
Definition USER_advertise_message (u : BaseGUILD) (r : msg_ref) : Py bool :=
  m <- read r ;;
  now <- api_read time_now ;;
  if is_ready m now then
    reset_timer r ;;;
    message_ret <- message_send r ;;
    log_if_enabled u message_ret ;;;
    m' <- read r ;;
    ret (bool_decide (dm_channel m' = None))
  else ret false.

(** The loop of [USER.advertise]; the result tells whether the loop ended
    on the [break], after [self.t_messages.clear()]. *)
Fixpoint USER_advertise_loop (u : BaseGUILD) (msgs : list msg_ref) : Py bool :=
  match msgs with
  | [] => ret false
  | r :: rest =>
      rejected <- USER_advertise_message u r ;;
      if rejected : bool then
        trace WARNING (TrRemovingAllMessages (snowflake u)) ;;;
        ret true
      else USER_advertise_loop u rest
  end.

Definition USER_advertise (u : BaseGUILD) (mode : string) : Py BaseGUILD :=
  if String.eqb mode "text" then
    cleared <- USER_advertise_loop u (t_messages u) ;;
    ret (if cleared : bool then set_t_messages [] u else u)
  else ret u.

End Program.

Arguments state : clear implicits.
Arguments Py : clear implicits.

(** * daf/message/voice_based.py and daf/misc.py *)

Module Daf.

(** Modelled from the spec: the enumeration [ChannelErrorAction] of section
    3 (daf/message/base.py is absent); the two sources at hand use
    [REMOVE_ACCOUNT] and [SKIP_CHANNELS]. *)
Inductive ChannelErrorAction := NONE | SKIP_CHANNELS | REMOVE_CHANNEL | REMOVE_ACCOUNT.

(** The inherited slots of [BaseChannelMessage] that the module reads or
    writes. *)
Record BaseChannelMessage := {
  next_send_time : Z;
  channels : list channel
}.

Record VoiceMESSAGE := {
  base : BaseChannelMessage;
  volume : Z;
  (** [self.voice_client is not None] *)
  voice_client : bool
}.

(** [VoiceMESSAGE.__init__]: [voice_installed] is
    [dtypes.GLOBALS.voice_installed], [data_len] is [len(data)] when [data]
    is an [Iterable], [super_init] is what [super().__init__] does, and
    [volume] is an [Optional[int]]. *)
Definition VoiceMESSAGE_init (voice_installed : bool) (data_len : option nat)
    (super_init : result BaseChannelMessage) (volume : option Z)
  : result VoiceMESSAGE :=
  if negb voice_installed then Raise (OtherException "ModuleNotFoundError")
  else if match data_len with Some n => (1 <? n)%nat | None => false end
  then Raise ValueError
  else
    match super_init with
    | Raise e => Raise e
    | Ok b =>
        match volume with
        | None => Raise TypeError
        | Some v =>
            Ok {| base := b; volume := Z.max 0 (Z.min 100 v);
                  voice_client := false |}
        end
    end.

(** A guild member: [communication_disabled_until], and [timed_out] as the
    client library computes it.  Times are instants in seconds; the
    conversion [astimezone().replace(tzinfo=None)] keeps the instant. *)
Record Member := { communication_disabled_until : option Z }.

Definition timed_out (member : Member) (now : Z) : bool :=
  match communication_disabled_until member with
  | Some until => (now <? until)%Z
  | None => false
  end.

Definition one_minute : Z := 60.

Definition set_next_send_time (t : Z) (self : VoiceMESSAGE) : VoiceMESSAGE :=
  {| base := {| next_send_time := t; channels := channels (base self) |};
     volume := volume self; voice_client := voice_client self |}.

(** What [_handle_error] returns and what it leaves behind: the message,
    the exception object (which it may rewrite) and the trace. *)
Record handled_error := {
  handled : bool;
  action : option ChannelErrorAction;
  message_after : VoiceMESSAGE;
  exception_after : exn;
  traced : list event
}.

Definition _handle_error (self : VoiceMESSAGE) (member : option Member)
    (now : Z) (ex : exn) : handled_error :=
  let unhandled act :=
    {| handled := false; action := act; message_after := self;
       exception_after := ex; traced := [] |} in
  if has_status 401 ex then unhandled (Some REMOVE_ACCOUNT)
  else
    match member with
    | Some mem =>
        if timed_out mem now then
          let retry :=
            (default 0 (communication_disabled_until mem) + one_minute)%Z in
          {| handled := false;
             action := Some SKIP_CHANNELS;
             message_after := set_next_send_time retry self;
             exception_after :=
               if is_HTTPException ex then HTTP 429 0 else ex;
             traced := [EvTrace WARNING (TrTimedOut retry)] |}
        else unhandled None
    | None => unhandled None
    end.

(** What the [try] block of [_send_channel] meets in the guild. *)
Record attempt := {
  member : option Member;
  pending : bool;
  ch_perms : bool * bool * bool;
  cached : bool;
  (** [PCMVolumeTransformer(FFmpegPCMAudio(...))] *)
  stream : result unit;
  (** what [_move_to_connect] awaits: [move_to], or [connect] unless the
      guild has a session *)
  connection : result unit;
  (** [play] and the wait for its end *)
  playback : result unit;
  now : Z
}.

Definition is_Ok {A} (r : result A) : bool :=
  match r with Ok _ => true | Raise _ => false end.

Definition _send_channel_try (a : attempt) : result unit :=
  match member a with
  | None => Raise (generate_exception 404 (-1) NotFound)
  | Some _ =>
      if pending a then Raise (generate_exception 403 50009 Forbidden)
      else
        let '(p_connect, p_stream, p_speak) := ch_perms a in
        if negb (p_connect && p_stream && p_speak)
        then Raise (generate_exception 403 50013 Forbidden)
        else if negb (cached a)
        then Raise (generate_exception 404 10003 NotFound)
        else
          match stream a with
          | Raise e => Raise e
          | Ok _ =>
              match connection a with
              | Raise e => Raise e
              | Ok _ => playback a
              end
          end
  end.

(** Whether the [try] block gets as far as [_move_to_connect]. *)
Definition reaches_connection (a : attempt) : bool :=
  match member a with
  | None => false
  | Some _ =>
      negb (pending a) &&
      (let '(p_connect, p_stream, p_speak) := ch_perms a in
       p_connect && p_stream && p_speak) &&
      cached a && is_Ok (stream a)
  end.

Definition set_voice_client (b : bool) (self : VoiceMESSAGE) : VoiceMESSAGE :=
  {| base := base self; volume := volume self; voice_client := b |}.

(** [_move_to_connect]: a message that has a connected session keeps it;
    otherwise [self.voice_client] is assigned the session of the guild or
    the one that [connect] returns. *)
Definition _move_to_connect (self : VoiceMESSAGE) (a : attempt)
  : VoiceMESSAGE :=
  if reaches_connection a && is_Ok (connection a)
  then set_voice_client true self
  else self.

(** The dictionary returned by [_send_channel]. *)
Record context := {
  success : bool;
  reason : option exn;
  ctx_action : option ChannelErrorAction
}.

Definition _send_channel (self : VoiceMESSAGE) (a : attempt)
  : context * VoiceMESSAGE * list event :=
  let self1 := _move_to_connect self a in
  match _send_channel_try a with
  | Ok _ =>
      ({| success := true; reason := None; ctx_action := None |}, self1, [])
  | Raise ex =>
      let h := _handle_error self1 (member a) (now a) ex in
      ({| success := false; reason := Some (exception_after h);
          ctx_action := action h |},
       message_after h,
       EvTrace ERROR (TrCouldNotPlay ex) :: traced h)
  end.

(** Modelled from the spec: the cleanup that follows the attempts
    (daf/message/base.py is absent), by the table of section 4.2: a channel
    is dropped when its failure is not-found (404) or permission-denied
    (403). *)
Definition cleanup_removes (reason : exn) : bool :=
  match reason with
  | HTTP status _ => (status =? 404)%Z || (status =? 403)%Z
  | _ => false
  end.

Definition set_channels (l : list channel) (self : VoiceMESSAGE)
  : VoiceMESSAGE :=
  {| base := {| next_send_time := next_send_time (base self); channels := l |};
     volume := volume self; voice_client := voice_client self |}.

(** Modelled from the spec: the loop of [_send] over the target channels
    (daf/message/base.py is absent), by section 4.2: one attempt per
    channel, in order; a failure does not end the loop unless its action is
    [SKIP_CHANNELS] (the remaining channels wait for the next cycle) or
    [REMOVE_ACCOUNT].  Each channel comes with what its attempt meets. *)
Fixpoint _send_loop (self : VoiceMESSAGE) (attempts : list (channel * attempt))
  : list (channel * context) * VoiceMESSAGE * list event :=
  match attempts with
  | [] => ([], self, [])
  | (c, a) :: rest =>
      let '(ctx, self1, t1) := _send_channel self a in
      match ctx_action ctx with
      | Some SKIP_CHANNELS | Some REMOVE_ACCOUNT => ([(c, ctx)], self1, t1)
      | _ =>
          let '(outcomes, self2, t2) := _send_loop self1 rest in
          ((c, ctx) :: outcomes, self2, t1 ++ t2)
      end
  end.

(** Modelled from the spec: the cleanup after the loop drops the channels
    whose failure [cleanup_removes] names. *)
Definition dropped (outcomes : list (channel * context)) (c : channel) : bool :=
  existsb (λ o, bool_decide (o.1 = c) &&
                match reason o.2 with
                | Some r => cleanup_removes r
                | None => false
                end) outcomes.

Definition _cleanup (outcomes : list (channel * context)) (self : VoiceMESSAGE)
  : VoiceMESSAGE :=
  set_channels (filter (λ c, dropped outcomes c = false) (channels (base self)))
               self.

(** *** misc._update *)

Inductive value :=
| VNone
| VInt (n : Z)
| VList (l : list Z).

(** An object with [__slots__]: the slots that are set, by name. *)
Abbreviation pyobj := (gmap string value).

(** What [_update] uses of the class of the object. *)
Record pyclass := {
  (** [type(obj).__slots__]: the slots that the class of the object
      declares (or those of the nearest base class that declares any, when
      the class declares none); [None] when the lookup raises
      [AttributeError], no class of the object declaring [__slots__] *)
  own_slots : option (list string);
  (** the arguments of [__init__], without [self] *)
  init_keys : list string;
  (** [obj.__init__] on the merged parameters: the exception raised, if any, and the
      object as the call leaves it *)
  init : gmap string value → pyobj → option exn * pyobj;
  (** [obj.initialize], when the class has one *)
  initialize : option (pyobj → option exn * pyobj)
}.

(** [{k: kwargs[k] if k in kwargs else getattr(obj, k) for k in init_keys}] *)
Fixpoint updated_params (keys : list string) (kwargs : gmap string value)
    (obj : pyobj) : result (gmap string value) :=
  match keys with
  | [] => Ok ∅
  | k :: rest =>
      match (match kwargs !! k with Some v => Some v | None => obj !! k end) with
      | None => Raise AttributeError
      | Some v =>
          match updated_params rest kwargs obj with
          | Ok params => Ok (<[k := v]> params)
          | Raise e => Raise e
          end
      end
  end.

(** The [try] block of [_update]. *)
Definition _update_try (cls : pyclass) (obj : pyobj)
    (kwargs : gmap string value) : option exn * pyobj :=
  if negb (forallb (λ k, bool_decide (k ∈ init_keys cls))
                   (elements (dom kwargs)))
  then (Some TypeError, obj)
  else
    match updated_params (init_keys cls) kwargs obj with
    | Raise e => (Some e, obj)
    | Ok params =>
        match init cls params obj with
        | (Some e, obj1) => (Some e, obj1)
        | (None, obj1) =>
            match initialize cls with
            | Some f => f obj1
            | None => (None, obj1)
            end
        end
    end.

(** [for k in type(obj).__slots__: setattr(obj, k, getattr(current_state, k))] *)
Fixpoint restore (slots : list string) (current_state obj : pyobj)
  : option exn * pyobj :=
  match slots with
  | [] => (None, obj)
  | k :: rest =>
      match current_state !! k with
      | Some v => restore rest current_state (<[k := v]> obj)
      | None => (Some AttributeError, obj)
      end
  end.

(** [_update(obj, init_options=..., **kwargs)]: the exception that leaves
    the call, if any, and the object after it. *)
Definition _update (cls : pyclass) (obj : pyobj) (kwargs : gmap string value)
  : option exn * pyobj :=
  let current_state := obj in
  match _update_try cls obj kwargs with
  | (None, obj1) => (None, obj1)
  | (Some e, obj1) =>
      match own_slots cls with
      | None => (Some AttributeError, obj1)
      | Some slots =>
          match restore slots current_state obj1 with
          | (Some e', obj2) => (Some e', obj2)
          | (None, obj2) => (Some e, obj2)
          end
      end
  end.

End Daf.

(** * More of the sources *)

Definition DAFParameterError : exn := OtherException "DAFParameterError".
Definition DAFNotFoundError : exn := OtherException "DAFNotFoundError".
Definition DAFInvalidParameterError : exn :=
  OtherException "DAFInvalidParameterError".

(** ** framework/message/voice_based.py: initialize_channels *)

Module Channels.

Inductive channel_type := VoiceChannel | TextChannel | CategoryChannel.

(** A [discord.abc.GuildChannel] object. *)
Record channel_object := { ch_id : Z; ch_type : channel_type }.

(** An element of [self.channels]: a snowflake or a channel object. *)
Inductive channel_entry := ById (id : Z) | Resolved (ch : channel_object).

Definition is_voice (ch : channel_object) : bool :=
  match ch_type ch with VoiceChannel => true | _ => false end.

(** The [while] loop of [initialize_channels].  [self.channels] is
    [done ++ todo] and [ch_i] is [len(done)]; the entries of [done] are
    channel objects, so that the [None] that a failed lookup has just
    stored at [ch_i] is the one that [self.channels.remove(channel)] drops.
    [get_channel] is the cache of the client (the loop never awaits), and
    [not_found] collects the ids of the error traces. *)
Fixpoint initialize_channels_loop (get_channel : Z → option channel_object)
    (done todo : list channel_entry) (not_found : list Z)
  : result unit * list channel_entry * list Z :=
  match todo with
  | [] =>
      (if bool_decide (length done = 0%nat) then Raise DAFNotFoundError
       else Ok tt,
       done, not_found)
  | ById id :: rest =>
      match get_channel id with
      | None =>
          initialize_channels_loop get_channel done rest (not_found ++ [id])
      | Some ch =>
          if is_voice ch
          then initialize_channels_loop get_channel (done ++ [Resolved ch])
                                        rest not_found
          else (Raise DAFParameterError, done ++ Resolved ch :: rest, not_found)
      end
  | Resolved ch :: rest =>
      if is_voice ch
      then initialize_channels_loop get_channel (done ++ [Resolved ch])
                                    rest not_found
      else (Raise DAFParameterError, done ++ Resolved ch :: rest, not_found)
  end.

Definition initialize_channels (get_channel : Z → option channel_object)
    (channels : list channel_entry)
  : result unit * list channel_entry * list Z :=
  initialize_channels_loop get_channel [] channels [].

(** The channel object an entry stands for, if the client knows it. *)
Definition resolve (get_channel : Z → option channel_object)
    (e : channel_entry) : option channel_object :=
  match e with
  | ById id => get_channel id
  | Resolved ch => Some ch
  end.

Definition entry_id (e : channel_entry) : Z :=
  match e with ById id => id | Resolved ch => ch_id ch end.

End Channels.

(** ** framework/guild.py: add_message, remove_message, initialize *)

Module Containers.

(** A GUILD object: the slots of [advertise], then [initialized],
    [apiobject is not None] and [_messages]. *)
Record GUILD := {
  slots : BaseGUILD;
  initialized : bool;
  apiobject : bool;
  _messages : list msg_ref
}.

Definition set_slots (b : BaseGUILD) (g : GUILD) : GUILD :=
  {| slots := b; initialized := initialized g; apiobject := apiobject g;
     _messages := _messages g |}.

Definition set_initialized (b : bool) (g : GUILD) : GUILD :=
  {| slots := slots g; initialized := b; apiobject := apiobject g;
     _messages := _messages g |}.

Definition set_apiobject (b : bool) (g : GUILD) : GUILD :=
  {| slots := slots g; initialized := initialized g; apiobject := b;
     _messages := _messages g |}.

Section Containers.
Context {W : Type} `{API : DiscordAPI W}.

(** [message.initialize()] (framework/message/base.py is absent) and
    [client.get_client().get_guild(id) is not None]. *)
Variable message_initialize : msg_ref → Py W unit.
Variable get_guild : Z → W → bool.

(** A method of a GUILD: what it returns or raises, and the object, the
    state and the trace it leaves, also when it raises. *)
Definition method (A : Type) : Type :=
  GUILD → state W → result A * GUILD * state W * list event.

Definition add_message (r : msg_ref) : method unit := λ g s,
  match kind (heap s r) with
  | DirectMESSAGE => (Raise DAFInvalidParameterError, g, s, [])
  | k =>
      match message_initialize r s with
      | (Raise e, s1, t1) => (Raise e, g, s1, t1)
      | (Ok _, s1, t1) =>
          (Ok tt,
           match k with
           | TextMESSAGE =>
               set_slots (set_t_messages (t_messages (slots g) ++ [r]) (slots g)) g
           | _ =>
               set_slots (set_vc_messages (vc_messages (slots g) ++ [r]) (slots g)) g
           end,
           s1, t1)
      end
  end.

Definition remove_message (r : msg_ref) : method unit := λ g s,
  match kind (heap s r) with
  | TextMESSAGE =>
      match list_remove_first r (t_messages (slots g)) with
      | Some l => (Ok tt, set_slots (set_t_messages l (slots g)) g, s, [])
      | None => (Raise ValueError, g, s, [])
      end
  | VoiceMESSAGE =>
      match list_remove_first r (vc_messages (slots g)) with
      | Some l => (Ok tt, set_slots (set_vc_messages l (slots g)) g, s, [])
      | None => (Raise ValueError, g, s, [])
      end
  | DirectMESSAGE => (Raise DAFInvalidParameterError, g, s, [])
  end.

(** [for message in self._messages: await self.add_message(message)] *)
Fixpoint add_messages (msgs : list msg_ref) : method unit := λ g s,
  match msgs with
  | [] => (Ok tt, g, s, [])
  | r :: rest =>
      match add_message r g s with
      | (Ok _, g1, s1, t1) =>
          let '(res, g2, s2, t2) := add_messages rest g1 s1 in
          (res, g2, s2, t1 ++ t2)
      | (Raise e, g1, s1, t1) => (Raise e, g1, s1, t1)
      end
  end.

Definition initialize : method unit := λ g s,
  if initialized g then (Ok tt, g, s, [])
  else
    let g0 := set_apiobject (get_guild (snowflake (slots g)) (world s)) g in
    if apiobject g0 then
      match add_messages (_messages g0) g0 s with
      | (Ok _, g1, s1, t1) => (Ok tt, set_initialized true g1, s1, t1)
      | (Raise e, g1, s1, t1) => (Raise e, g1, s1, t1)
      end
    else (Raise DAFNotFoundError, g0, s, []).

End Containers.

End Containers.

(** ** daf/logging/logging.py, and the file log of framework/guild.py *)

Module Logging.

Definition C_FILE_NAME_FORBIDDEN_CHAR : list Ascii.ascii :=
  ["<"; ">"; Ascii.ascii_of_nat 34; "/"; Ascii.ascii_of_nat 92; "|"; "?"; "*";
   ":"]%char.

(** ["".join(char if char not in C_FILE_NAME_FORBIDDEN_CHAR else "#" ...)] *)
Fixpoint sanitize (name : string) : string :=
  match name with
  | EmptyString => EmptyString
  | String char rest =>
      String (if bool_decide (char ∈ C_FILE_NAME_FORBIDDEN_CHAR)
              then "#"%char else char)
             (sanitize rest)
  end.

(** [GUILD.log_file_name] *)
Definition GUILD_log_file_name (name : string) : string :=
  sanitize name +:+ ".json".

Record guild_context := { gc_name : string; gc_id : Z; gc_type : string }.

(** An element of ["message_history"]. *)
Record entry := {
  message_context : log_context;
  index : Z;
  timestamp : string
}.

(** The value of a member of the logged object other than the history. *)
Inductive member_value :=
| JString (s : string)
| JInt (n : Z)
| JOther (raw : string).

(** A JSON object with a history that the logger can add to: the members
    other than ["message_history"], in their order, and the history, with
    entries as the loggers write them. *)
Record json_data := {
  members : list (string * member_value);
  message_history : list entry
}.

(** Why JSON other than [null] is no log to the statement
    [json_data["message_history"].insert(0, {..., "index": ...})]. *)
Inductive misfit :=
| NotAnObject
  (** a list, a number, a string, [true] or [false] *)
| NoHistory
  (** an object without the key ["message_history"] *)
| BadHistory (e : exn)
  (** an object whose history is no list, or whose newest entry has no
      index to add 1 to: [e] is what the statement raises on it *).

(** What the statement raises on JSON that is no log, before anything is
    inserted or written. *)
Definition subscript_error (why : misfit) : exn :=
  match why with
  | NotAnObject => TypeError
  | NoHistory => OtherException "KeyError"
  | BadHistory e => e
  end.

(** What a file holds (the files are UTF-8 text): content on which
    [json.load] raises [JSONDecodeError] (an empty file included), the
    JSON value [null], any other JSON that is no log, or an object with a
    history.  [json.dump] followed by [json.load] gives the data back. *)
Inductive content :=
| Invalid (raw : string)
| Null
| NotALog (raw : string) (why : misfit)
| Valid (d : json_data).

(** The date of [datetime.now()] and the formatted timestamp. *)
Record clock := { year : Z; month : Z; day : Z; stamp : string }.

(** The log files below the log folder: year, month, day, file name. *)
Abbreviation path := (Z * Z * Z * string)%type.

Definition new_entry (history : list entry) (ctx : log_context)
    (now : clock) : entry :=
  {| message_context := ctx;
     index := match history with
              | [] => 0
              | newest :: _ => index newest + 1
              end;
     timestamp := stamp now |}.

Definition fresh_data (g : guild_context) : json_data :=
  {| members := [("name", JString (gc_name g)); ("id", JInt (gc_id g));
                 ("type", JString (gc_type g))];
     message_history := [] |}.

Definition add_to_history (d : json_data) (ctx : log_context) (now : clock)
  : json_data :=
  {| members := members d;
     message_history :=
       new_entry (message_history d) ctx now :: message_history d |}.

Definition log_path (extension : string) (g : guild_context) (now : clock)
  : path :=
  (year now, month now, day now, sanitize (gc_name g) +:+ extension).

Definition old_copy (p : path) : path :=
  (p.1.1.1, p.1.1.2, p.1.2, p.2 +:+ ".old").

(** [LoggerJSON._save_log] on the files of the log folder.  What
    [json.load] returns stays in [json_data], also when it is no log: the
    subscripts that follow then raise, before anything is written. *)
Definition LoggerJSON_save_log (g : guild_context) (ctx : log_context)
    (now : clock) (files : gmap path content)
  : result unit * gmap path content :=
  let logging_output := log_path ".json" g now in
  let file_exists := bool_decide (is_Some (files !! logging_output)) in
  (* logging_output.touch() *)
  let files1 := if file_exists then files
                else <[logging_output := Invalid ""]> files in
  let '(json_data, files2) :=
    if file_exists then
      match files1 !! logging_output with
      | Some (Valid d) => (Some (Ok d), files1)
      | Some (NotALog raw why) =>
          (Some (Raise (subscript_error why)), files1)
      | Some (Invalid raw) =>
          (* json.JSONDecodeError: shutil.copyfile to the .old file *)
          (None, <[old_copy logging_output := Invalid raw]> files1)
      | Some Null | None => (None, files1)
      end
    else (None, files1) in
  match json_data with
  | Some (Raise e) => (Raise e, files2)
  | Some (Ok d) =>
      (Ok tt, <[logging_output := Valid (add_to_history d ctx now)]> files2)
  | None =>
      (Ok tt,
       <[logging_output := Valid (add_to_history (fresh_data g) ctx now)]>
         files2)
  end.

(** The file branch of [BaseGUILD.generate_log]: the file is created with
    mode ["x"], then read whatever it is.  An error of the subscripts is
    caught by the [except] of [generate_log], which traces a warning: the
    result tells whether it has. *)
Definition generate_log_file (file_name : string) (g : guild_context)
    (ctx : log_context) (now : clock) (files : gmap path content)
  : gmap path content * bool :=
  let logging_output := (year now, month now, day now, file_name) in
  let fresh_file := bool_decide (files !! logging_output = None) in
  let files1 := if fresh_file then <[logging_output := Invalid ""]> files
                else files in
  match files1 !! logging_output with
  | Some (Valid d) =>
      (<[logging_output := Valid (add_to_history d ctx now)]> files1, false)
  | Some (Invalid raw) =>
      (<[logging_output := Valid (add_to_history (fresh_data g) ctx now)]>
         (if negb fresh_file
          then <[old_copy logging_output := Invalid raw]> files1
          else files1),
       false)
  | Some Null | Some (NotALog _ _) | None => (files1, true)
  end.




End Logging.

(** ** daf/message/voice_based.py: _get_data *)

Module DafVoice.



End DafVoice.

(** ** daf/misc.py: _write_attr_once *)

Module Misc.

Definition _write_attr_once (obj : gmap string Daf.value) (name : string)
    (value : Daf.value) : gmap string Daf.value :=
  match obj !! name with
  | Some _ => obj
  | None => <[name := value]> obj
  end.

End Misc.

(** * Vocabulary of the claims *)

(** The reasons [send_channel] can report. *)
Definition reported_reason (reason : exn) : Prop :=
  reason = FileExistsError ∨
  (∃ code, reason = HTTP 403 code) ∨
  reason = HTTP 404 10003 ∨
  reason = HTTP 500 0.

(** The attempts of one [send]: each channel with what [send_channel]
    returned for it.  [succeeded_of] and [failed_of] are the two lists that
    [send] builds from them. *)
Definition succeeded_of (att : list (channel * context)) : list channel :=
  omap (λ x, match x.2 with Success => Some x.1 | Failure _ => None end) att.

Definition failed_of (att : list (channel * context))
  : list (channel * exn) :=
  omap (λ x, match x.2 with Success => None | Failure e => Some (x.1, e) end)
       att.

(** The channel is gone (404, unknown channel). *)
Definition not_found (reason : exn) : Prop := reason = HTTP 404 10003.

(** The account may not use the channel (403). *)
Definition permission_denied (reason : exn) : Prop :=
  ∃ code, reason = HTTP 403 code.

(** A resolved [data] value that is [None] or empty: an empty sequence or
    an object that is empty itself (a false one, such as an empty string). *)
Definition is_empty_value (d : pydata) : bool :=
  match d with
  | PyNone => true
  | PyObj (EObject false) => true
  | PySeq [] => true
  | _ => false
  end.

(** What the spec says [_handle_error] does on a failure [ex] while the
    sending member [mem] is timed out: the action is [SKIP_CHANNELS], the
    next send is scheduled one minute after the expiry of the timeout, the
    channel list is as it was, and the reported failure is none that the
    cleanup answers by removing the channel. *)
Definition timeout_handled (self : Daf.VoiceMESSAGE) (mem : Daf.Member)
    (now : Z) (ex : exn) : Prop :=
  let h := Daf._handle_error self (Some mem) now ex in
  Daf.action h = Some Daf.SKIP_CHANNELS ∧
  (∃ until,
     Daf.communication_disabled_until mem = Some until ∧
     (until < Daf.next_send_time (Daf.base (Daf.message_after h)))%Z ∧
     Daf.next_send_time (Daf.base (Daf.message_after h))
       = (until + Daf.one_minute)%Z) ∧
  Daf.channels (Daf.base (Daf.message_after h)) = Daf.channels (Daf.base self) ∧
  Daf.cleanup_removes (Daf.exception_after h) = false.

(** A volume kept between 0 and 100. *)
Definition clamped (given stored : Z) : Prop :=
  (0 ≤ stored ≤ 100)%Z ∧
  ((given < 0)%Z → stored = 0%Z) ∧
  ((100 < given)%Z → stored = 100%Z).

(** The three parts of a run. *)
Definition result_of {A S} (x : result A * S * list event) : result A := x.1.1.
Definition state_of {A S} (x : result A * S * list event) : S := x.1.2.
Definition trace_of {A S} (x : result A * S * list event) : list event := x.2.

Definition is_delivery (e : event) : bool :=
  match e with
  | EvConnect _ | EvMoveTo _ | EvPlay _ _ => true
  | _ => false
  end.

Definition is_generate_log (e : event) : bool :=
  match e with EvGenerateLog _ _ => true | _ => false end.

(** The calls a container makes on a message. *)
Definition is_message_call (e : event) : bool :=
  match e with EvResetTimer _ _ | EvSend _ _ => true | _ => false end.

(** What a [VoiceMESSAGE.send] can leave in the trace. *)
Definition is_send_event (e : event) : bool :=
  match e with
  | EvConnect _ | EvMoveTo _ | EvPlay _ _ | EvDisconnect => true
  | EvTrace WARNING (TrChannelRemoved _ _) => true
  | _ => false
  end.

(** The warning of [GUILD.advertise] for a message it removes. *)
Definition is_removal_warning (e : event) : bool :=
  match e with
  | EvTrace WARNING (TrRemovingMessage _ _) => true
  | _ => false
  end.

(** Whether [send] was called on message [r]. *)
Definition was_sent (r : msg_ref) (tr : list event) : bool :=
  existsb (λ e, match e with
                | EvSend r' _ => bool_decide (r' = r)
                | _ => false
                end) tr.

(** A trace in which every call of [send] on a message comes right after
    the call of [reset_timer] on the same message, and sees the fire time
    that this reset has set. *)
Inductive reset_then_send : list event → Prop :=
| rts_nil : reset_then_send []
| rts_call r fire tr :
    reset_then_send tr →
    reset_then_send (EvResetTimer r fire :: EvSend r fire :: tr)
| rts_other e tr :
    is_message_call e = false →
    reset_then_send tr → reset_then_send (e :: tr).

Section Vocabulary.
Context {W : Type} `{API : DiscordAPI W}.

(** What the data provider of a message resolves to in a given world. *)
Definition resolved_value (src : data_source) (w : W) : pydata :=
  match src with
  | Static d => d
  | DataFunction f => (call_data_function f w).1
  end.

(** A step that touches no other message than [self], and of [self] only
    the channel list. *)
Definition only_channels_of (self : msg_ref) (s s' : state W) : Prop :=
  (∀ r, r ≠ self → heap s' r = heap s r) ∧
  ∃ l, heap s' self = set_channels l (heap s self).

(** The warning traced for the removal of message [r]. *)
Definition removal_warning (g : BaseGUILD) (s : state W) (r : msg_ref) : event :=
  EvTrace WARNING (TrRemovingMessage (kind (heap s r)) (snowflake g)).

(** The disconnect of the [finally] clause never fails. *)
Definition teardown_completes : Prop := ∀ w, (vc_disconnect w).1 = Ok tt.

(** An error that the disconnect of the [finally] clause raises. *)
Definition raised_by_teardown (e : exn) : Prop :=
  ∃ w, (vc_disconnect w).1 = Raise e.

(** How the [except] clause of [send_channel] names an error [e] of the
    [try] block, caught in the world [w]. *)
Definition reported_as (c : channel) (e : exn) (w : W) : exn :=
  if is_FileExistsError e || is_Forbidden e then e
  else if channel_cached c w then HTTP 500 0
  else HTTP 404 10003.

(** The attempts that a loop over [chs] makes from the state [s]: each
    channel with what [send_channel] returns for it, as long as
    [send_channel] returns. *)
Fixpoint attempts_of (self : msg_ref) (audio : AUDIO) (chs : list channel)
    (s : state W) : list (channel * context) :=
  match chs with
  | [] => []
  | c :: rest =>
      match send_channel self c audio s with
      | (Ok ctx, s1, _) => (c, ctx) :: attempts_of self audio rest s1
      | (Raise _, _, _) => []
      end
  end.

(** The state of a [send] that has taken the mutex. *)
Definition locked (self : msg_ref) (s : state W) : state W :=
  {| world := world s; voice_client := voice_client s;
     heap := <[self := set_update_mutex true (heap s self)]> (heap s) |}.

(** The attempts of the call [send] made in the state [s]: the loop starts
    when the mutex is taken and the data provider has answered. *)
Definition attempts (self : msg_ref) (s : state W) (audio : AUDIO)
  : list (channel * context) :=
  attempts_of self audio (channels (heap s self))
              (state_of (get_data self (locked self s))).

(** [advertise] from a point of its loop on: [todo] are the messages
    still to visit, [marked] those marked for removal so far. *)
Definition GUILD_advertise_from (g : BaseGUILD) (mode : string)
    (todo marked : list msg_ref) : Py W BaseGUILD :=
  bind (GUILD_advertise_loop g todo marked) (λ marked_del,
  bind (GUILD_cleanup g marked_del (msg_list_of g mode)) (λ msg_list',
  ret (if String.eqb mode "text" then set_t_messages msg_list' g
       else set_vc_messages msg_list' g))).

(** In the call [advertise(mode)] made in the state [s], the loop arrives
    at the message [r] in the state [s_r], with the trace [tr] behind it
    and [marked] marked so far; [todo] are the messages after [r]. *)
Definition arrives_at (g : BaseGUILD) (mode : string) (s : state W)
    (r : msg_ref) (todo marked : list msg_ref) (s_r : state W)
    (tr : list event) : Prop :=
  ∃ before,
    msg_list_of g mode = before ++ r :: todo ∧
    GUILD_advertise_loop g before [] s = (Ok marked, s_r, tr).

End Vocabulary.

(** * A small world to run the code in

    A guild with four voice channels: in channel 1 everything works, in
    channel 2 the account may not speak, channel 3 has been deleted (the
    connection fails and the channel is out of the cache), channel 4 times
    out on connection. *)

Module Scenario.

Record sim := { clock : Z; connected : bool }.

Definition set_connected (b : bool) (w : sim) : sim :=
  {| clock := clock w; connected := b |}.

Definition advance (n : Z) (w : sim) : sim :=
  {| clock := clock w + n; connected := connected w |}.

Definition song : AUDIO := {| filename := "song.mp3"; url := "song.mp3" |}.

(** The data functions of the small world: function 0 returns [None],
    function 2 returns [None] until the clock shows 150 and the song from
    then on, the others return an empty list. *)
Definition data_function (f : nat) (w : sim) : pydata :=
  match f with
  | 0%nat => PyNone
  | 2%nat => if (clock w <? 150)%Z then PyNone else PyObj (EAudio song)
  | _ => PySeq []
  end.

#[export] Instance api : DiscordAPI sim := {|
  time_now := clock;
  randrange lo hi w := (lo, w);
  channel_cached c w := negb (c =? 3)%Z;
  permissions_for c w :=
    if (c =? 2)%Z then Ok (true, true, false) else Ok (true, true, true);
  vc_is_connected := connected;
  vc_connect c timeout w :=
    if (c =? 3)%Z || (c =? 4)%Z
    then (Raise (OtherException "TimeoutError"), w)
    else (Ok tt, set_connected true w);
  vc_move_to c w := (Ok tt, w);
  open_stream a v w := (Ok tt, w);
  vc_play_to_end w := (Ok tt, advance 10 w);
  vc_disconnect w := (Ok tt, set_connected false w);
  sleep n w := advance n w;
  call_data_function f w := (data_function f w, w);
  TextMESSAGE_send m w := (Ok (Some (OtherLog "hello")), m, w);
  DirectMESSAGE_send m w :=
    (Ok None,
     {| kind := kind m; timer := timer m; data := data m; volume := volume m;
        channels := channels m; dm_channel := None;
        update_mutex := update_mutex m |}, w)
|}.

Definition every_minute : Timer :=
  {| start_period := None; end_period := 60; next_fire_time := 0 |}.

Definition voice_message (d : data_source) (chs : list channel) (locked : bool)
  : message :=
  {| kind := VoiceMESSAGE; timer := every_minute; data := d; volume := 50;
     channels := chs; dm_channel := None; update_mutex := locked |}.

Definition direct_message (fire : Z) : message :=
  {| kind := DirectMESSAGE;
     timer := {| start_period := None; end_period := 60;
                 next_fire_time := fire |};
     data := Static (PyObj (EObject true)); volume := 0;
     channels := []; dm_channel := Some 9%Z; update_mutex := false |}.

Definition start (h : msg_ref → message) : state sim :=
  {| world := {| clock := 100; connected := false |};
     voice_client := false; heap := h |}.

(** A voice message that is being updated, one whose data function returns
    [None], and one with the song for the four channels. *)
Definition updating : state sim :=
  start (λ _, voice_message (Static (PyObj (EAudio song))) [1; 2; 3; 4]%Z true).

Definition silent : state sim :=
  start (λ _, voice_message (DataFunction 0) [1; 2]%Z false).

Definition playing : state sim :=
  start (λ _, voice_message (Static (PyObj (EAudio song))) [1; 2; 3; 4]%Z false).

(** A guild with two voice messages: message 0 goes to the four channels,
    message 1 to channels 2 and 3 only. *)
Definition guild : BaseGUILD :=
  {| snowflake := 7; _generate_log := true;
     t_messages := []; vc_messages := [0; 1]%nat |}.

Definition guild_state : state sim :=
  start (λ r, match r with
              | O => voice_message (Static (PyObj (EAudio song))) [1; 2; 3; 4]%Z false
              | _ => voice_message (Static (PyObj (EAudio song))) [2; 3]%Z false
              end).

(** A user with two direct messages; the user accepts no message. *)
Definition user : BaseGUILD :=
  {| snowflake := 8; _generate_log := false;
     t_messages := [0; 1]%nat; vc_messages := [] |}.

Definition user_state : state sim := start (λ _, direct_message 0).

(** A [daf.VoiceMESSAGE] as [_update] sees it: the class declares the
    slots [volume] and [voice_client]; the other slots are inherited.
    [__init__] stores its arguments, clamps the volume and schedules the
    first send [start_in] after the current time (500 here); [initialize]
    refuses a message none of whose channels is in the guild (channels 1
    and 2). *)
Definition voice_init (params : gmap string Daf.value)
    (obj : gmap string Daf.value) : option exn * gmap string Daf.value :=
  match params !! "volume", params !! "start_in" with
  | Some (Daf.VInt v), Some (Daf.VInt start_in) =>
      (None,
       <["voice_client" := Daf.VNone]>
         (<["volume" := Daf.VInt (Z.max 0 (Z.min 100 v))]>
            (<["next_send_time" := Daf.VInt (500 + start_in)]>
               (params ∪ obj))))
  | _, _ => (Some TypeError, obj)
  end.

Definition voice_initialize (obj : gmap string Daf.value)
  : option exn * gmap string Daf.value :=
  match obj !! "channels" with
  | Some (Daf.VList l) =>
      if forallb (λ c, negb ((c =? 1)%Z || (c =? 2)%Z)) l
      then (Some ValueError, obj)
      else (None, obj)
  | _ => (Some TypeError, obj)
  end.

Definition voice_class : Daf.pyclass :=
  {| Daf.own_slots := Some ["volume"; "voice_client"];
     Daf.init_keys := ["start_period"; "end_period"; "data"; "channels";
                       "volume"; "start_in"; "remove_after"];
     Daf.init := voice_init;
     Daf.initialize := Some voice_initialize |}.

Definition voice_object : gmap string Daf.value :=
  list_to_map
    [("start_period", Daf.VNone); ("end_period", Daf.VInt 60);
     ("data", Daf.VNone); ("channels", Daf.VList [1; 2]%Z);
     ("remove_after", Daf.VNone); ("next_send_time", Daf.VInt 100);
     ("volume", Daf.VInt 50); ("voice_client", Daf.VNone)].

(** [update(channels=[3], volume=70)], to which [update] adds [start_in]. *)
Definition bad_channels : gmap string Daf.value :=
  list_to_map
    [("channels", Daf.VList [3]%Z); ("volume", Daf.VInt 70);
     ("start_in", Daf.VInt 0)].

Definition muted : Daf.Member :=
  {| Daf.communication_disabled_until := Some 1000%Z |}.

(** What an attempt meets while the member is timed out: the client
    library grants a timed-out member no permission to connect or speak. *)
Definition muted_attempt : Daf.attempt :=
  {| Daf.member := Some muted; Daf.pending := false;
     Daf.ch_perms := (false, false, false); Daf.cached := true;
     Daf.stream := Ok tt; Daf.connection := Ok tt;
     Daf.playback := Ok tt; Daf.now := 100 |}.

Definition daf_message : Daf.VoiceMESSAGE :=
  {| Daf.base := {| Daf.next_send_time := 100; Daf.channels := [1; 2]%Z |};
     Daf.volume := 50; Daf.voice_client := false |}.

End Scenario.

(** * Vocabulary of the further properties *)

(** The AUDIO objects of a sequence, in order. *)
Definition audios (es : list element) : list AUDIO :=
  omap (λ e, match e with EAudio a => Some a | EObject _ => None end) es.

(** The ids for which the client has no channel. *)
Definition unknown_ids (get_channel : Z → option Channels.channel_object)
    (chs : list Channels.channel_entry) : list Z :=
  omap (λ e, match e with
             | Channels.ById id =>
                 match get_channel id with None => Some id | Some _ => None end
             | Channels.Resolved _ => None
             end) chs.

(** A message history whose indices count down to 0. *)
Definition counts_down (history : list Logging.entry) : Prop :=
  ∀ i e, history !! i = Some e →
         Logging.index e = Z.of_nat (length history - 1 - i).

(** The history that the log file at [p] holds. *)
Definition history_at (files : gmap Logging.path Logging.content)
    (p : Logging.path) : list Logging.entry :=
  match files !! p with
  | Some (Logging.Valid d) => Logging.message_history d
  | _ => []
  end.

(** * More runs in the small world *)

Module Runs.

Definition cache (id : Z) : option Channels.channel_object :=
  if (id =? 1)%Z || (id =? 2)%Z
  then Some {| Channels.ch_id := id; Channels.ch_type := Channels.VoiceChannel |}
  else if (id =? 5)%Z
  then Some {| Channels.ch_id := id; Channels.ch_type := Channels.TextChannel |}
  else None.

(** A voice message none of whose channels lets the client speak, and a
    guild that has this message only and writes no log. *)
Definition refused : state Scenario.sim :=
  Scenario.start
    (λ _, Scenario.voice_message (Static (PyObj (EAudio Scenario.song)))
                                 [2; 2]%Z false).

Definition lonely : BaseGUILD :=
  {| snowflake := 7; _generate_log := false;
     t_messages := []; vc_messages := [0%nat] |}.

(** Messages that are due at 1000, while the clock shows 100. *)
Definition resting : state Scenario.sim :=
  Scenario.start
    (λ _, set_timer {| start_period := None; end_period := 60;
                       next_fire_time := 1000 |}
            (Scenario.voice_message (Static (PyObj (EAudio Scenario.song)))
                                    [1]%Z false)).

(** Message 0 is a voice message, the others are text messages; the
    initialisation of message 2 fails. *)
Definition text_message : message :=
  {| kind := TextMESSAGE; timer := Scenario.every_minute;
     data := Static (PyObj (EObject true)); volume := 0;
     channels := [5]%Z; dm_channel := None; update_mutex := false |}.

Definition mixed : state Scenario.sim :=
  Scenario.start
    (λ r, match r with
          | O => Scenario.voice_message (Static (PyObj (EAudio Scenario.song)))
                                        [1]%Z false
          | _ => text_message
          end).

Definition message_initialize (r : msg_ref) : Py Scenario.sim unit := λ s,
  (if (r =? 2)%nat then Raise ValueError else Ok tt, s, []).

Definition get_guild (id : Z) (w : Scenario.sim) : bool := (id =? 7)%Z.

Definition new_guild (msgs : list msg_ref) : Containers.GUILD :=
  {| Containers.slots := {| snowflake := 7; _generate_log := false;
                            t_messages := []; vc_messages := [] |};
     Containers.initialized := false; Containers.apiobject := false;
     Containers._messages := msgs |}.

(** The small world with a session that cannot be closed. *)
Definition stuck : DiscordAPI Scenario.sim := {|
  time_now := Scenario.clock;
  randrange lo hi w := (lo, w);
  channel_cached c w := true;
  permissions_for c w := Ok (true, true, true);
  vc_is_connected := Scenario.connected;
  vc_connect c timeout w := (Ok tt, Scenario.set_connected true w);
  vc_move_to c w := (Ok tt, w);
  open_stream a v w := (Ok tt, w);
  vc_play_to_end w := (Ok tt, w);
  vc_disconnect w := (Raise (OtherException "ConnectionClosed"), w);
  sleep n w := w;
  call_data_function f w := (PyNone, w);
  TextMESSAGE_send m w := (Ok None, m, w);
  DirectMESSAGE_send m w := (Ok None, m, w)
|}.

(** The same, with channels that let nobody speak, and the state of
    [refused] with a session left open. *)
Definition stuck_refused : DiscordAPI Scenario.sim := {|
  time_now := Scenario.clock;
  randrange lo hi w := (lo, w);
  channel_cached c w := true;
  permissions_for c w := Ok (true, true, false);
  vc_is_connected := Scenario.connected;
  vc_connect c timeout w := (Ok tt, Scenario.set_connected true w);
  vc_move_to c w := (Ok tt, w);
  open_stream a v w := (Ok tt, w);
  vc_play_to_end w := (Ok tt, w);
  vc_disconnect w := (Raise (OtherException "ConnectionClosed"), w);
  sleep n w := w;
  call_data_function f w := (PyNone, w);
  TextMESSAGE_send m w := (Ok None, m, w);
  DirectMESSAGE_send m w := (Ok None, m, w)
|}.

Definition session_open : state Scenario.sim :=
  {| world := Scenario.set_connected true (world refused);
     voice_client := true; heap := heap refused |}.

(** Voice messages whose data function has nothing to send yet. *)
Definition waking : state Scenario.sim :=
  Scenario.start
    (λ _, Scenario.voice_message (DataFunction 2) [1; 2]%Z false).

(** A guild that lists the same message twice. *)
Definition twice : BaseGUILD :=
  {| snowflake := 7; _generate_log := false;
     t_messages := []; vc_messages := [0; 0]%nat |}.

(** A logger class: it declares no [__slots__]. *)
Definition logger_class : Daf.pyclass :=
  {| Daf.own_slots := None;
     Daf.init_keys := ["path"; "fallback"];
     Daf.init := λ params obj, (None, params ∪ obj);
     Daf.initialize := Some (λ obj, (None, obj)) |}.

Definition logger_object : gmap string Daf.value :=
  list_to_map [("path", Daf.VInt 1); ("fallback", Daf.VNone)].

(** [update(colour=1)] *)
Definition unknown_keyword : gmap string Daf.value :=
  {[ "colour" := Daf.VInt 1 ]}.

End Runs.

(** * Verification *)

Section Verification.
Context {W : Type} `{API : DiscordAPI W}.

Implicit Types (s : state W) (self : msg_ref) (c : channel) (m : message).

(** ** The monad *)

Ltac py_unfold :=
  unfold bind, ret, raise, emit, trace, read, write, get_voice_client,
    set_voice_client, api_read, api_try, api_call, api_do, api_get,
    set_world in *.

Lemma bind_ok {A B} (c : Py W A) (k : A → Py W B) s a s1 t1 :
  c s = (Ok a, s1, t1) →
  bind c k s = (let '(r, s2, t2) := k a s1 in (r, s2, t1 ++ t2)).
Proof. intros Hc. unfold bind. by rewrite Hc. Qed.

Lemma bind_raise {A B} (c : Py W A) (k : A → Py W B) s e s1 t1 :
  c s = (Raise e, s1, t1) → bind c k s = (Raise e, s1, t1).
Proof. intros Hc. unfold bind. by rewrite Hc. Qed.

(** ** send_channel *)

Lemma send_channel_try_run self c audio s r s1 t1 :
  send_channel_try self c audio s = (r, s1, t1) →
  heap s1 = heap s ∧ (∀ ctx, r = Ok ctx → ctx = Success) ∧
  Forall (λ e, is_send_event e = true) t1.
Proof.
  unfold send_channel_try. py_unfold. simpl.
  destruct (permissions_for c (world s)) as [[[pc ps] pk]|e]; simpl.
  2: { intros [= <- <- <-]. by repeat constructor. }
  destruct (negb (pc && ps && pk)); simpl.
  { intros [= <- <- <-]. by repeat constructor. }
  destruct (negb (voice_client s) || negb (vc_is_connected (world s))); simpl.
  - destruct (vc_connect c _ (world s)) as [[[]|e] w1]; simpl.
    2: { intros [= <- <- <-]. by repeat constructor. }
    destruct (open_stream audio _ w1) as [[[]|e] w2]; simpl.
    2: { intros [= <- <- <-]. by repeat constructor. }
    destruct (vc_play_to_end w2) as [[[]|e] w3]; simpl;
      intros [= <- <- <-];
      (split; [done|split; [intros ctx ?; congruence|by repeat constructor]]).
  - destruct (vc_move_to c (world s)) as [[[]|e] w1]; simpl.
    2: { intros [= <- <- <-]. by repeat constructor. }
    destruct (open_stream audio _ w1) as [[[]|e] w2]; simpl.
    2: { intros [= <- <- <-]. by repeat constructor. }
    destruct (vc_play_to_end w2) as [[[]|e] w3]; simpl;
      intros [= <- <- <-];
      (split; [done|split; [intros ctx ?; congruence|by repeat constructor]]).
Qed.

Lemma send_channel_finally_run s res s' tr :
  send_channel_finally s = (res, s', tr) →
  heap s' = heap s ∧
  Forall (λ e, is_send_event e = true ∧ is_delivery e = false) tr ∧
  match res with
  | Ok _ => voice_client s' && vc_is_connected (world s') = false
  | Raise e => raised_by_teardown e
  end ∧
  (voice_client s = false → res = Ok tt ∧ s' = s ∧ tr = []).
Proof.
  unfold send_channel_finally, raised_by_teardown. py_unfold. simpl.
  destruct (voice_client s) eqn:Hvc; simpl.
  2: { intros [= <- <- <-]. by rewrite Hvc. }
  destruct (vc_is_connected (world s)) eqn:Hc; simpl.
  2: { intros [= <- <- <-]. rewrite Hvc, Hc. by repeat split. }
  destruct (vc_disconnect (world s)) as [[[]|e] w] eqn:Hd; simpl;
    intros [= <- <- <-]; simpl.
  - split; [done|]. split; [by repeat constructor|]. by split.
  - split; [done|]. split; [by repeat constructor|]. split; [|done].
    exists (world s). by rewrite Hd.
Qed.

Lemma send_channel_except_run c ex s :
  ∃ reason, send_channel_except c ex s = (Ok (Failure reason), s, []) ∧
            reported_reason reason.
Proof.
  unfold send_channel_except, reported_reason, generate_exception.
  destruct ex as [|st code| | | |nm]; py_unfold; simpl;
    try destruct (Z.eqb_spec st 403) as [->|?]; simpl;
    try destruct (negb (channel_cached c (world s))); simpl;
    eexists; (split; [reflexivity|]); eauto 10.
Qed.

Lemma send_channel_except_eq c ex s :
  send_channel_except c ex s
    = (Ok (Failure (reported_as c ex (world s))), s, []).
Proof.
  unfold send_channel_except, reported_as, generate_exception.
  destruct (is_FileExistsError ex || is_Forbidden ex); [done|].
  py_unfold. simpl. by destruct (channel_cached c (world s)).
Qed.

(** [send_channel] returns an outcome, unless the disconnect raises. *)
Lemma send_channel_run self c audio s res s' tr :
  send_channel self c audio s = (res, s', tr) →
  heap s' = heap s ∧
  Forall (λ e, is_send_event e = true) tr ∧
  match res with
  | Ok ctx =>
      match ctx with
      | Success => True
      | Failure reason => reported_reason reason
      end ∧
      voice_client s' && vc_is_connected (world s') = false
  | Raise e => raised_by_teardown e
  end.
Proof.
  unfold send_channel, try_finally, try_except.
  assert (∀ t, Forall (λ e, is_send_event e = true ∧ is_delivery e = false) t →
               Forall (λ e, is_send_event e = true) t) as Hweak.
  { intros t Ht. eapply list.Forall_impl; [exact Ht|]. by intros e [? ?]. }
  destruct (send_channel_try self c audio s) as [[[ctx|e] s1] t1] eqn:Htry;
    apply send_channel_try_run in Htry as (Hh1 & Hsucc & Ht1).
  - destruct (send_channel_finally s1) as [[rf s2] t2] eqn:Hfin.
    apply send_channel_finally_run in Hfin as (Hh & Ht2 & Hres & _).
    destruct rf as [[]|e]; intros [= <- <- <-];
      (split; [congruence|]); (split; [apply Forall_app; auto|]); [|done].
    by rewrite (Hsucc ctx eq_refl).
  - destruct (send_channel_except_run c e s1) as (reason & -> & Hr).
    destruct (send_channel_finally s1) as [[rf s2] t2] eqn:Hfin.
    apply send_channel_finally_run in Hfin as (Hh & Ht2 & Hres & _).
    destruct rf as [[]|e']; intros [= <- <- <-];
      (split; [congruence|]);
      (split; [rewrite app_nil_r; apply Forall_app; auto|]); done.
Qed.

(** How [send_channel] names the outcome of the [try] block: a success,
    or the failure as the [except] clause reports it. *)
Lemma send_channel_outcome self c audio s r s1 t1 ctx :
  send_channel_try self c audio s = (r, s1, t1) →
  result_of (send_channel self c audio s) = Ok ctx →
  ctx = match r with
        | Ok _ => Success
        | Raise e => Failure (reported_as c e (world s1))
        end.
Proof.
  intros Htry. unfold send_channel, try_finally, try_except, result_of.
  rewrite Htry. destruct r as [ctx0|e].
  - apply send_channel_try_run in Htry as (_ & Hsucc & _).
    rewrite (Hsucc ctx0 eq_refl).
    destruct (send_channel_finally s1) as [[[[]|e] s2] t2]; simpl; congruence.
  - rewrite send_channel_except_eq.
    destruct (send_channel_finally s1) as [[[[]|e'] s2] t2]; simpl; congruence.
Qed.

(** A channel in which the account may not connect, stream or speak is
    reported as forbidden, before any connection is tried. *)
Lemma send_channel_without_permission self c audio s p_connect p_stream p_speak :
  permissions_for c (world s) = Ok (p_connect, p_stream, p_speak) →
  p_connect && p_stream && p_speak = false →
  voice_client s = false →
  send_channel self c audio s = (Ok (Failure (HTTP 403 50013)), s, []).
Proof.
  intros Hperm Hall Hvc.
  assert (send_channel_try self c audio s = (Raise (HTTP 403 50013), s, []))
    as Htry.
  { unfold send_channel_try. py_unfold. simpl. by rewrite Hperm, Hall. }
  unfold send_channel, try_finally, try_except. rewrite Htry.
  rewrite send_channel_except_eq.
  destruct (send_channel_finally s) as [[rf s2] t2] eqn:Hfin.
  apply send_channel_finally_run in Hfin as (_ & _ & _ & Hidle).
  by destruct (Hidle Hvc) as (-> & -> & ->).
Qed.

(** ** Lists *)

Lemma list_remove_first_elem {A} `{EqDecision A} (x : A) (l : list A) :
  x ∈ l → ∃ l', list_remove_first x l = Some l' ∧ l ≡ₚ x :: l'.
Proof.
  induction l as [|y l IH]; [by intros ?%elem_of_nil|].
  intros Hin. simpl. destruct (decide (x = y)) as [->|Hne].
  - by exists l.
  - apply elem_of_cons in Hin as [?|Hin]; [done|].
    destruct (IH Hin) as (l' & -> & Hp).
    exists (y :: l'). split; [done|]. rewrite Hp. apply Permutation_swap.
Qed.

Lemma attempts_split (att : list (channel * context)) :
  att.*1 ≡ₚ succeeded_of att ++ (failed_of att).*1.
Proof.
  induction att as [|[c [|e]] att IH]; [done| |]; simpl.
  - by rewrite IH.
  - rewrite IH. apply Permutation_middle.
Qed.

Lemma failed_split (f : exn → bool) (l : list (channel * exn)) :
  l.*1 ≡ₚ (filter (λ x, f x.2 = true) l).*1 ++
          (filter (λ x, f x.2 = false) l).*1.
Proof.
  induction l as [|[c e] l IH]; [done|].
  rewrite !filter_cons. simpl. destruct (f e) eqn:Hf;
    repeat case_decide; try done; simpl.
  - by rewrite <- IH.
  - rewrite IH. apply Permutation_middle.
Qed.

Lemma NoDup_fst_functional {A B} (l : list (A * B)) x y1 y2 :
  NoDup l.*1 → (x, y1) ∈ l → (x, y2) ∈ l → y1 = y2.
Proof.
  induction l as [|[a b] l IH]; [by intros _ ?%elem_of_nil|].
  simpl. intros Hnd'.
  pose proof (NoDup_cons_1_1 _ _ Hnd') as Hnin.
  pose proof (NoDup_cons_1_2 _ _ Hnd') as Hnd. clear Hnd'.
  intros [[= -> ->]|H1]%elem_of_cons [[= ?]|H2]%elem_of_cons; subst; try done.
  - exfalso. apply Hnin. apply list_elem_of_fmap. by exists (a, y2).
  - exfalso. apply Hnin. apply list_elem_of_fmap. by exists (a, y1).
  - by apply IH.
Qed.

(** ** The two loops of send *)

Lemma send_to_channels_run self audio chs succ0 err0 s res s' tr :
  send_to_channels self audio chs succ0 err0 s = (res, s', tr) →
  heap s' = heap s ∧
  Forall (λ e, is_send_event e = true) tr ∧
  match res with
  | Ok (succ, err) =>
      (attempts_of self audio chs s).*1 = chs ∧
      succ = succ0 ++ succeeded_of (attempts_of self audio chs s) ∧
      err = err0 ++ failed_of (attempts_of self audio chs s) ∧
      Forall (λ x, reported_reason x.2)
             (failed_of (attempts_of self audio chs s))
  | Raise e => raised_by_teardown e
  end.
Proof.
  revert succ0 err0 s res s' tr.
  induction chs as [|c chs IH]; intros succ0 err0 s res s' tr.
  { simpl. unfold ret. intros [= <- <- <-]. by rewrite !app_nil_r. }
  simpl.
  destruct (send_channel self c audio s) as [[[ctx|e] s1] t1] eqn:Hrun;
    pose proof (send_channel_run _ _ _ _ _ _ _ Hrun) as (Hh & Ht1 & Hres).
  2: { rewrite (bind_raise _ _ _ _ _ _ Hrun). by intros [= <- <- <-]. }
  rewrite (bind_ok _ _ _ _ _ _ Hrun).
  destruct Hres as [Hrep _].
  destruct ctx as [|reason].
  - destruct (send_to_channels self audio chs (succ0 ++ [c]) err0 s1)
      as [[res2 s2] t2] eqn:Hrest.
    intros [= <- <- <-].
    apply IH in Hrest as (Hh2 & Ht2 & Hres2).
    split; [congruence|]. split; [by apply Forall_app|].
    destruct res2 as [[succ err]|e]; [|done].
    destruct Hres2 as (Hatt & -> & -> & Hrep2).
    rewrite fmap_cons, Hatt. simpl. by rewrite <- app_assoc.
  - destruct (send_to_channels self audio chs succ0 (err0 ++ [(c, reason)]) s1)
      as [[res2 s2] t2] eqn:Hrest.
    intros [= <- <- <-].
    apply IH in Hrest as (Hh2 & Ht2 & Hres2).
    split; [congruence|]. split; [by apply Forall_app|].
    destruct res2 as [[succ err]|e]; [|done].
    destruct Hres2 as (Hatt & -> & -> & Hrep2).
    rewrite fmap_cons, Hatt. simpl. rewrite <- app_assoc.
    split; [done|]. split; [done|]. split; [done|by constructor].
Qed.

Lemma set_channels_id m : set_channels (channels m) m = m.
Proof. by destruct m. Qed.

Lemma only_channels_of_refl self s : only_channels_of self s s.
Proof.
  split; [done|]. exists (channels (heap s self)). by rewrite set_channels_id.
Qed.

Lemma only_channels_of_trans self s1 s2 s3 :
  only_channels_of self s1 s2 → only_channels_of self s2 s3 →
  only_channels_of self s1 s3.
Proof.
  intros [Ho1 [l1 Hl1]] [Ho2 [l2 Hl2]]. split.
  - intros r Hr. by rewrite Ho2, Ho1.
  - exists l2. by rewrite Hl2, Hl1.
Qed.

Lemma only_channels_of_heap self s1 s2 :
  heap s2 = heap s1 → only_channels_of self s1 s2.
Proof.
  intros Hh. split; [by rewrite Hh|].
  exists (channels (heap s1 self)). by rewrite Hh, set_channels_id.
Qed.

Lemma remove_errored_run self err s K :
  channels (heap s self) ≡ₚ (filter (λ x, removable x.2 = true) err).*1 ++ K →
  ∃ s' tr,
    remove_errored self err s = (Ok tt, s', tr) ∧
    channels (heap s' self) ≡ₚ K ∧
    only_channels_of self s s' ∧
    Forall (λ e, is_send_event e = true) tr.
Proof.
  revert s. induction err as [|[c reason] err IH]; intros s Hp.
  - exists s, []. simpl in *. unfold ret.
    split; [done|]. split; [done|]. split; [apply only_channels_of_refl|done].
  - rewrite filter_cons in Hp. simpl in Hp. simpl.
    destruct (removable reason) eqn:Hrem.
    + rewrite decide_True in Hp by done. simpl in Hp.
      assert (c ∈ channels (heap s self)) as Hin.
      { rewrite Hp. apply elem_of_cons. by left. }
      destruct (list_remove_first_elem _ _ Hin) as (l' & Hl' & Hpl).
      py_unfold. simpl. rewrite Hl'. simpl.
      set (s1 := {| world := world s; voice_client := voice_client s;
                    heap := <[self:=set_channels l' (heap s self)]> (heap s) |}).
      destruct (IH s1) as (s2 & t2 & -> & Hch & Hfr & Htr).
      { simpl. rewrite fn_lookup_insert. simpl.
        apply (Permutation.Permutation_cons_inv (a:=c)). by rewrite <- Hpl. }
      exists s2, ([EvTrace WARNING (TrChannelRemoved c (reason_code reason =? 10003)%Z)] ++ t2).
      split; [done|]. split; [done|]. split.
      * apply (only_channels_of_trans _ _ s1); [|done]. split.
        -- intros r Hr. simpl. by rewrite fn_lookup_insert_ne.
        -- exists l'. simpl. by rewrite fn_lookup_insert.
      * by constructor.
    + rewrite decide_False in Hp by done.
      destruct (IH s Hp) as (s2 & t2 & Hrun & Hch & Hmx & Htr).
      py_unfold. simpl. unfold bind in Hrun. rewrite Hrun.
      by exists s2, t2.
Qed.

Lemma list_remove_first_sublist {A} `{EqDecision A} (x : A) (l l' : list A) :
  list_remove_first x l = Some l' → l' `sublist_of` l.
Proof.
  revert l'. induction l as [|y l IH]; intros l'; [done|]. simpl.
  destruct (decide (x = y)) as [->|Hne].
  - intros [= ->]. by apply sublist_cons.
  - destruct (list_remove_first x l) as [k|]; [|done].
    intros [= <-]. apply sublist_skip. by apply IH.
Qed.

Lemma remove_errored_sublist self err s :
  channels (heap (state_of (remove_errored self err s)) self)
    `sublist_of` channels (heap s self).
Proof.
  revert s. induction err as [|[c reason] err IH]; intros s; [done|].
  simpl. destruct (removable reason).
  - py_unfold. simpl.
    destruct (list_remove_first c (channels (heap s self))) as [l|] eqn:Hl;
      simpl; [|done].
    set (s1 := {| world := world s; voice_client := voice_client s;
                  heap := <[self:=set_channels l (heap s self)]> (heap s) |}).
    specialize (IH s1). unfold state_of in *.
    destruct (remove_errored self err s1) as [[r s2] t2]. simpl in *.
    etrans; [exact IH|]. subst s1. simpl. rewrite fn_lookup_insert. simpl.
    by apply list_remove_first_sublist in Hl.
  - py_unfold. simpl. specialize (IH s). unfold state_of in *.
    by destruct (remove_errored self err s) as [[r s2] t2].
Qed.

(** ** send *)

Lemma get_data_run self s :
  ∃ s', get_data self s
          = (Ok (audio_of (resolved_value (data (heap s self)) (world s))),
             s', []) ∧
        heap s' = heap s.
Proof.
  unfold get_data, resolve_data, resolved_value. py_unfold. simpl.
  destruct (data (heap s self)) as [d|f]; simpl; [by eexists|].
  destruct (call_data_function f (world s)) as [d w]. simpl. by eexists.
Qed.

Lemma with_update_mutex_run {A} self (body : Py W A) s :
  with_update_mutex self body s =
    (result_of (body (locked self s)),
     {| world := world (state_of (body (locked self s)));
        voice_client := voice_client (state_of (body (locked self s)));
        heap := <[self := set_update_mutex false
                            (heap (state_of (body (locked self s))) self)]>
                  (heap (state_of (body (locked self s)))) |},
     trace_of (body (locked self s)) ++ []).
Proof.
  unfold with_update_mutex, try_finally, result_of, state_of, trace_of, locked.
  py_unfold. simpl.
  by destruct (body _) as [[r s2] t2].
Qed.

Lemma locked_self self s :
  heap (locked self s) self = set_update_mutex true (heap s self).
Proof. unfold locked. simpl. by rewrite fn_lookup_insert. Qed.

Lemma locked_other self s r :
  r ≠ self → heap (locked self s) r = heap s r.
Proof. intros Hr. unfold locked. simpl. by rewrite fn_lookup_insert_ne. Qed.

Lemma unlock_locked_id self s :
  update_mutex (heap s self) = false →
  set_update_mutex false (heap (locked self s) self) = heap s self.
Proof.
  intros Hmx. rewrite locked_self. destruct (heap s self). simpl in *.
  by subst.
Qed.

Lemma unlock_locked self s l :
  update_mutex (heap s self) = false →
  set_update_mutex false (set_channels l (heap (locked self s) self))
    = set_channels l (heap s self).
Proof.
  intros Hmx. rewrite locked_self. destruct (heap s self). simpl in *.
  by subst.
Qed.

(** The block of [send] under the mutex, however it ends. *)
Lemma send_locked_run self s res s' tr :
  send_locked self s = (res, s', tr) →
  only_channels_of self s s' ∧
  Forall (λ e, is_send_event e = true) tr ∧
  channels (heap s' self) `sublist_of` channels (heap s self) ∧
  match audio_of (resolved_value (data (heap s self)) (world s)) with
  | None => res = Ok None ∧ tr = [] ∧ heap s' = heap s
  | Some audio =>
      let att := attempts_of self audio (channels (heap s self))
                             (state_of (get_data self s)) in
      match res with
      | Ok r =>
          r = Some (generate_log_context audio (succeeded_of att)
                                         (failed_of att)) ∧
          att.*1 = channels (heap s self) ∧
          Forall (λ x, reported_reason x.2) (failed_of att) ∧
          channels (heap s' self) ≡ₚ
            succeeded_of att ++
            (filter (λ x, removable x.2 = false) (failed_of att)).*1
      | Raise e => raised_by_teardown e
      end
  end.
Proof.
  unfold send_locked.
  destruct (get_data_run self s) as (s2 & Hgd & Hh2).
  rewrite (bind_ok _ _ _ _ _ _ Hgd).
  replace (state_of (get_data self s)) with s2 by (by rewrite Hgd).
  destruct (audio_of _) as [audio|].
  2: { unfold ret. simpl. intros [= <- <- <-].
       split; [by apply only_channels_of_heap|]. split; [done|].
       split; [by rewrite Hh2|done]. }
  unfold bind at 1. unfold read at 1. rewrite Hh2.
  destruct (send_to_channels self audio (channels (heap s self)) [] [] s2)
    as [[rl s3] t3] eqn:Hloop.
  pose proof (send_to_channels_run _ _ _ _ _ _ _ _ _ Hloop)
    as (Hh3 & Ht3 & Hres).
  destruct rl as [[succ err]|e].
  2: { rewrite (bind_raise _ _ _ _ _ _ Hloop). simpl. intros [= <- <- <-].
       split; [apply only_channels_of_heap; congruence|]. split; [done|].
       split; [by rewrite Hh3, Hh2|done]. }
  rewrite (bind_ok _ _ _ _ _ _ Hloop).
  destruct Hres as (Hatt & Hsucc & Herr & Hrep). simpl in Hsucc, Herr.
  subst succ err.
  set (att := attempts_of self audio (channels (heap s self)) s2) in *.
  destruct (remove_errored_run self (failed_of att) s3
              (succeeded_of att ++
               (filter (λ x, removable x.2 = false) (failed_of att)).*1))
    as (s4 & t4 & Hrem & Hch4 & Hfr & Ht4).
  { rewrite Hh3, Hh2, <- Hatt. rewrite attempts_split at 1.
    rewrite (failed_split removable (failed_of att)) at 1.
    rewrite !app_assoc. apply Permutation_app_tail, Permutation_app_comm. }
  pose proof (remove_errored_sublist self (failed_of att) s3) as Hsub.
  unfold state_of in Hsub. rewrite Hrem in Hsub. simpl in Hsub.
  rewrite (bind_ok _ _ _ _ _ _ Hrem). simpl. intros [= <- <- <-].
  split.
  { apply (only_channels_of_trans _ _ s3); [|done].
    apply only_channels_of_heap. congruence. }
  split; [rewrite app_nil_r; by apply Forall_app|].
  split; [by rewrite Hh3, Hh2 in Hsub|done].
Qed.

Lemma send_unlocked_eq self s :
  update_mutex (heap s self) = false →
  send self s = with_update_mutex self (send_locked self) s.
Proof.
  intros Hmx. unfold send, bind, read. rewrite Hmx.
  by destruct (with_update_mutex _ _ _) as [[? ?] ?].
Qed.

(** What an unlocked [send] does, by what the data provider resolves to
    and by how the loop ends. *)
Lemma send_unlocked_run self s res s' tr :
  update_mutex (heap s self) = false →
  send self s = (res, s', tr) →
  match audio_of (resolved_value (data (heap s self)) (world s)) with
  | None => res = Ok None ∧ tr = [] ∧ ∀ r, heap s' r = heap s r
  | Some audio =>
      match res with
      | Ok r =>
          r = Some (generate_log_context audio
                      (succeeded_of (attempts self s audio))
                      (failed_of (attempts self s audio))) ∧
          (attempts self s audio).*1 = channels (heap s self) ∧
          Forall (λ x, reported_reason x.2) (failed_of (attempts self s audio)) ∧
          channels (heap s' self) ≡ₚ
            succeeded_of (attempts self s audio) ++
            (filter (λ x, removable x.2 = false)
                    (failed_of (attempts self s audio))).*1
      | Raise e => raised_by_teardown e
      end
  end.
Proof.
  intros Hmx. rewrite (send_unlocked_eq _ _ Hmx), with_update_mutex_run.
  destruct (send_locked self (locked self s)) as [[rl s2] t2] eqn:Hrun.
  pose proof (send_locked_run _ _ _ _ _ Hrun) as (_ & _ & _ & Hres).
  rewrite locked_self in Hres. simpl in Hres.
  change (world (locked self s)) with (world s) in Hres.
  unfold result_of, state_of, trace_of. simpl. intros [= <- <- <-].
  destruct (audio_of _) as [audio|].
  - fold (attempts self s audio) in Hres.
    destruct rl as [r|e]; [|done].
    destruct Hres as (-> & Hatt & Hrep & Hp). simpl.
    rewrite fn_lookup_insert. by repeat split.
  - destruct Hres as (-> & -> & Hh). split; [done|]. split; [done|].
    intros r. simpl. destruct (decide (r = self)) as [->|Hne].
    + rewrite fn_lookup_insert, Hh. by apply unlock_locked_id.
    + rewrite fn_lookup_insert_ne by done. rewrite Hh. by apply locked_other.
Qed.

(** ** The claims on VoiceMESSAGE.send *)

Lemma send_mutex_held self s :
  update_mutex (heap s self) = true → send self s = (Ok None, s, []).
Proof.
  intros Hmx. unfold send, bind, read, ret. by rewrite Hmx.
Qed.

(** C1: a [send] on a message whose update mutex is held returns [None]
    at once: no call is made to any channel (the trace is empty) and the
    whole state, the message included, is the one before the call. *)
Theorem C1_send_while_updating self s :
  update_mutex (heap s self) = true →
  send self s = (Ok None, s, []).
Proof.
  intros Hheld. unfold send.
  unfold bind, read. rewrite Hheld.
  reflexivity.
Qed.

(** [send] touches its own message only, there the channel list only, and
    leaves nothing but its own events in the trace. *)
Lemma send_frame self s :
  only_channels_of self s (state_of (send self s)) ∧
  Forall (λ e, is_send_event e = true) (trace_of (send self s)).
Proof.
  destruct (update_mutex (heap s self)) eqn:Hmx.
  { rewrite send_mutex_held by done. split; [apply only_channels_of_refl|done]. }
  rewrite (send_unlocked_eq _ _ Hmx), with_update_mutex_run.
  destruct (send_locked self (locked self s)) as [[rl s2] t2] eqn:Hrun.
  apply send_locked_run in Hrun as ([Ho [l Hl]] & Htr & _).
  unfold state_of, trace_of. simpl.
  split; [|by rewrite app_nil_r]. split.
  - intros r Hr. simpl. rewrite fn_lookup_insert_ne by done.
    rewrite Ho by done. by apply locked_other.
  - exists l. simpl. rewrite fn_lookup_insert, Hl. by apply unlock_locked.
Qed.

Lemma empty_value_no_audio d : is_empty_value d = true → audio_of d = None.
Proof. by destruct d as [|[a|[]]|[|e es]]. Qed.

Lemma send_no_audio self s :
  audio_of (resolved_value (data (heap s self)) (world s)) = None →
  ∃ s', send self s = (Ok None, s', []) ∧ ∀ r, heap s' r = heap s r.
Proof.
  intros Hnone. destruct (update_mutex (heap s self)) eqn:Hmx.
  - exists s. by rewrite send_mutex_held.
  - destruct (send self s) as [[res s'] tr] eqn:Hrun.
    pose proof (send_unlocked_run self s _ _ _ Hmx Hrun) as Hres.
    rewrite Hnone in Hres. destruct Hres as (-> & -> & Hh). by exists s'.
Qed.

Lemma reset_timer_run r s :
  ∃ t w,
    reset_timer r s =
      (Ok tt, {| world := w; voice_client := voice_client s;
                 heap := <[r := set_timer t (heap s r)]> (heap s) |},
       [EvResetTimer r (next_fire_time t)]).
Proof.
  unfold reset_timer. py_unfold. simpl.
  destruct (start_period (timer (heap s r))) as [p|]; simpl.
  - destruct (randrange p _ (world s)) as [period w]. simpl.
    by eexists {| next_fire_time := _ |}, _.
  - by eexists {| next_fire_time := _ |}, _.
Qed.

Lemma message_send_voice r s :
  kind (heap s r) = VoiceMESSAGE →
  message_send r s =
    (result_of (send r s), state_of (send r s),
     EvSend r (next_fire_time (timer (heap s r))) :: trace_of (send r s)).
Proof.
  intros Hk. unfold message_send. py_unfold. simpl. rewrite Hk.
  by destruct (send r s) as [[? ?] ?].
Qed.

Lemma reported_removable reason :
  reported_reason reason →
  removable reason = true ↔ not_found reason ∨ permission_denied reason.
Proof.
  unfold not_found, permission_denied.
  intros [->|[[code ->]|[->| ->]]]; simpl; split; try done; eauto.
  - intros [?|[? ?]]; done.
  - intros [?|[? ?]]; done.
Qed.

(** The runs of [send] that return a log context. *)
Lemma send_delivers self s ctx :
  result_of (send self s) = Ok (Some ctx) →
  ∃ audio att,
    ctx = generate_log_context audio (succeeded_of att) (failed_of att) ∧
    att.*1 = channels (heap s self) ∧
    Forall (λ x, reported_reason x.2) (failed_of att) ∧
    channels (heap (state_of (send self s)) self) ≡ₚ
      succeeded_of att ++
      (filter (λ x, removable x.2 = false) (failed_of att)).*1.
Proof.
  destruct (update_mutex (heap s self)) eqn:Hmx.
  { by rewrite send_mutex_held. }
  destruct (send self s) as [[res s'] tr] eqn:Hrun.
  pose proof (send_unlocked_run self s _ _ _ Hmx Hrun) as Hres.
  unfold result_of, state_of. simpl. intros ->.
  destruct (audio_of _) as [audio|].
  - destruct Hres as ([= ->] & Hatt & Hrep & Hp).
    by exists audio, (attempts self s audio).
  - by destruct Hres as ([=] & _).
Qed.

(** C3: after a [send] that delivered, a channel whose attempt failed with
    not-found (the channel is gone) or with permission-denied is no longer
    among the targets of the message, the targets being pairwise distinct
    as the constructor leaves them; a channel whose attempt
    failed with anything else is still among them. *)
Theorem C3_failed_channels_removed self s audio_name succeeded failed :
  result_of (send self s) = Ok (Some (VoiceLog audio_name succeeded failed)) →
  (∀ c reason,
     NoDup (channels (heap s self)) →
     (c, reason) ∈ failed →
     not_found reason ∨ permission_denied reason →
     c ∉ channels (heap (state_of (send self s)) self)) ∧
  (∀ c reason,
     (c, reason) ∈ failed →
     ¬ (not_found reason ∨ permission_denied reason) →
     c ∈ channels (heap (state_of (send self s)) self)).
Proof.
  intros Hres.
  destruct (send_delivers _ _ _ Hres) as (audio & att & Hctx & Hatt & Hrep & Hp).
  injection Hctx as _ -> ->.
  rewrite list.Forall_forall in Hrep.
  split.
  - intros c reason Hnd Hin Hcls. rewrite Hp.
    rewrite <- Hatt, attempts_split in Hnd.
    apply list.NoDup_app in Hnd as (Hnd1 & Hdisj & Hnd2).
    pose proof (proj2 (reported_removable reason (Hrep _ Hin)) Hcls) as Hrem.
    intros [Hs|Hf]%elem_of_app.
    + apply (Hdisj c Hs). apply list_elem_of_fmap. by exists (c, reason).
    + apply list_elem_of_fmap in Hf as ([c' reason'] & -> & Hf).
      apply list_elem_of_filter in Hf as [Hnrem Hin'].
      simpl in *.
      rewrite (NoDup_fst_functional _ _ _ _ Hnd2 Hin Hin') in Hrem.
      congruence.
  - intros c reason Hin Hcls. rewrite Hp. apply elem_of_app. right.
    apply list_elem_of_fmap. exists (c, reason). split; [done|].
    apply list_elem_of_filter. split; [|done]. simpl.
    destruct (removable reason) eqn:Hrem; [|done].
    exfalso. apply Hcls. by apply (reported_removable reason (Hrep _ Hin)).
Qed.


(** ** Traces *)

Lemma rts_app tr1 tr2 :
  reset_then_send tr1 → reset_then_send tr2 → reset_then_send (tr1 ++ tr2).
Proof.
  induction 1; intros H2; simpl; [done| |].
  - constructor. by apply IHreset_then_send.
  - constructor; [done|]. by apply IHreset_then_send.
Qed.

Lemma rts_no_calls tr :
  Forall (λ e, is_message_call e = false) tr → reset_then_send tr.
Proof. induction 1; by constructor. Qed.

Lemma send_event_no_call e : is_send_event e = true → is_message_call e = false.
Proof. by destruct e. Qed.

Lemma send_event_no_warning e :
  is_send_event e = true → is_removal_warning e = false.
Proof. by destruct e as [| | | |[] []| | |]. Qed.

(** ** A container calls send *)

Lemma message_send_run r s :
  ∃ tr,
    trace_of (message_send r s)
      = EvSend r (next_fire_time (timer (heap s r))) :: tr ∧
    Forall (λ e, is_send_event e = true) tr ∧
    (∀ r', r' ≠ r → heap (state_of (message_send r s)) r' = heap s r').
Proof.
  unfold message_send. py_unfold. unfold trace_of, state_of. simpl.
  destruct (kind (heap s r)).
  - unfold absent_send.
    destruct (TextMESSAGE_send _ _) as [[res m] w]. simpl.
    exists []. split; [done|]. split; [done|].
    intros r' Hr. by rewrite fn_lookup_insert_ne.
  - destruct (send_frame r s) as [[Ho _] Htr].
    unfold trace_of, state_of in *.
    destruct (send r s) as [[res s'] tr]. simpl in *. by exists tr.
  - unfold absent_send.
    destruct (DirectMESSAGE_send _ _) as [[res m] w]. simpl.
    exists []. split; [done|]. split; [done|].
    intros r' Hr. by rewrite fn_lookup_insert_ne.
Qed.

Lemma log_if_enabled_run g ret s :
  ∃ tr, log_if_enabled g ret s = (Ok tt, s, tr) ∧
        Forall (λ e, is_message_call e = false ∧ is_removal_warning e = false) tr.
Proof.
  unfold log_if_enabled, generate_log. py_unfold.
  destruct ret as [ctx|]; [destruct (_generate_log g)|];
    eexists; (split; [reflexivity|]); by repeat constructor.
Qed.

(** One turn of the loop of [GUILD.advertise]. *)
Lemma GUILD_advertise_message_run g r s res s' tr :
  GUILD_advertise_message g r s = (res, s', tr) →
  (∀ r', r' ≠ r → heap s' r' = heap s r') ∧
  reset_then_send tr ∧
  Forall (λ e, is_removal_warning e = false) tr ∧
  (∀ b, res = Ok b →
        (b = true → channels (heap s' r) = []) ∧
        (b = false → channels (heap s r) ≠ [] → channels (heap s' r) ≠ [])) ∧
  (is_ready (heap s r) (time_now (world s)) = true →
   ∃ fire rest,
     tr = EvResetTimer r fire :: EvSend r fire :: rest ∧
     Forall (λ e, is_message_call e = false) rest).
Proof.
  unfold GUILD_advertise_message.
  unfold bind at 1. unfold read at 1. unfold bind at 1. unfold api_read at 1.
  destruct (is_ready _ _).
  2: { unfold ret. simpl. intros [= <- <- <-].
       split; [done|]. split; [constructor|]. split; [constructor|].
       split; [intros b' [= <-]; by split|done]. }
  destruct (reset_timer_run r s) as (t & w & Hreset).
  rewrite (bind_ok _ _ _ _ _ _ Hreset).
  set (s1 := {| world := w; voice_client := voice_client s;
                heap := <[r := set_timer t (heap s r)]> (heap s) |}).
  assert (heap s1 r = set_timer t (heap s r)) as Hs1
    by (subst s1; simpl; by rewrite fn_lookup_insert).
  assert (∀ r', r' ≠ r → heap s1 r' = heap s r') as Ho1
    by (intros r' Hr; subst s1; simpl; by rewrite fn_lookup_insert_ne).
  destruct (message_send_run r s1) as (tr1 & Htr & Hev & Ho2).
  rewrite Hs1 in Htr. simpl in Htr.
  unfold trace_of, state_of in Htr, Ho2.
  destruct (message_send r s1) as [[[mret|e] s2] t2] eqn:Hms; simpl in Htr, Ho2;
    subst t2.
  - rewrite (bind_ok _ _ _ _ _ _ Hms).
    unfold bind at 1. unfold read at 1.
    destruct (log_if_enabled_run g mret s2) as (tl & Hlog & Htl).
    rewrite (bind_ok _ _ _ _ _ _ Hlog).
    unfold ret. simpl. intros [= <- <- <-].
    assert (Forall (λ e, is_message_call e = false) (tr1 ++ tl ++ [])) as Hnc.
    { rewrite app_nil_r. apply Forall_app. split.
      - eapply list.Forall_impl; [exact Hev|]. apply send_event_no_call.
      - eapply list.Forall_impl; [exact Htl|]. by intros e [? ?]. }
    split; [intros r' Hr; rewrite Ho2 by done; by apply Ho1|].
    split; [constructor; by apply rts_no_calls|].
    split.
    { constructor; [done|]. constructor; [done|].
      rewrite app_nil_r. apply Forall_app. split.
      - eapply list.Forall_impl; [exact Hev|]. apply send_event_no_warning.
      - eapply list.Forall_impl; [exact Htl|]. by intros e [? ?]. }
    split; [|by eauto].
    intros b [= <-]. split.
    + intros Hb%bool_decide_eq_true. by apply length_zero_iff_nil.
    + intros Hb%bool_decide_eq_false _ Hnil. apply Hb. by rewrite Hnil.
  - rewrite (bind_raise _ _ _ _ _ _ Hms). intros [= <- <- <-].
    split; [intros r' Hr; rewrite Ho2 by done; by apply Ho1|].
    split.
    { constructor. apply rts_no_calls.
      eapply list.Forall_impl; [exact Hev|]. apply send_event_no_call. }
    split.
    { constructor; [done|]. constructor; [done|].
      eapply list.Forall_impl; [exact Hev|]. apply send_event_no_warning. }
    split; [done|].
    intros _. eexists _, _. split; [reflexivity|].
    eapply list.Forall_impl; [exact Hev|]. apply send_event_no_call.
Qed.

(** ** The loops of GUILD.advertise *)

Lemma GUILD_advertise_loop_run g msgs marked0 s res s' tr :
  GUILD_advertise_loop g msgs marked0 s = (res, s', tr) →
  (∀ r, r ∉ msgs → heap s' r = heap s r) ∧
  reset_then_send tr ∧
  Forall (λ e, is_removal_warning e = false) tr ∧
  (NoDup msgs →
   (∀ r, r ∈ msgs → channels (heap s r) ≠ []) →
   ∀ marked, res = Ok marked →
     marked = marked0 ++ filter (λ r, channels (heap s' r) = []) msgs).
Proof.
  revert marked0 s res s' tr.
  induction msgs as [|r rest IH]; intros marked0 s res s' tr.
  { simpl. unfold ret. intros [= <- <- <-].
    split; [done|]. split; [constructor|]. split; [constructor|].
    intros _ _ marked [= <-]. by rewrite app_nil_r. }
  simpl.
  destruct (GUILD_advertise_message g r s) as [[[b|e] s1] t1] eqn:Hm;
    pose proof (GUILD_advertise_message_run _ _ _ _ _ _ Hm)
      as (Ho & Hrts & Hnw & Hb & _).
  - rewrite (bind_ok _ _ _ _ _ _ Hm).
    destruct (GUILD_advertise_loop g rest _ s1) as [[res2 s2] t2] eqn:Hl.
    intros [= <- <- <-].
    destruct (IH _ _ _ _ _ Hl) as (Ho2 & Hrts2 & Hnw2 & Hmk).
    split.
    { intros r' Hr'. rewrite Ho2, Ho; [done| |];
        intros ?; apply Hr'; subst; apply elem_of_cons; auto. }
    split; [by apply rts_app|]. split; [by apply Forall_app|].
    intros Hnd Hne marked ->.
    pose proof (NoDup_cons_1_1 _ _ Hnd) as Hnin.
    pose proof (NoDup_cons_1_2 _ _ Hnd) as Hnd'.
    assert (heap s2 r = heap s1 r) as Hr by (by apply Ho2).
    assert (∀ r', r' ∈ rest → channels (heap s1 r') ≠ []) as Hne1.
    { intros r' Hr'. rewrite Ho.
      - apply Hne, elem_of_cons. by right.
      - intros ->. done. }
    rewrite (Hmk Hnd' Hne1 marked eq_refl).
    destruct (Hb b eq_refl) as [Hbt Hbf].
    rewrite filter_cons. destruct b.
    + rewrite decide_True by (rewrite Hr; by apply Hbt).
      by rewrite <- app_assoc.
    + rewrite decide_False; [done|]. rewrite Hr. apply Hbf; [done|].
      apply Hne, elem_of_cons. by left.
  - rewrite (bind_raise _ _ _ _ _ _ Hm). intros [= <- <- <-].
    split.
    { intros r' Hr'. apply Ho. intros ->. apply Hr', elem_of_cons. by left. }
    split; [done|]. split; [done|]. by intros _ _ marked [=].
Qed.

Lemma GUILD_cleanup_run g marked_del msg_list s :
  GUILD_cleanup g marked_del msg_list s =
    (Ok (foldl (λ acc r, remove_if_present r acc) msg_list marked_del), s,
     (λ r, EvTrace WARNING (TrRemovingMessage (kind (heap s r)) (snowflake g)))
       <$> marked_del).
Proof.
  revert msg_list. induction marked_del as [|r rest IH]; intros msg_list.
  - done.
  - simpl. py_unfold. simpl. specialize (IH (remove_if_present r msg_list)).
    unfold bind in IH. by rewrite IH.
Qed.

Lemma filter_ne_not_in {A} `{EqDecision A} (r : A) (l : list A) :
  r ∉ l → filter (λ x, x ≠ r) l = l.
Proof.
  induction l as [|y l IH]; [done|]. intros Hnin.
  rewrite filter_cons, decide_True.
  - f_equal. apply IH. intros ?. apply Hnin, elem_of_cons. by right.
  - intros ->. apply Hnin, elem_of_cons. by left.
Qed.

Lemma list_remove_first_NoDup {A} `{EqDecision A} (r : A) (l : list A) :
  NoDup l → r ∈ l → list_remove_first r l = Some (filter (λ x, x ≠ r) l).
Proof.
  induction l as [|y l IH]; [by intros _ ?%elem_of_nil|].
  intros Hnd Hin.
  pose proof (NoDup_cons_1_1 _ _ Hnd) as Hnin.
  pose proof (NoDup_cons_1_2 _ _ Hnd) as Hnd'.
  simpl. rewrite filter_cons. destruct (decide (r = y)) as [->|Hne].
  - rewrite decide_False by (by intros ?). by rewrite filter_ne_not_in.
  - rewrite decide_True by (by intros ->).
    apply elem_of_cons in Hin as [?|Hin]; [done|]. by rewrite IH.
Qed.

Lemma remove_if_present_filter (r : msg_ref) (l : list msg_ref) :
  NoDup l → remove_if_present r l = filter (λ x, x ≠ r) l.
Proof.
  intros Hnd. unfold remove_if_present. case_bool_decide as Hin.
  - by rewrite list_remove_first_NoDup.
  - by rewrite filter_ne_not_in.
Qed.

Lemma cleanup_fold_filter (marked l : list msg_ref) :
  NoDup l →
  foldl (λ acc r, remove_if_present r acc) l marked
    = filter (λ x, x ∉ marked) l.
Proof.
  revert l. induction marked as [|r rest IH]; intros l Hnd; simpl.
  - symmetry. induction l as [|y l IHl]; [done|].
    rewrite filter_cons, decide_True by apply not_elem_of_nil.
    f_equal. apply IHl. by apply NoDup_cons_1_2 in Hnd.
  - rewrite remove_if_present_filter by done.
    rewrite IH by (by apply list.NoDup_filter).
    rewrite list_filter_filter. apply list_filter_iff.
    intros x. rewrite not_elem_of_cons. tauto.
Qed.

Lemma filter_ext_in {A} (P Q : A → Prop) `{!∀ x, Decision (P x)}
    `{!∀ x, Decision (Q x)} (l : list A) :
  (∀ x, x ∈ l → P x ↔ Q x) → filter P l = filter Q l.
Proof.
  induction l as [|y l IH]; [done|]. intros Hext.
  rewrite !filter_cons.
  rewrite IH by (intros x Hx; apply Hext, elem_of_cons; by right).
  assert (P y ↔ Q y) as Hy by (apply Hext, elem_of_cons; by left).
  destruct (decide (P y)), (decide (Q y)); tauto.
Qed.

Lemma GUILD_advertise_run g mode s res s' tr :
  GUILD_advertise g mode s = (res, s', tr) →
  ∃ resL trL,
    GUILD_advertise_loop g (msg_list_of g mode) [] s = (resL, s', trL) ∧
    match resL with
    | Ok marked =>
        tr = trL ++ (removal_warning g s' <$> marked) ∧
        ∃ g', res = Ok g' ∧
              msg_list_of g' mode
                = foldl (λ acc r, remove_if_present r acc)
                        (msg_list_of g mode) marked
    | Raise e => tr = trL ∧ res = Raise e
    end.
Proof.
  unfold GUILD_advertise.
  destruct (GUILD_advertise_loop g _ [] s) as [[[marked|e] s1] t1] eqn:Hl.
  - rewrite (bind_ok _ _ _ _ _ _ Hl).
    rewrite (bind_ok _ _ _ _ _ _ (GUILD_cleanup_run _ _ _ _)).
    unfold ret. simpl. intros [= <- <- <-].
    eexists _, _. split; [reflexivity|]. simpl.
    split; [by rewrite app_nil_r|].
    eexists. split; [reflexivity|].
    unfold msg_list_of. by destruct (String.eqb mode "text").
  - rewrite (bind_raise _ _ _ _ _ _ Hl). intros [= <- <- <-].
    by eexists _, _.
Qed.

Lemma removal_warnings_only g s l :
  Forall (λ e, is_message_call e = false) (removal_warning g s <$> l) ∧
  filter (λ e, is_removal_warning e = true) (removal_warning g s <$> l)
    = removal_warning g s <$> l.
Proof.
  induction l as [|r l [IH1 IH2]]; [done|]. rewrite fmap_cons. split.
  - by constructor.
  - rewrite filter_cons, decide_True by done. by rewrite IH2.
Qed.

Lemma filter_none {A} (P : A → Prop) `{!∀ x, Decision (P x)} (l : list A) :
  Forall (λ x, ¬ P x) l → filter P l = [].
Proof.
  induction 1 as [|x l Hx _ IH]; [done|].
  by rewrite filter_cons, decide_False.
Qed.

(** ** The turns of GUILD.advertise *)

Lemma was_sent_app r tr1 tr2 :
  was_sent r (tr1 ++ tr2) = was_sent r tr1 || was_sent r tr2.
Proof. apply existsb_app. Qed.

Lemma was_sent_no_calls r tr :
  Forall (λ e, is_message_call e = false) tr → was_sent r tr = false.
Proof.
  induction 1 as [|e tr He _ IH]; [done|]. simpl. rewrite IH.
  by destruct e.
Qed.

Lemma was_sent_elem r tr :
  was_sent r tr = true ↔ ∃ fire, EvSend r fire ∈ tr.
Proof.
  unfold was_sent. rewrite existsb_exists. split.
  - intros (e & Hin & He). destruct e; try done.
    apply bool_decide_eq_true in He as ->.
    eexists. by apply list_elem_of_In.
  - intros (fire & Hin). exists (EvSend r fire).
    split; [by apply list_elem_of_In|]. by apply bool_decide_eq_true.
Qed.

Lemma bind_assoc {A B C} (c : Py W A) (f : A → Py W B) (k : B → Py W C) s :
  bind (bind c f) k s = bind c (λ x, bind (f x) k) s.
Proof.
  unfold bind. destruct (c s) as [[[a|e] s1] t1]; [|done].
  destruct (f a s1) as [[[b|e] s2] t2]; [|done].
  destruct (k b s2) as [[r s3] t3]. by rewrite app_assoc.
Qed.

Lemma GUILD_advertise_loop_app g before todo marked s :
  GUILD_advertise_loop g (before ++ todo) marked s
    = bind (GUILD_advertise_loop g before marked)
           (λ marked_del, GUILD_advertise_loop g todo marked_del) s.
Proof.
  revert marked s. induction before as [|r before IH]; intros marked s; simpl.
  - unfold bind, ret.
    by destruct (GUILD_advertise_loop g todo marked s) as [[? ?] ?].
  - rewrite bind_assoc. unfold bind at 1 2.
    destruct (GUILD_advertise_message g r s) as [[[b|e] s1] t1]; [|done].
    by rewrite IH.
Qed.

(** The call [advertise(mode)], cut at the turn of a message of its list. *)
Lemma GUILD_advertise_split g mode s r todo marked s_r tr :
  arrives_at g mode s r todo marked s_r tr →
  GUILD_advertise g mode s =
    match GUILD_advertise_message g r s_r with
    | (Ok b, s1, t1) =>
        let '(res, s2, t2) :=
          GUILD_advertise_from g mode todo
                               (if b : bool then marked ++ [r] else marked) s1 in
        (res, s2, tr ++ t1 ++ t2)
    | (Raise e, s1, t1) => (Raise e, s1, tr ++ t1)
    end.
Proof.
  intros (before & Hlist & Hrun).
  unfold GUILD_advertise, GUILD_advertise_from. rewrite Hlist at 1.
  unfold bind at 1. rewrite GUILD_advertise_loop_app.
  rewrite (bind_ok _ _ _ _ _ _ Hrun). simpl.
  unfold bind at 1 3.
  destruct (GUILD_advertise_message g r s_r) as [[[b|e] s1] t1]; [|done].
  destruct (GUILD_advertise_loop g todo _ s1) as [[[marked_del|e] s2] t2];
    [|by rewrite app_assoc].
  destruct (bind (GUILD_cleanup g marked_del (msg_list_of g mode)) _ s2)
    as [[res s3] t3].
  by rewrite !app_assoc.
Qed.

Lemma GUILD_turn_idle g r s :
  is_ready (heap s r) (time_now (world s)) = false →
  GUILD_advertise_message g r s = (Ok false, s, []).
Proof.
  intros Hidle. unfold GUILD_advertise_message. py_unfold. simpl.
  by rewrite Hidle.
Qed.

(** The state in which [send] is called: the timer of the message is the
    one that [reset_timer] has set, the rest of the message is untouched. *)
Lemma reset_timer_state r s :
  reset_timer r s
    = (Ok tt, state_of (reset_timer r s),
       [EvResetTimer r (next_fire_time
                          (timer (heap (state_of (reset_timer r s)) r)))]) ∧
  voice_client (state_of (reset_timer r s)) = voice_client s ∧
  (∀ r', r' ≠ r → heap (state_of (reset_timer r s)) r' = heap s r') ∧
  heap (state_of (reset_timer r s)) r
    = set_timer (timer (heap (state_of (reset_timer r s)) r)) (heap s r).
Proof.
  destruct (reset_timer_run r s) as (t & w & ->). unfold state_of. simpl.
  rewrite fn_lookup_insert. simpl. split; [done|]. split; [done|].
  split; [|done]. intros r' Hr. by rewrite fn_lookup_insert_ne.
Qed.

(** The turn of a message that is due: the reset, then the send with the
    fire time that the reset has set, then the rest. *)
Lemma GUILD_turn_ready g r s :
  is_ready (heap s r) (time_now (world s)) = true →
  ∃ rest,
    trace_of (GUILD_advertise_message g r s)
      = EvResetTimer r (next_fire_time
                          (timer (heap (state_of (reset_timer r s)) r)))
        :: EvSend r (next_fire_time
                       (timer (heap (state_of (reset_timer r s)) r)))
        :: rest ∧
    Forall (λ e, is_message_call e = false) rest.
Proof.
  intros Hready. unfold GUILD_advertise_message.
  unfold bind at 1. unfold read at 1. unfold bind at 1. unfold api_read at 1.
  rewrite Hready.
  destruct (reset_timer_state r s) as (Hreset & _).
  rewrite (bind_ok _ _ _ _ _ _ Hreset).
  set (s1 := state_of (reset_timer r s)) in *.
  destruct (message_send_run r s1) as (tr1 & Htr & Hev & _).
  unfold trace_of in Htr.
  assert (Forall (λ e, is_message_call e = false) tr1) as Hnc1.
  { eapply list.Forall_impl; [exact Hev|]. apply send_event_no_call. }
  destruct (message_send r s1) as [[[mret|e] s2] t2] eqn:Hms; simpl in Htr;
    subst t2.
  - rewrite (bind_ok _ _ _ _ _ _ Hms).
    unfold bind at 1. unfold read at 1.
    destruct (log_if_enabled_run g mret s2) as (tl & Hlog & Htl).
    rewrite (bind_ok _ _ _ _ _ _ Hlog). unfold ret, trace_of. simpl.
    eexists. split; [reflexivity|]. rewrite app_nil_r.
    apply Forall_app. split; [done|].
    eapply list.Forall_impl; [exact Htl|]. by intros e [? ?].
  - rewrite (bind_raise _ _ _ _ _ _ Hms). unfold trace_of. simpl.
    by eexists.
Qed.

(** The turn of a voice message that is due, in full. *)
Lemma GUILD_turn_voice g r s :
  kind (heap s r) = VoiceMESSAGE →
  is_ready (heap s r) (time_now (world s)) = true →
  GUILD_advertise_message g r s =
    match send r (state_of (reset_timer r s)) with
    | (Ok message_ret, s2, t2) =>
        (Ok (bool_decide (length (channels (heap s2 r)) = 0%nat)), s2,
         [EvResetTimer r (next_fire_time
                            (timer (heap (state_of (reset_timer r s)) r)))] ++
         (EvSend r (next_fire_time
                      (timer (heap (state_of (reset_timer r s)) r))) :: t2) ++
         trace_of (log_if_enabled g message_ret s2) ++ [])
    | (Raise e, s2, t2) =>
        (Raise e, s2,
         [EvResetTimer r (next_fire_time
                            (timer (heap (state_of (reset_timer r s)) r)))] ++
         EvSend r (next_fire_time
                     (timer (heap (state_of (reset_timer r s)) r))) :: t2)
    end.
Proof.
  intros Hk Hready. unfold GUILD_advertise_message.
  unfold bind at 1. unfold read at 1. unfold bind at 1. unfold api_read at 1.
  rewrite Hready.
  destruct (reset_timer_state r s) as (Hreset & _ & _ & Hs1).
  rewrite (bind_ok _ _ _ _ _ _ Hreset).
  set (s1 := state_of (reset_timer r s)) in *.
  assert (kind (heap s1 r) = VoiceMESSAGE) as Hk1 by (by rewrite Hs1).
  pose proof (message_send_voice r s1 Hk1) as Hms.
  unfold result_of, state_of, trace_of in Hms.
  destruct (send r s1) as [[[mret|e] s2] t2]; simpl in Hms.
  - rewrite (bind_ok _ _ _ _ _ _ Hms).
    unfold bind at 1. unfold read at 1.
    destruct (log_if_enabled_run g mret s2) as (tl & Hlog & _).
    rewrite (bind_ok _ _ _ _ _ _ Hlog). unfold ret, trace_of.
    by rewrite Hlog.
  - by rewrite (bind_raise _ _ _ _ _ _ Hms).
Qed.

(** What a turn marks and whom it sends. *)
Lemma GUILD_turn_marks g r s b s' tr :
  GUILD_advertise_message g r s = (Ok b, s', tr) →
  b = was_sent r tr && bool_decide (channels (heap s' r) = []) ∧
  (∀ r', r' ≠ r → was_sent r' tr = false) ∧
  (∀ r', was_sent r' tr = false → heap s' r' = heap s r').
Proof.
  intros Hrun.
  pose proof (GUILD_advertise_message_run _ _ _ _ _ _ Hrun)
    as (Ho & _ & _ & _ & Hfirst).
  destruct (is_ready (heap s r) (time_now (world s))) eqn:Hready.
  - destruct (Hfirst eq_refl) as (fire & rest & -> & Hnc).
    assert (∀ r', was_sent r' (EvResetTimer r fire :: EvSend r fire :: rest)
                  = bool_decide (r = r')) as Hsent.
    { intros r'. simpl. rewrite (was_sent_no_calls _ _ Hnc).
      by rewrite orb_false_r. }
    rewrite !Hsent. split; [|split].
    + rewrite bool_decide_eq_true_2 by done. simpl.
      revert Hrun. unfold GUILD_advertise_message.
      unfold bind at 1. unfold read at 1. unfold bind at 1.
      unfold api_read at 1. rewrite Hready.
      destruct (reset_timer_state r s) as (Hreset & _).
      rewrite (bind_ok _ _ _ _ _ _ Hreset).
      destruct (message_send r (state_of (reset_timer r s)))
        as [[[mret|e] s2] t2] eqn:Hms.
      2: { by rewrite (bind_raise _ _ _ _ _ _ Hms). }
      rewrite (bind_ok _ _ _ _ _ _ Hms).
      unfold bind at 1. unfold read at 1.
      destruct (log_if_enabled_run g mret s2) as (tl & Hlog & _).
      rewrite (bind_ok _ _ _ _ _ _ Hlog). unfold ret. simpl.
      intros [= <- <- _]. by destruct (channels (heap s2 r)).
    + intros r' Hne. rewrite Hsent. by apply bool_decide_eq_false_2.
    + intros r' Hns. rewrite Hsent in Hns.
      apply bool_decide_eq_false in Hns. apply Ho. by intros ->.
  - rewrite (GUILD_turn_idle _ _ _ Hready) in Hrun.
    by injection Hrun as <- <- <-.
Qed.

(** What the loop marks, for a list without duplicates: the messages that
    it has sent and that have no channel left. *)
Lemma GUILD_loop_marks g msgs marked0 s marked s' tr :
  GUILD_advertise_loop g msgs marked0 s = (Ok marked, s', tr) →
  (∀ r, was_sent r tr = true → r ∈ msgs) ∧
  (∀ r, was_sent r tr = false → heap s' r = heap s r) ∧
  (NoDup msgs →
   marked = marked0 ++
            filter (λ r, was_sent r tr = true ∧ channels (heap s' r) = []) msgs).
Proof.
  revert marked0 s marked s' tr.
  induction msgs as [|r rest IH]; intros marked0 s marked s' tr.
  { simpl. unfold ret. intros [= <- <- <-]. split; [done|]. split; [done|].
    intros _. by rewrite app_nil_r. }
  simpl.
  destruct (GUILD_advertise_message g r s) as [[[b|e] s1] t1] eqn:Hm.
  2: { by rewrite (bind_raise _ _ _ _ _ _ Hm). }
  rewrite (bind_ok _ _ _ _ _ _ Hm).
  destruct (GUILD_advertise_loop g rest _ s1) as [[res2 s2] t2] eqn:Hl.
  intros [= -> <- <-].
  destruct (GUILD_turn_marks _ _ _ _ _ _ Hm) as (Hb & Hothers & Hframe1).
  destruct (IH _ _ _ _ _ Hl) as (Hin2 & Hframe2 & Hmk).
  split; [|split].
  - intros r'. rewrite was_sent_app. intros [H1|H2]%orb_true_iff.
    + destruct (decide (r' = r)) as [->|Hne]; [apply list_elem_of_here|].
      by rewrite Hothers in H1.
    + by apply list_elem_of_further, Hin2.
  - intros r'. rewrite was_sent_app. intros [H1 H2]%orb_false_iff.
    rewrite Hframe2 by done. by apply Hframe1.
  - intros Hnd.
    pose proof (NoDup_cons_1_1 _ _ Hnd) as Hnin.
    pose proof (NoDup_cons_1_2 _ _ Hnd) as Hnd'.
    assert (was_sent r t2 = false) as Hr2.
    { destruct (was_sent r t2) eqn:Hs; [|done]. by apply Hin2 in Hs. }
    rewrite (Hmk Hnd').
    assert (filter (λ r0, was_sent r0 (t1 ++ t2) = true ∧
                          channels (heap s2 r0) = []) rest
            = filter (λ r0, was_sent r0 t2 = true ∧
                            channels (heap s2 r0) = []) rest) as Hrest.
    { apply filter_ext_in. intros r' Hr'.
      rewrite was_sent_app, Hothers; [done|]. by intros ->. }
    rewrite filter_cons, Hrest, was_sent_app, Hr2, orb_false_r.
    rewrite (Hframe2 r Hr2).
    destruct b.
    + symmetry in Hb. apply andb_true_iff in Hb as [Hs He].
      apply bool_decide_eq_true in He.
      rewrite decide_True by done. by rewrite <- app_assoc.
    + rewrite decide_False; [done|]. intros [Hs He].
      by rewrite Hs, bool_decide_eq_true_2 in Hb.
Qed.

(** ** The claims on GUILD.advertise *)

(** C2: when the data provider of a message resolves to [None] or to an
    empty value at the call, [send] returns [None], makes no call at all
    (its trace is empty) and leaves every message as it is.  In the call
    [advertise(mode)] in which the container arrives at such a voice
    message when it is due, this turn adds to the trace the reset of the
    timer and the call of [send], and nothing else, neither a delivery nor
    a log, before the call goes on with the messages that follow. *)
Theorem C2_empty_data_not_sent self s :
  is_empty_value (resolved_value (data (heap s self)) (world s)) = true →
  (∃ s', send self s = (Ok None, s', []) ∧ ∀ r, heap s' r = heap s r) ∧
  ∀ g mode s0 todo marked s_r tr,
    arrives_at g mode s0 self todo marked s_r tr →
    kind (heap s_r self) = VoiceMESSAGE →
    is_ready (heap s_r self) (time_now (world s_r)) = true →
    state_of (reset_timer self s_r) = s →
    ∃ s',
      (∀ r, heap s' r = heap s r) ∧
      GUILD_advertise g mode s0 =
        (let '(res, s2, t2) :=
           GUILD_advertise_from g mode todo
             (if bool_decide (length (channels (heap s self)) = 0%nat)
              then marked ++ [self] else marked) s' in
         (res, s2,
          tr ++ [EvResetTimer self (next_fire_time (timer (heap s self)));
                 EvSend self (next_fire_time (timer (heap s self)))] ++ t2)).
Proof.
  intros Hempty.
  destruct (send_no_audio self s (empty_value_no_audio _ Hempty))
    as (s' & Hsend & Hsame).
  split; [by exists s'|].
  intros g mode s0 todo marked s_r tr Harr Hk Hready Hs.
  exists s'. split; [done|].
  rewrite (GUILD_advertise_split _ _ _ _ _ _ _ _ Harr).
  rewrite (GUILD_turn_voice g self s_r Hk Hready), Hs, Hsend.
  unfold log_if_enabled, ret, trace_of. simpl. rewrite Hsame.
  by destruct (GUILD_advertise_from g mode todo _ s') as [[res s2] t2].
Qed.

(** C5: in the trace of an [advertise] call every [send] on a message
    comes right after the [reset_timer] on that message and sees the fire
    time this reset has set.  For every message of the list at which the
    call arrives: when its timer is ready, the trace goes on with the
    reset of its timer and then the call of its [send], which finds the
    fire time already set, before anything the delivery does; when it is
    not, the call goes on with the next message and makes no call on this
    one. *)
Theorem C5_timer_reset_before_send g mode s :
  reset_then_send (trace_of (GUILD_advertise g mode s)) ∧
  ∀ r todo marked s_r tr,
    arrives_at g mode s r todo marked s_r tr →
    if is_ready (heap s_r r) (time_now (world s_r)) then
      ∃ rest,
        trace_of (GUILD_advertise g mode s)
          = tr ++ EvResetTimer r (next_fire_time
                                    (timer (heap (state_of (reset_timer r s_r)) r)))
               :: EvSend r (next_fire_time
                              (timer (heap (state_of (reset_timer r s_r)) r)))
               :: rest
    else
      GUILD_advertise g mode s =
        (let '(res, s2, t2) := GUILD_advertise_from g mode todo marked s_r in
         (res, s2, tr ++ t2)).
Proof.
  split.
  - destruct (GUILD_advertise g mode s) as [[res s'] tr] eqn:Hrun.
    apply GUILD_advertise_run in Hrun as (resL & trL & Hl & Hres).
    apply GUILD_advertise_loop_run in Hl as (_ & Hrts & _).
    unfold trace_of. simpl. destruct resL as [marked|e].
    + destruct Hres as [-> _]. apply rts_app; [done|].
      apply rts_no_calls, removal_warnings_only.
    + by destruct Hres as [-> _].
  - intros r todo marked s_r tr Harr.
    rewrite (GUILD_advertise_split _ _ _ _ _ _ _ _ Harr).
    destruct (is_ready (heap s_r r) (time_now (world s_r))) eqn:Hready.
    + destruct (GUILD_turn_ready g r s_r Hready) as (rest & Htr & _).
      unfold trace_of in *.
      destruct (GUILD_advertise_message g r s_r) as [[[b|e] s1] t1];
        simpl in Htr; subst t1.
      * destruct (GUILD_advertise_from g mode todo _ s1) as [[res s2] t2].
        simpl. by eexists.
      * simpl. by eexists.
    + rewrite (GUILD_turn_idle _ _ _ Hready).
      by destruct (GUILD_advertise_from g mode todo marked s_r) as [[res s2] t2].
Qed.

(** C6, as the code has it: when an [advertise] call returns on a
    container that lists each of its messages once, the list is the old
    one without the messages that were sent in this call and have no
    channel left, and the trace has one removal warning for each of those,
    in their order; so that, if every message had a channel when the call
    began, every message still listed has one. *)
Theorem C6_inert_messages_removed g mode s g' :
  result_of (GUILD_advertise g mode s) = Ok g' →
  NoDup (msg_list_of g mode) →
  let s' := state_of (GUILD_advertise g mode s) in
  let tr := trace_of (GUILD_advertise g mode s) in
  msg_list_of g' mode
    = filter (λ r, ¬ (was_sent r tr = true ∧ channels (heap s' r) = []))
             (msg_list_of g mode) ∧
  filter (λ e, is_removal_warning e = true) tr
    = removal_warning g s'
        <$> filter (λ r, was_sent r tr = true ∧ channels (heap s' r) = [])
                   (msg_list_of g mode) ∧
  ((∀ r, r ∈ msg_list_of g mode → channels (heap s r) ≠ []) →
   ∀ r, r ∈ msg_list_of g' mode → channels (heap s' r) ≠ []).
Proof.
  destruct (GUILD_advertise g mode s) as [[res s1] tr] eqn:Hrun.
  unfold result_of, state_of, trace_of. simpl. intros -> Hnd.
  apply GUILD_advertise_run in Hrun as (resL & trL & Hl & Hres).
  destruct resL as [marked|e]; [|by destruct Hres].
  destruct Hres as (-> & g'' & [= <-] & Hlist).
  pose proof (GUILD_advertise_loop_run _ _ _ _ _ _ _ Hl) as (_ & _ & Hnw & _).
  apply GUILD_loop_marks in Hl as (_ & Hframe & Hmk).
  specialize (Hmk Hnd). simpl in Hmk.
  assert (∀ r, was_sent r (trL ++ (removal_warning g s1 <$> marked))
               = was_sent r trL) as Hsent.
  { intros r. rewrite was_sent_app.
    rewrite (was_sent_no_calls r (removal_warning g s1 <$> marked))
      by apply removal_warnings_only.
    apply orb_false_r. }
  assert (filter (λ r, was_sent r (trL ++ (removal_warning g s1 <$> marked)) = true
                       ∧ channels (heap s1 r) = []) (msg_list_of g mode)
          = marked) as Hinert.
  { etrans; [|symmetry; exact Hmk].
    apply filter_ext_in. intros r _. by rewrite Hsent. }
  assert (msg_list_of g' mode
          = filter (λ r, ¬ (was_sent r (trL ++ (removal_warning g s1 <$> marked))
                            = true ∧ channels (heap s1 r) = []))
                   (msg_list_of g mode)) as Heq.
  { rewrite Hlist, cleanup_fold_filter by done.
    apply filter_ext_in. intros r Hr. rewrite <- Hinert at 1.
    rewrite list_elem_of_filter. tauto. }
  split; [done|]. split.
  - rewrite Hinert.
    rewrite list.filter_app, (proj2 (removal_warnings_only _ _ _)).
    rewrite filter_none; [done|].
    eapply list.Forall_impl; [exact Hnw|]. intros e He. by rewrite He.
  - intros Hne r. rewrite Heq. intros [Hkeep Hr]%list_elem_of_filter Hnil.
    destruct (was_sent r trL) eqn:Hs.
    + apply Hkeep. by rewrite Hsent.
    + apply (Hne r Hr). by rewrite <- (Hframe r Hs).
Qed.

(** ** USER.advertise *)

(** One turn of the loop of [USER.advertise]. *)
Lemma USER_advertise_message_run u r s res s' tr :
  USER_advertise_message u r s = (res, s', tr) →
  (∀ r', r' ≠ r → heap s' r' = heap s r') ∧
  ((tr = [] ∧ s' = s ∧ res = Ok false) ∨
   (∃ fire rest,
      tr = EvResetTimer r fire :: EvSend r fire :: rest ∧
      Forall (λ e, is_message_call e = false) rest ∧
      ∀ b, res = Ok b → (b = true ↔ dm_channel (heap s' r) = None))).
Proof.
  unfold USER_advertise_message.
  unfold bind at 1. unfold read at 1. unfold bind at 1. unfold api_read at 1.
  destruct (is_ready _ _).
  2: { unfold ret. simpl. intros [= <- <- <-]. split; [done|]. by left. }
  destruct (reset_timer_run r s) as (t & w & Hreset).
  rewrite (bind_ok _ _ _ _ _ _ Hreset).
  set (s1 := {| world := w; voice_client := voice_client s;
                heap := <[r := set_timer t (heap s r)]> (heap s) |}).
  assert (heap s1 r = set_timer t (heap s r)) as Hs1
    by (subst s1; simpl; by rewrite fn_lookup_insert).
  assert (∀ r', r' ≠ r → heap s1 r' = heap s r') as Ho1
    by (intros r' Hr; subst s1; simpl; by rewrite fn_lookup_insert_ne).
  destruct (message_send_run r s1) as (tr1 & Htr & Hev & Ho2).
  rewrite Hs1 in Htr. simpl in Htr.
  unfold trace_of, state_of in Htr, Ho2.
  destruct (message_send r s1) as [[[mret|e] s2] t2] eqn:Hms; simpl in Htr, Ho2;
    subst t2.
  - rewrite (bind_ok _ _ _ _ _ _ Hms).
    destruct (log_if_enabled_run u mret s2) as (tl & Hlog & Htl).
    rewrite (bind_ok _ _ _ _ _ _ Hlog).
    py_unfold. simpl. intros [= <- <- <-].
    split; [intros r' Hr; rewrite Ho2 by done; by apply Ho1|].
    right. eexists _, _. split; [reflexivity|]. split.
    + apply Forall_app. split.
      * eapply list.Forall_impl; [exact Hev|]. apply send_event_no_call.
      * rewrite app_nil_r.
        eapply list.Forall_impl; [exact Htl|]. by intros e [? ?].
    + intros b [= <-]. apply bool_decide_eq_true.
  - rewrite (bind_raise _ _ _ _ _ _ Hms). intros [= <- <- <-].
    split; [intros r' Hr; rewrite Ho2 by done; by apply Ho1|].
    right. eexists _, _. split; [reflexivity|]. split; [|done].
    eapply list.Forall_impl; [exact Hev|]. apply send_event_no_call.
Qed.

Lemma USER_turn_unsent u r s res s' tr r' :
  USER_advertise_message u r s = (res, s', tr) →
  was_sent r' tr = false → heap s' r' = heap s r'.
Proof.
  intros Hrun Hns.
  apply USER_advertise_message_run in Hrun
    as (Ho & [(-> & -> & _)|(fire & rest & -> & _ & _)]); [done|].
  apply Ho. intros ->. simpl in Hns.
  by rewrite bool_decide_eq_true_2 in Hns.
Qed.

Lemma USER_advertise_loop_run u msgs s res s' tr :
  USER_advertise_loop u msgs s = (res, s', tr) →
  (∀ r, was_sent r tr = false → heap s' r = heap s r) ∧
  (res = Ok false →
   ∀ r, was_sent r tr = true → dm_channel (heap s' r) ≠ None) ∧
  (res = Ok true →
   ∃ r fire tr1 tr2,
     tr = tr1 ++ EvSend r fire :: tr2 ∧
     Forall (λ e, is_message_call e = false) tr2 ∧
     dm_channel (heap s' r) = None ∧
     ∀ r', was_sent r' tr1 = true → r' ≠ r → dm_channel (heap s' r') ≠ None).
Proof.
  revert s res s' tr. induction msgs as [|r0 rest IH]; intros s res s' tr.
  { simpl. unfold ret. intros [= <- <- <-]. by repeat split. }
  simpl.
  destruct (USER_advertise_message u r0 s) as [[[b|e] s1] t1] eqn:Hm.
  2: { rewrite (bind_raise _ _ _ _ _ _ Hm). intros [= <- <- <-].
       split; [|done]. intros r. by apply (USER_turn_unsent _ _ _ _ _ _ _ Hm). }
  rewrite (bind_ok _ _ _ _ _ _ Hm).
  pose proof (λ r', USER_turn_unsent _ _ _ _ _ _ r' Hm) as Hun.
  pose proof (USER_advertise_message_run _ _ _ _ _ _ Hm) as [Ho Hcase].
  destruct b.
  - (* the break *)
    py_unfold. simpl. intros [= <- <- <-].
    destruct Hcase as [(_ & _ & [=])|(fire & rest' & -> & Hnc & Hb)].
    split.
    { intros r. rewrite was_sent_app. intros [Hr _]%orb_false_iff.
      by apply Hun. }
    split; [done|]. intros _.
    exists r0, fire, [EvResetTimer r0 fire],
           (rest' ++ [EvTrace WARNING (TrRemovingAllMessages (snowflake u))]).
    split; [done|]. split; [apply Forall_app; split; [done|by repeat constructor]|].
    split; [by apply (Hb true)|]. by intros r' [=].
  - destruct (USER_advertise_loop u rest s1) as [[res2 s2] t2] eqn:Hl.
    intros [= <- <- <-].
    destruct (IH _ _ _ _ Hl) as (Hun2 & Hfalse & Htrue).
    assert (∀ r, was_sent r t1 = true → was_sent r t2 = false →
                 dm_channel (heap s2 r) ≠ None) as Hfirst.
    { intros r Hs1 Hs2. rewrite (Hun2 r Hs2).
      destruct Hcase as [(-> & _)|(fire & rest' & -> & Hnc & Hb)]; [done|].
      simpl in Hs1. rewrite (was_sent_no_calls _ _ Hnc), orb_false_r in Hs1.
      apply bool_decide_eq_true in Hs1 as <-.
      intros Hnone. by apply (Hb false eq_refl) in Hnone. }
    split.
    { intros r. rewrite was_sent_app. intros [Hr1 Hr2]%orb_false_iff.
      rewrite (Hun2 r Hr2). by apply Hun. }
    split.
    + intros -> r. rewrite was_sent_app.
      destruct (was_sent r t2) eqn:Hs2; [intros _; by apply Hfalse|].
      rewrite orb_false_r. intros Hs1. by apply Hfirst.
    + intros ->.
      destruct (Htrue eq_refl) as (r & fire & tr1 & tr2 & -> & Hnc & Hnone & Hprev).
      exists r, fire, (t1 ++ tr1), tr2.
      split; [by rewrite app_assoc|]. split; [done|]. split; [done|].
      intros r'. rewrite was_sent_app.
      destruct (was_sent r' tr1) eqn:Hs2; [intros _; by apply Hprev|].
      rewrite orb_false_r. intros Hs1 Hne. apply Hfirst; [done|].
      rewrite was_sent_app, Hs2. simpl.
      rewrite bool_decide_eq_false_2 by (intros ?; by apply Hne).
      simpl. by apply was_sent_no_calls.
Qed.

(** C7: in [advertise("text")] of a USER container, once a [send] has left
    its message without a direct-message channel, the container has no
    message left when the call returns, and that [send] is the last call
    made on any message in this cycle. *)
Theorem C7_dm_rejected_clears_all u s u' r fire :
  result_of (USER_advertise u "text" s) = Ok u' →
  EvSend r fire ∈ trace_of (USER_advertise u "text" s) →
  dm_channel (heap (state_of (USER_advertise u "text" s)) r) = None →
  t_messages u' = [] ∧
  ∃ fire' tr1 tr2,
    trace_of (USER_advertise u "text" s) = tr1 ++ EvSend r fire' :: tr2 ∧
    Forall (λ e, is_message_call e = false) tr2.
Proof.
  unfold USER_advertise. simpl.
  destruct (USER_advertise_loop u (t_messages u) s) as [[[b|e] s1] t1] eqn:Hl.
  2: { by rewrite (bind_raise _ _ _ _ _ _ Hl). }
  rewrite (bind_ok _ _ _ _ _ _ Hl).
  unfold ret, result_of, state_of, trace_of. simpl. rewrite app_nil_r.
  intros [= <-] Hsent Hnone.
  assert (was_sent r t1 = true) as Hws by (apply was_sent_elem; eauto).
  apply USER_advertise_loop_run in Hl as (_ & Hfalse & Htrue).
  destruct b.
  - split; [done|].
    destruct (Htrue eq_refl) as (r0 & fire0 & tr1 & tr2 & -> & Hnc & _ & Hprev).
    destruct (decide (r = r0)) as [->|Hne]; [by eauto|].
    exfalso. apply (Hprev r); [|done|done].
    rewrite was_sent_app in Hws. simpl in Hws.
    rewrite bool_decide_eq_false_2 in Hws by (intros ?; by apply Hne).
    simpl in Hws. by rewrite (was_sent_no_calls _ _ Hnc), orb_false_r in Hws.
  - exfalso. by apply (Hfalse eq_refl r).
Qed.

End Verification.

(** * Verification of the daf sources *)

(** ** VoiceMESSAGE.__init__ *)

Lemma clamp_clamped v : clamped v (Z.max 0 (Z.min 100 v)).
Proof. unfold clamped. lia. Qed.

(** C10: both constructors store a volume between 0 and 100, whatever
    integer they are given: 0 for a negative one, 100 for one above 100;
    no integer is refused for its value. *)
Theorem C10_volume_clamped (v : Z) :
  (∀ super_init d chs,
     clamped v (volume (VoiceMESSAGE_init super_init d chs v))) ∧
  (∀ voice_installed data_len super_init obj,
     Daf.VoiceMESSAGE_init voice_installed data_len super_init (Some v) = Ok obj →
     clamped v (Daf.volume obj)) ∧
  (∀ b, Daf.VoiceMESSAGE_init true None (Ok b) (Some v)
        = Ok {| Daf.base := b; Daf.volume := Z.max 0 (Z.min 100 v);
                Daf.voice_client := false |}).
Proof.
  split; [|split].
  - intros. apply clamp_clamped.
  - intros vi dl si obj. unfold Daf.VoiceMESSAGE_init.
    destruct (negb vi); [done|]. destruct (match dl with Some _ => _ | None => _ end); [done|].
    destruct si as [b|e]; [|done]. intros [= <-]. apply clamp_clamped.
  - done.
Qed.

(** ** _handle_error *)

Lemma handle_error_not_401 self mem now ex :
  Daf.timed_out mem now = true →
  has_status 401 ex = false →
  timeout_handled self mem now ex.
Proof.
  intros Hto H401. unfold timeout_handled, Daf._handle_error.
  rewrite H401, Hto. simpl. unfold Daf.timed_out in Hto.
  destruct (Daf.communication_disabled_until mem) as [until|]; [|done].
  split; [done|]. split.
  - exists until. simpl. unfold Daf.one_minute. split; [done|]. lia.
  - split; [done|]. by destruct ex.
Qed.

(** C8, as the code has it: a failure other than an HTTP error of status
    401 (an invalidated account, which is answered first and by
    [REMOVE_ACCOUNT]), met while the sending member is timed out, is
    answered by [SKIP_CHANNELS]; the next send is put one minute after the
    expiry of the timeout, the channel list is kept, and an HTTP failure is
    rewritten to 429/0, which no cleanup answers by a removal.  In the
    loop over the channels, the channel of such a failure is the last one
    tried in the cycle, and the cleanup keeps it among the targets. *)
Theorem C8_timeout_reschedules self mem now ex :
  Daf.timed_out mem now = true →
  has_status 401 ex = false →
  timeout_handled self mem now ex ∧
  (is_HTTPException ex = true →
   Daf.exception_after (Daf._handle_error self (Some mem) now ex) = HTTP 429 0) ∧
  (∀ c a rest,
     Daf.member a = Some mem → Daf.now a = now →
     Daf._send_channel_try a = Raise ex →
     let run := Daf._send_loop self ((c, a) :: rest) in
     run.1.1.*1 = [c] ∧
     (c ∈ Daf.channels (Daf.base self) →
      c ∈ Daf.channels (Daf.base (Daf._cleanup run.1.1 run.1.2)))).
Proof.
  intros Hto H401.
  pose proof (handle_error_not_401 self mem now ex Hto H401) as Hh.
  split; [done|]. split.
  - intros Hhttp. unfold Daf._handle_error. by rewrite H401, Hto, Hhttp.
  - intros c a rest Hm Hn Hraise. simpl. unfold Daf._send_channel.
    rewrite Hraise, Hm, Hn. simpl.
    assert (Daf.channels (Daf.base (Daf._move_to_connect self a))
            = Daf.channels (Daf.base self)) as Hsame.
    { unfold Daf._move_to_connect. by destruct (_ && _). }
    destruct (handle_error_not_401 (Daf._move_to_connect self a) mem now ex
                Hto H401) as (-> & _ & Hch & Hkeep). simpl.
    split; [done|]. intros Hin. rewrite Hch, Hsame.
    apply list_elem_of_filter. split; [|done].
    unfold Daf.dropped. simpl. by rewrite Hkeep, andb_false_r.
Qed.

(** C8, as the spec has it, fails: an HTTP 401 met while the member is
    timed out is answered by [REMOVE_ACCOUNT], and the timer is left as it
    was. *)
Lemma C8_counterexample :
  ¬ (∀ self mem now ex,
       Daf.timed_out mem now = true → timeout_handled self mem now ex).
Proof.
  intros H.
  destruct (H Scenario.daf_message Scenario.muted 100%Z (HTTP 401 0) eq_refl)
    as [Hact _].
  vm_compute in Hact. discriminate Hact.
Qed.

(** ** _update *)

Lemma restore_foreign slots (current_state obj : gmap string Daf.value) k :
  k ∉ slots →
  (Daf.restore slots current_state obj).2 !! k = obj !! k.
Proof.
  revert obj. induction slots as [|k0 slots IH]; intros obj Hk; [done|].
  simpl. apply not_elem_of_cons in Hk as [Hne Hk].
  destruct (current_state !! k0) as [v|]; [|done].
  rewrite IH by done. by rewrite lookup_insert_ne.
Qed.

Lemma restore_own slots (current_state obj : gmap string Daf.value) :
  (∀ k, k ∈ slots → is_Some (current_state !! k)) →
  (Daf.restore slots current_state obj).1 = None ∧
  ∀ k, k ∈ slots →
       (Daf.restore slots current_state obj).2 !! k = current_state !! k.
Proof.
  revert obj. induction slots as [|k0 slots IH]; intros obj Hset.
  { split; [done|]. by intros k ?%elem_of_nil. }
  simpl. destruct (Hset k0) as [v Hv]; [apply elem_of_cons; by left|].
  rewrite Hv.
  destruct (IH (<[k0:=v]> obj)) as [Hnone Hown].
  { intros k Hk. apply Hset, elem_of_cons. by right. }
  split; [done|]. intros k [->|Hk]%elem_of_cons; [|by apply Hown].
  destruct (decide (k0 ∈ slots)) as [Hin|Hnin]; [by apply Hown|].
  by rewrite restore_foreign, lookup_insert_eq.
Qed.

(** What a failed [_update] restores: the slots that the class of the
    object declares itself, and no other. *)
Lemma update_failure_restores cls (obj kwargs : gmap string Daf.value) e obj1
    slots :
  Daf._update_try cls obj kwargs = (Some e, obj1) →
  Daf.own_slots cls = Some slots →
  (∀ k, k ∈ slots → is_Some (obj !! k)) →
  (Daf._update cls obj kwargs).1 = Some e ∧
  (∀ k, k ∈ slots → (Daf._update cls obj kwargs).2 !! k = obj !! k) ∧
  (∀ k, k ∉ slots → (Daf._update cls obj kwargs).2 !! k = obj1 !! k).
Proof.
  intros Htry Hslots Hset. unfold Daf._update. rewrite Htry, Hslots.
  destruct (restore_own slots obj obj1 Hset) as [Hnone Hown].
  pose proof (restore_foreign slots obj obj1) as Hforeign.
  destruct (Daf.restore _ _ _) as [[e'|] obj2]; simpl in *; [done|].
  by repeat split.
Qed.

(** C9 fails on the code: the update of a voice message to channels that
    are not in the guild raises the error of [initialize] and restores the
    two slots that [VoiceMESSAGE] declares itself ([volume] is 50 again),
    but the inherited slots keep what the failed [__init__] wrote: the
    channels are the refused ones and the next send time is the new one. *)
Theorem C9_update_failure_keeps_inherited_slots :
  let obj := Scenario.voice_object in
  let after := Daf._update Scenario.voice_class obj Scenario.bad_channels in
  after.1 = Some ValueError ∧
  after.2 !! "volume" = obj !! "volume" ∧
  after.2 !! "voice_client" = obj !! "voice_client" ∧
  obj !! "channels" = Some (Daf.VList [1; 2]%Z) ∧
  after.2 !! "channels" = Some (Daf.VList [3]%Z) ∧
  obj !! "next_send_time" = Some (Daf.VInt 100) ∧
  after.2 !! "next_send_time" = Some (Daf.VInt 500).
Proof. vm_compute. by repeat split. Qed.

(** * The theorems at work in the small world *)

#[local] Existing Instance Scenario.api.

Lemma C1_witness :
  update_mutex (heap Scenario.updating 0) = true ∧
  send 0 Scenario.updating = (Ok None, Scenario.updating, []).
Proof.
  split; [reflexivity|].
  apply (C1_send_while_updating (API := Scenario.api)). reflexivity.
Defined.

Lemma C2_witness :
  let s_r := state_of (GUILD_advertise_loop Scenario.guild [0%nat] []
                                            Runs.waking) in
  let s := state_of (reset_timer 1 s_r) in
  is_empty_value (resolved_value (data (heap s 1)) (world s)) = true ∧
  is_empty_value (resolved_value (data (heap s 1))
                                 (Scenario.advance 100 (world s))) = false ∧
  arrives_at Scenario.guild "voice" Runs.waking 1 [] [] s_r
             [EvResetTimer 0 160; EvSend 0 160] ∧
  (∃ s', send 1 s = (Ok None, s', []) ∧ ∀ r, heap s' r = heap s r) ∧
  ∃ s',
    (∀ r, heap s' r = heap s r) ∧
    GUILD_advertise Scenario.guild "voice" Runs.waking =
      (let '(res, s2, t2) :=
         GUILD_advertise_from Scenario.guild "voice" [] [] s' in
       (res, s2,
        [EvResetTimer 0 160; EvSend 0 160] ++
        [EvResetTimer 1 160; EvSend 1 160] ++ t2)).
Proof.
  intros s_r s.
  assert (is_empty_value (resolved_value (data (heap s 1)) (world s)) = true)
    as Hempty by reflexivity.
  assert (arrives_at Scenario.guild "voice" Runs.waking 1 [] [] s_r
                     [EvResetTimer 0 160; EvSend 0 160]) as Harr.
  { exists [0%nat]. split; reflexivity. }
  split; [exact Hempty|]. split; [reflexivity|]. split; [exact Harr|].
  destruct (C2_empty_data_not_sent (API := Scenario.api) 1%nat s Hempty)
    as [Hsend Hturn].
  split; [exact Hsend|].
  exact (Hturn Scenario.guild "voice" Runs.waking [] [] s_r _ Harr
               eq_refl eq_refl eq_refl).
Defined.

Lemma C3_witness :
  result_of (send 0 Scenario.playing)
    = Ok (Some (VoiceLog "song.mp3" [1%Z]
                  [(2%Z, HTTP 403 50013); (3%Z, HTTP 404 10003);
                   (4%Z, HTTP 500 0)])) ∧
  (2%Z ∉ channels (heap (state_of (send 0 Scenario.playing)) 0)) ∧
  (3%Z ∉ channels (heap (state_of (send 0 Scenario.playing)) 0)) ∧
  (4%Z ∈ channels (heap (state_of (send 0 Scenario.playing)) 0)).
Proof.
  assert (result_of (send 0 Scenario.playing)
          = Ok (Some (VoiceLog "song.mp3" [1%Z]
                        [(2%Z, HTTP 403 50013); (3%Z, HTTP 404 10003);
                         (4%Z, HTTP 500 0)]))) as Hres by reflexivity.
  split; [exact Hres|].
  destruct (C3_failed_channels_removed (API := Scenario.api) _ _ _ _ _ Hres)
    as [Hgone Hkept].
  assert (NoDup (channels (heap Scenario.playing 0))) as Hnd.
  { apply NoDup_ListNoDup. repeat constructor; simpl; lia. }
  split; [|split].
  - apply (Hgone 2%Z (HTTP 403 50013) Hnd).
    + apply list_elem_of_In. simpl. tauto.
    + right. by exists 50013%Z.
  - apply (Hgone 3%Z (HTTP 404 10003) Hnd).
    + apply list_elem_of_In. simpl. tauto.
    + by left.
  - apply (Hkept 4%Z (HTTP 500 0)).
    + apply list_elem_of_In. simpl. tauto.
    + intros [Hnf|[code Hpd]]; discriminate.
Defined.


Lemma C5_witness :
  let s_r := state_of (GUILD_advertise_loop Scenario.guild [0%nat] []
                                            Scenario.guild_state) in
  let tr := trace_of (GUILD_advertise_loop Scenario.guild [0%nat] []
                                           Scenario.guild_state) in
  arrives_at Scenario.guild "voice" Scenario.guild_state 1 [] [] s_r tr ∧
  is_ready (heap s_r 1) (time_now (world s_r)) = true ∧
  reset_then_send
    (trace_of (GUILD_advertise Scenario.guild "voice" Scenario.guild_state)) ∧
  ∃ rest,
    trace_of (GUILD_advertise Scenario.guild "voice" Scenario.guild_state)
      = tr ++ EvResetTimer 1 171 :: EvSend 1 171 :: rest.
Proof.
  intros s_r tr.
  assert (arrives_at Scenario.guild "voice" Scenario.guild_state 1 [] [] s_r tr)
    as Harr.
  { exists [0%nat]. split; reflexivity. }
  split; [exact Harr|]. split; [reflexivity|].
  destruct (C5_timer_reset_before_send (API := Scenario.api)
              Scenario.guild "voice" Scenario.guild_state) as [Hall Hturn].
  split; [exact Hall|].
  exact (Hturn 1%nat [] [] s_r tr Harr).
Defined.

Lemma C6_witness :
  let run := GUILD_advertise Scenario.guild "voice" Scenario.guild_state in
  let g' := set_vc_messages [0%nat] Scenario.guild in
  let inert r := was_sent r (trace_of run) = true ∧
                 channels (heap (state_of run) r) = [] in
  result_of run = Ok g' ∧
  NoDup (msg_list_of Scenario.guild "voice") ∧
  (∀ r, r ∈ msg_list_of Scenario.guild "voice" →
        channels (heap Scenario.guild_state r) ≠ []) ∧
  msg_list_of g' "voice"
    = filter (λ r, ¬ inert r) (msg_list_of Scenario.guild "voice") ∧
  filter (λ e, is_removal_warning e = true) (trace_of run)
    = removal_warning Scenario.guild (state_of run)
        <$> filter inert (msg_list_of Scenario.guild "voice") ∧
  ∀ r, r ∈ msg_list_of g' "voice" → channels (heap (state_of run) r) ≠ [].
Proof.
  intros run g' inert.
  assert (result_of run = Ok g') as Hres by reflexivity.
  assert (NoDup (msg_list_of Scenario.guild "voice")) as Hnd.
  { apply NoDup_ListNoDup. repeat constructor; simpl; lia. }
  assert (∀ r, r ∈ msg_list_of Scenario.guild "voice" →
               channels (heap Scenario.guild_state r) ≠ []) as Hpre.
  { intros r Hr. apply list_elem_of_In in Hr. simpl in Hr.
    destruct Hr as [<-|[<-|[]]]; discriminate. }
  split; [exact Hres|]. split; [exact Hnd|]. split; [exact Hpre|].
  destruct (C6_inert_messages_removed (API := Scenario.api)
              Scenario.guild "voice" Scenario.guild_state g' Hres Hnd)
    as (Hlist & Hwarn & Hinv).
  split; [exact Hlist|]. split; [exact Hwarn|]. exact (Hinv Hpre).
Defined.

Lemma C7_witness :
  let run := USER_advertise Scenario.user "text" Scenario.user_state in
  result_of run = Ok (set_t_messages [] Scenario.user) ∧
  EvSend 0 160 ∈ trace_of run ∧
  dm_channel (heap (state_of run) 0) = None ∧
  t_messages (set_t_messages [] Scenario.user) = [] ∧
  ∃ fire' tr1 tr2,
    trace_of run = tr1 ++ EvSend 0 fire' :: tr2 ∧
    Forall (λ e, is_message_call e = false) tr2.
Proof.
  intros run.
  assert (result_of run = Ok (set_t_messages [] Scenario.user)) as Hres
    by reflexivity.
  assert (EvSend 0 160 ∈ trace_of run) as Hsent.
  { apply list_elem_of_In. vm_compute. tauto. }
  assert (dm_channel (heap (state_of run) 0) = None) as Hnone by reflexivity.
  split; [exact Hres|]. split; [exact Hsent|]. split; [exact Hnone|].
  exact (C7_dm_rejected_clears_all (API := Scenario.api)
           Scenario.user Scenario.user_state _ 0%nat 160%Z Hres Hsent Hnone).
Defined.

Lemma C8_witness :
  let run := Daf._send_loop Scenario.daf_message
               [(1%Z, Scenario.muted_attempt); (2%Z, Scenario.muted_attempt)] in
  Daf.timed_out Scenario.muted 100 = true ∧
  has_status 401 (HTTP 403 50013) = false ∧
  Daf._send_channel_try Scenario.muted_attempt = Raise (HTTP 403 50013) ∧
  timeout_handled Scenario.daf_message Scenario.muted 100 (HTTP 403 50013) ∧
  Daf.exception_after
    (Daf._handle_error Scenario.daf_message (Some Scenario.muted) 100
                       (HTTP 403 50013)) = HTTP 429 0 ∧
  run.1.1.*1 = [1%Z] ∧
  1%Z ∈ Daf.channels (Daf.base (Daf._cleanup run.1.1 run.1.2)).
Proof.
  intros run.
  split; [reflexivity|]. split; [reflexivity|]. split; [reflexivity|].
  destruct (C8_timeout_reschedules Scenario.daf_message Scenario.muted 100%Z
              (HTTP 403 50013) eq_refl eq_refl) as (Hh & Hex & Hloop).
  split; [exact Hh|]. split; [apply Hex; reflexivity|].
  destruct (Hloop 1%Z Scenario.muted_attempt [(2%Z, Scenario.muted_attempt)]
              eq_refl eq_refl eq_refl) as [Hlast Hkept].
  split; [exact Hlast|]. apply Hkept.
  apply list_elem_of_In. simpl. tauto.
Defined.

Lemma C10_witness :
  Daf.VoiceMESSAGE_init true (Some 1%nat)
    (Ok (Daf.base Scenario.daf_message)) (Some 150%Z)
    = Ok {| Daf.base := Daf.base Scenario.daf_message; Daf.volume := 100;
            Daf.voice_client := false |} ∧
  clamped 150 100 ∧
  clamped (-5) (volume (VoiceMESSAGE_init Scenario.every_minute
                          (Static PyNone) [1; 1; 2]%Z (-5))).
Proof.
  split; [reflexivity|]. split.
  - exact (proj1 (proj2 (C10_volume_clamped 150)) true (Some 1%nat)
             (Ok (Daf.base Scenario.daf_message)) _ eq_refl).
  - exact (proj1 (C10_volume_clamped (-5)) Scenario.every_minute
             (Static PyNone) [1; 1; 2]%Z).
Defined.


(** C6, as the spec has it, fails: a guild that lists a message twice
    keeps one entry of it although the message has lost all its channels
    in the call. *)
Lemma C6_counterexample :
  ¬ (∀ (g : BaseGUILD) mode (s : state Scenario.sim) g',
       (∀ r, r ∈ msg_list_of g mode → channels (heap s r) ≠ []) →
       result_of (GUILD_advertise g mode s) = Ok g' →
       ∀ r, r ∈ msg_list_of g' mode →
            channels (heap (state_of (GUILD_advertise g mode s)) r) ≠ []).
Proof.
  intros H.
  apply (H Runs.twice "voice" Runs.refused (set_vc_messages [0%nat] Runs.twice))
    with (r := 0%nat).
  - intros r _. discriminate.
  - reflexivity.
  - apply list_elem_of_here.
  - reflexivity.
Qed.

(** * Further properties of the sources *)

(** ** initialize_channels *)

Lemma initialize_channels_loop_run get_channel done todo not_found res l nf :
  Forall (λ ch, Channels.is_voice ch = true) done →
  Channels.initialize_channels_loop get_channel
    (Channels.Resolved <$> done) todo not_found = (res, l, nf) →
  match res with
  | Ok _ =>
      l = Channels.Resolved
            <$> (done ++ omap (Channels.resolve get_channel) todo) ∧
      done ++ omap (Channels.resolve get_channel) todo ≠ [] ∧
      Forall (λ ch, Channels.is_voice ch = true)
             (done ++ omap (Channels.resolve get_channel) todo) ∧
      nf = not_found ++ unknown_ids get_channel todo
  | Raise e =>
      (e = DAFNotFoundError ∧
       done ++ omap (Channels.resolve get_channel) todo = [] ∧ l = [] ∧
       nf = not_found ++ unknown_ids get_channel todo) ∨
      (e = DAFParameterError ∧
       Exists (λ ch, Channels.is_voice ch = false)
              (omap (Channels.resolve get_channel) todo))
  end.
Proof.
  revert done not_found.
  induction todo as [|e rest IH]; intros done not_found Hdone.
  { simpl. rewrite !app_nil_r, length_fmap.
    case_bool_decide as Hlen; intros [= <- <- <-].
    - left. apply length_zero_iff_nil in Hlen. by subst.
    - split; [done|]. split; [|done]. intros ->. by apply Hlen. }
  assert (∀ ch, Channels.is_voice ch = true →
            Channels.initialize_channels_loop get_channel
              ((Channels.Resolved <$> done) ++ [Channels.Resolved ch]) rest
              not_found = (res, l, nf) →
            match res with
            | Ok _ =>
                l = Channels.Resolved
                      <$> (done ++ ch :: omap (Channels.resolve get_channel) rest) ∧
                done ++ ch :: omap (Channels.resolve get_channel) rest ≠ [] ∧
                Forall (λ ch, Channels.is_voice ch = true)
                       (done ++ ch :: omap (Channels.resolve get_channel) rest) ∧
                nf = not_found ++ unknown_ids get_channel rest
            | Raise e =>
                (e = DAFNotFoundError ∧
                 done ++ ch :: omap (Channels.resolve get_channel) rest = [] ∧
                 l = [] ∧ nf = not_found ++ unknown_ids get_channel rest) ∨
                (e = DAFParameterError ∧
                 Exists (λ ch, Channels.is_voice ch = false)
                        (ch :: omap (Channels.resolve get_channel) rest))
            end) as Hstep.
  { intros ch Hv Hrun.
    change [Channels.Resolved ch] with (Channels.Resolved <$> [ch]) in Hrun.
    rewrite <- fmap_app in Hrun.
    apply IH in Hrun; [|apply Forall_app; by split; [|constructor]].
    rewrite <- !(app_assoc done [ch]) in Hrun. simpl in Hrun.
    destruct res as [[]|e']; [done|].
    destruct Hrun as [?|(? & ?)]; [by left|].
    right. split; [done|]. by apply Exists_cons_tl. }
  destruct e as [id|ch]; simpl.
  - unfold unknown_ids. simpl. fold (unknown_ids get_channel rest).
    destruct (get_channel id) as [ch|] eqn:Hget; simpl.
    + destruct (Channels.is_voice ch) eqn:Hv; simpl.
      * by apply Hstep.
      * intros [= <- <- <-]. right. split; [done|]. by apply Exists_cons_hd.
    + intros Hrun. apply IH in Hrun; [|done].
      by rewrite <- app_assoc in Hrun.
  - unfold unknown_ids. simpl. fold (unknown_ids get_channel rest).
    destruct (Channels.is_voice ch) eqn:Hv; simpl.
    + by apply Hstep.
    + intros [= <- <- <-]. right. split; [done|]. by apply Exists_cons_hd.
Qed.

(** X1: [initialize_channels] returns only with a list that is not empty
    and holds the voice channel objects that the entries stand for, in
    their order; the ids the client does not know are dropped, with one
    error trace each.  It raises [DAFNotFoundError] when no entry stands
    for a channel, leaving the list empty, and [DAFParameterError] when
    some entry stands for a channel that is no voice channel. *)
Theorem initialize_channels_outcome get_channel chs :
  let run := Channels.initialize_channels get_channel chs in
  let found := omap (Channels.resolve get_channel) chs in
  match run.1.1 with
  | Ok _ =>
      run.1.2 = Channels.Resolved <$> found ∧ found ≠ [] ∧
      Forall (λ ch, Channels.is_voice ch = true) found ∧
      run.2 = unknown_ids get_channel chs
  | Raise e =>
      (e = DAFNotFoundError ∧ found = [] ∧ run.1.2 = [] ∧
       run.2 = unknown_ids get_channel chs) ∨
      (e = DAFParameterError ∧
       Exists (λ ch, Channels.is_voice ch = false) found)
  end.
Proof.
  unfold Channels.initialize_channels. simpl.
  destruct (Channels.initialize_channels_loop get_channel [] chs [])
    as [[res l] nf] eqn:Hrun.
  by apply (initialize_channels_loop_run get_channel [] chs []) in Hrun.
Qed.

Lemma resolved_ids get_channel (ids : list Z) :
  (∀ id ch, get_channel id = Some ch → Channels.ch_id ch = id) →
  Channels.ch_id <$> omap (Channels.resolve get_channel) (Channels.ById <$> ids)
    = filter (λ id, is_Some (get_channel id)) ids.
Proof.
  intros Hlaw. induction ids as [|id ids IH]; [done|].
  rewrite fmap_cons, filter_cons. simpl.
  destruct (get_channel id) as [ch|] eqn:Hget; case_decide as Hsome; simpl.
  - by rewrite (Hlaw id ch Hget), <- IH.
  - exfalso. apply Hsome. eauto.
  - by destruct Hsome.
  - done.
Qed.

(** X2: a message built from channel ids and then initialized has
    pairwise distinct channels, each of them one of the ids given to the
    constructor, provided the client's cache answers an id with the
    channel of that id. *)
Theorem fresh_channels_distinct get_channel super_init d given v chs' nf :
  (∀ id ch, get_channel id = Some ch → Channels.ch_id ch = id) →
  Channels.initialize_channels get_channel
    (Channels.ById <$> channels (VoiceMESSAGE_init super_init d given v))
    = (Ok tt, chs', nf) →
  NoDup (Channels.entry_id <$> chs') ∧
  ∀ c, c ∈ Channels.entry_id <$> chs' → c ∈ given.
Proof.
  intros Hlaw Hrun. unfold Channels.initialize_channels in Hrun.
  apply (initialize_channels_loop_run get_channel [] _ []) in Hrun; [|done].
  destruct Hrun as (-> & _ & _ & _). simpl.
  rewrite <- list_fmap_compose.
  change (Channels.entry_id ∘ Channels.Resolved) with Channels.ch_id.
  rewrite resolved_ids by done.
  split.
  - apply list.NoDup_filter. simpl. apply NoDup_remove_dups.
  - intros c [_ Hc]%list_elem_of_filter. simpl in Hc.
    by apply (proj1 (elem_of_remove_dups given c)).
Qed.

(** ** get_data *)

Lemma pick_audio_from (es : list element) (acc : option AUDIO) :
  fold_left (λ acc e, match e with EAudio a => Some a | EObject _ => acc end)
            es acc
  = match list.last (audios es) with Some a => Some a | None => acc end.
Proof.
  revert acc. induction es as [|[a|b] es IH]; intros acc; simpl; [done| |].
  - rewrite IH. unfold audios. simpl. fold (audios es).
    rewrite last_cons. by destruct (list.last (audios es)).
  - by rewrite IH.
Qed.

(** X3: [get_data] of the framework sends the last AUDIO of the resolved
    data ([None] when there is none), calling nothing and changing no
    message. *)
Theorem get_data_last_audio {W} `{API : DiscordAPI W} self (s : state W) :
  result_of (get_data self s)
    = Ok match resolved_value (data (heap s self)) (world s) with
         | PyNone => None
         | PyObj e => list.last (audios [e])
         | PySeq es => list.last (audios es)
         end ∧
  trace_of (get_data self s) = [] ∧
  heap (state_of (get_data self s)) = heap s.
Proof.
  destruct (get_data_run self s) as (s' & -> & Hh).
  unfold result_of, trace_of, state_of. simpl. split; [|done].
  f_equal. unfold audio_of, pick_audio.
  destruct (resolved_value _ _) as [|e|es]; [done| |];
    rewrite pick_audio_from; by destruct (list.last _).
Qed.



Section MoreVerification.
Context {W : Type} `{API : DiscordAPI W}.

Implicit Types (s : state W) (self : msg_ref) (c : channel).

Ltac py_unfold :=
  unfold bind, ret, raise, emit, trace, read, write, get_voice_client,
    set_voice_client, api_read, api_try, api_call, api_do, api_get,
    set_world in *.

(** ** send *)

(** X5: a [send] changes nothing but the channel list of its own message,
    and this list only by dropping entries: what is left is in the order
    it had; the mutex is as it was found, and every other message is
    untouched. *)
Theorem send_only_drops_channels self s :
  let s' := state_of (send self s) in
  (∀ r, r ≠ self → heap s' r = heap s r) ∧
  heap s' self = set_channels (channels (heap s' self)) (heap s self) ∧
  channels (heap s' self) `sublist_of` channels (heap s self).
Proof.
  destruct (send_frame self s) as [[Hother [l Hl]] _].
  split; [done|]. split; [by rewrite Hl|].
  destruct (update_mutex (heap s self)) eqn:Hmx.
  { by rewrite send_mutex_held. }
  rewrite (send_unlocked_eq _ _ Hmx), with_update_mutex_run.
  destruct (send_locked self (locked self s)) as [[rl s2] t2] eqn:Hrun.
  apply send_locked_run in Hrun as (_ & _ & Hsub & _).
  unfold state_of. simpl. rewrite fn_lookup_insert. simpl.
  etrans; [exact Hsub|]. by rewrite locked_self.
Qed.

(** X6: after a [send] that delivered, every channel reported as
    successful is still a target, and the list has lost exactly one entry
    for each failure that asks for a removal. *)
Theorem send_keeps_successful self s audio_name succeeded failed :
  result_of (send self s) = Ok (Some (VoiceLog audio_name succeeded failed)) →
  (∀ c, c ∈ succeeded → c ∈ channels (heap (state_of (send self s)) self)) ∧
  (length (channels (heap (state_of (send self s)) self))
   + length (filter (λ x, removable x.2 = true) failed)
   = length (channels (heap s self)))%nat.
Proof.
  intros Hres.
  destruct (send_delivers _ _ _ Hres) as (audio & att & Hctx & Hatt & _ & Hp).
  injection Hctx as _ -> ->. split.
  - intros c Hc. rewrite Hp. apply elem_of_app. by left.
  - pose proof (Permutation_length Hp) as H1.
    pose proof (Permutation_length (attempts_split att)) as H2.
    pose proof (Permutation_length (failed_split removable (failed_of att))) as H3.
    rewrite <- Hatt. rewrite !length_app, !length_fmap in *. lia.
Qed.

(** ** send_channel *)

(** X7: [send_channel] connects, moves or plays only in a channel for
    which the client has reported all three permissions: connect, stream
    and speak. *)
Theorem send_channel_asks_permission_first self c audio s :
  Exists (λ e, is_delivery e = true) (trace_of (send_channel self c audio s)) →
  permissions_for c (world s) = Ok (true, true, true).
Proof.
  intros Hex.
  assert (∀ e, send_channel_try self c audio s = (Raise e, s, []) → False)
    as Hstop.
  { intros e Htry. revert Hex.
    unfold send_channel, try_finally, try_except. rewrite Htry.
    destruct (send_channel_except_run c e s) as (reason & -> & _).
    destruct (send_channel_finally s) as [[rf s2] t2] eqn:Hfin.
    apply send_channel_finally_run in Hfin as (_ & Hq & _).
    rewrite list.Forall_forall in Hq.
    destruct rf as [[]|e']; unfold trace_of; simpl; intros Hex;
      apply list.Exists_exists in Hex as (ev & Hin & Hev);
      destruct (Hq ev Hin); congruence. }
  destruct (permissions_for c (world s)) as [[[p1 p2] p3]|e] eqn:Hperm.
  - destruct (p1 && p2 && p3) eqn:Hall.
    { by destruct p1, p2, p3. }
    exfalso. apply (Hstop (HTTP 403 50013)).
    unfold send_channel_try. py_unfold. simpl. by rewrite Hperm, Hall.
  - exfalso. apply (Hstop e).
    unfold send_channel_try. py_unfold. simpl. by rewrite Hperm.
Qed.

(** X8: [send_channel] leaves no voice session behind: when it returns,
    [GLOBALS.voice_client] is [None] or is not connected, whether the
    attempt succeeded or failed; and what it raises, if it does not
    return, is an error of the disconnect that was to close the session. *)
Theorem send_channel_leaves_no_session self c audio s :
  let s' := state_of (send_channel self c audio s) in
  match result_of (send_channel self c audio s) with
  | Ok _ => voice_client s' && vc_is_connected (world s') = false
  | Raise e => raised_by_teardown e
  end.
Proof.
  destruct (send_channel self c audio s) as [[res s'] tr] eqn:Hrun.
  apply send_channel_run in Hrun as (_ & _ & Hres).
  unfold result_of, state_of. simpl. by destruct res as [ctx|e]; [destruct Hres|].
Qed.

(** ** Channels that refuse the client *)

Lemma send_to_channels_refused self audio chs succ0 err0 s :
  (∀ c, c ∈ chs → ∀ w, ∃ p1 p2 p3,
     permissions_for c w = Ok (p1, p2, p3) ∧ p1 && p2 && p3 = false) →
  voice_client s = false →
  send_to_channels self audio chs succ0 err0 s
    = (Ok (succ0, err0 ++ ((λ c, (c, HTTP 403 50013)) <$> chs)), s, []).
Proof.
  revert err0. induction chs as [|c chs IH]; intros err0 Href Hvc.
  - simpl. unfold ret. by rewrite app_nil_r.
  - destruct (Href c (list_elem_of_here _ _) (world s))
      as (p1 & p2 & p3 & Hperm & Hall).
    pose proof (send_channel_without_permission self c audio s _ _ _
                  Hperm Hall Hvc) as Hrun.
    simpl. rewrite (bind_ok _ _ _ _ _ _ Hrun).
    rewrite IH; [|intros c' Hc'; by apply Href, list_elem_of_further|done].
    by rewrite <- app_assoc.
Qed.

Lemma refused_all_removable (chs : list channel) :
  (filter (λ x, removable x.2 = true)
          ((λ c, (c, HTTP 403 50013)) <$> chs)).*1 = chs.
Proof.
  induction chs as [|c chs IH]; [done|].
  rewrite fmap_cons, filter_cons, decide_True by done.
  rewrite fmap_cons. simpl. by rewrite IH.
Qed.

Lemma send_locked_refused self s audio :
  audio_of (resolved_value (data (heap s self)) (world s)) = Some audio →
  (∀ c, c ∈ channels (heap s self) → ∀ w, ∃ p1 p2 p3,
     permissions_for c w = Ok (p1, p2, p3) ∧ p1 && p2 && p3 = false) →
  voice_client s = false →
  ∃ s' tr,
    send_locked self s
      = (Ok (Some (generate_log_context audio []
                     ((λ c, (c, HTTP 403 50013)) <$> channels (heap s self)))),
         s', tr) ∧
    channels (heap s' self) = [].
Proof.
  intros Haudio Href Hvc. unfold send_locked.
  destruct (get_data_run self s) as (s2 & Hgd & Hh2).
  assert (voice_client s2 = false) as Hvc2.
  { revert Hgd. unfold get_data, resolve_data. py_unfold. simpl.
    destruct (data (heap s self)) as [d|f]; simpl.
    - by intros [= <-].
    - destruct (call_data_function f (world s)) as [d w]. simpl.
      by intros [= <-]. }
  rewrite (bind_ok _ _ _ _ _ _ Hgd), Haudio.
  unfold bind at 1. unfold read at 1. rewrite Hh2.
  pose proof (send_to_channels_refused self audio (channels (heap s self))
                [] [] s2 Href Hvc2) as Hloop.
  simpl in Hloop. rewrite (bind_ok _ _ _ _ _ _ Hloop).
  destruct (remove_errored_run self
              ((λ c, (c, HTTP 403 50013)) <$> channels (heap s self)) s2 [])
    as (s4 & t4 & Hrem & Hch & _).
  { by rewrite refused_all_removable, app_nil_r, Hh2. }
  rewrite (bind_ok _ _ _ _ _ _ Hrem). unfold ret.
  eexists _, _. split; [reflexivity|]. by apply Permutation_nil_r.
Qed.

Lemma attempts_of_refused self audio chs s :
  (∀ c, c ∈ chs → ∀ w, ∃ p1 p2 p3,
     permissions_for c w = Ok (p1, p2, p3) ∧ p1 && p2 && p3 = false) →
  Forall (λ x, x.2 = Failure (HTTP 403 50013)) (attempts_of self audio chs s).
Proof.
  revert s. induction chs as [|c chs IH]; intros s Href; [by constructor|].
  simpl.
  destruct (send_channel self c audio s) as [[[ctx|e] s1] t1] eqn:Hrun;
    [|by constructor].
  constructor.
  - destruct (Href c (list_elem_of_here _ _) (world s))
      as (p1 & p2 & p3 & Hperm & Hall).
    assert (send_channel_try self c audio s = (Raise (HTTP 403 50013), s, []))
      as Htry.
    { unfold send_channel_try. py_unfold. simpl. by rewrite Hperm, Hall. }
    simpl. apply (send_channel_outcome _ _ _ _ _ _ _ _ Htry).
    unfold result_of. by rewrite Hrun.
  - apply IH. intros c' Hc'. by apply Href, list_elem_of_further.
Qed.

Lemma all_failed_the_same (att : list (channel * context)) (e : exn) :
  Forall (λ x, x.2 = Failure e) att →
  succeeded_of att = [] ∧ failed_of att = (λ c, (c, e)) <$> att.*1.
Proof.
  induction 1 as [|[c ctx] att Hx _ [IH1 IH2]]; [done|].
  simpl in Hx. subst ctx. split.
  - exact IH1.
  - change (failed_of ((c, Failure e) :: att)) with ((c, e) :: failed_of att).
    by rewrite IH2.
Qed.

Lemma refused_none_kept (chs : list channel) :
  filter (λ x, removable x.2 = false)
         ((λ c, (c, HTTP 403 50013)) <$> chs) = [].
Proof.
  induction chs as [|c chs IH]; [done|].
  rewrite fmap_cons, filter_cons, decide_False by done. exact IH.
Qed.

Lemma send_refused_at self s audio :
  update_mutex (heap s self) = false →
  audio_of (resolved_value (data (heap s self)) (world s)) = Some audio →
  (∀ c, c ∈ channels (heap s self) → ∀ w, ∃ p1 p2 p3,
     permissions_for c w = Ok (p1, p2, p3) ∧ p1 && p2 && p3 = false) →
  voice_client s = false ∨ teardown_completes →
  ∃ s' tr,
    send self s
      = (Ok (Some (VoiceLog (filename audio) []
                     ((λ c, (c, HTTP 403 50013)) <$> channels (heap s self)))),
         s', tr) ∧
    channels (heap s' self) = [].
Proof.
  intros Hmx Haudio Href [Hvc|Hdone].
  - rewrite (send_unlocked_eq _ _ Hmx), with_update_mutex_run.
    destruct (send_locked_refused self (locked self s) audio)
      as (s2 & t2 & Hrun & Hch).
    { by rewrite locked_self. }
    { by rewrite locked_self. }
    { done. }
    rewrite locked_self in Hrun. simpl in Hrun.
    unfold result_of, state_of. rewrite Hrun. simpl.
    eexists _, _. split; [reflexivity|].
    simpl. by rewrite fn_lookup_insert.
  - destruct (send self s) as [[res s'] tr] eqn:Hrun.
    pose proof (send_unlocked_run self s _ _ _ Hmx Hrun) as Hres.
    rewrite Haudio in Hres.
    destruct res as [r|e].
    2: { destruct Hres as [w Hw]. by rewrite Hdone in Hw. }
    destruct Hres as (-> & Hatt & _ & Hp).
    destruct (all_failed_the_same (attempts self s audio) (HTTP 403 50013))
      as [Hsucc Hfail].
    { by apply attempts_of_refused. }
    rewrite Hsucc, Hfail, Hatt in *.
    rewrite refused_none_kept in Hp. simpl in Hp.
    exists s', tr. split; [done|]. by apply Permutation_nil_r.
Qed.

(** X9: when every channel of a message refuses the client one of the
    permissions to connect, stream or speak, whatever else has happened,
    a [send] with audio data fails in each channel with the error
    403 / 50013 that the code builds itself, reports no success, and
    leaves the message without any channel.  This is so when no voice
    session is open at the call, and also with one that is open, if the
    disconnect that closes it does not fail. *)
Theorem send_refused_everywhere self s audio :
  update_mutex (heap s self) = false →
  audio_of (resolved_value (data (heap s self)) (world s)) = Some audio →
  (∀ c, c ∈ channels (heap s self) → ∀ w, ∃ p1 p2 p3,
     permissions_for c w = Ok (p1, p2, p3) ∧ p1 && p2 && p3 = false) →
  voice_client s = false ∨ teardown_completes →
  result_of (send self s)
    = Ok (Some (VoiceLog (filename audio) []
                  ((λ c, (c, HTTP 403 50013)) <$> channels (heap s self)))) ∧
  channels (heap (state_of (send self s)) self) = [].
Proof.
  intros Hmx Haudio Href Hvc.
  destruct (send_refused_at self s audio Hmx Haudio Href Hvc)
    as (s' & tr & Hrun & Hch).
  unfold result_of, state_of. by rewrite Hrun.
Qed.

(** The condition of X9 is needed: with a session left open and a
    disconnect that fails, the error of the disconnect leaves [send]
    although every channel refuses the client. *)
Lemma send_refused_teardown_fails :
  update_mutex (heap Runs.session_open 0) = false ∧
  (∀ c w, permissions_for (DiscordAPI := Runs.stuck_refused) c w
          = Ok (true, true, false)) ∧
  result_of (send (API := Runs.stuck_refused) 0 Runs.session_open)
    = Raise (OtherException "ConnectionClosed").
Proof. split; [reflexivity|]. split; [done|reflexivity]. Qed.

(** When the disconnect fails, [send_channel] raises and the session
    stays. *)
Lemma send_channel_teardown_fails :
  let run := send_channel (API := Runs.stuck) 0 1%Z Scenario.song
                          Scenario.playing in
  result_of run = Raise (OtherException "ConnectionClosed") ∧
  voice_client (state_of run) = true ∧
  vc_is_connected (DiscordAPI := Runs.stuck) (world (state_of run)) = true.
Proof. by repeat split. Qed.

(** ** GUILD.advertise *)

(** X10: a guild whose only voice message is due, carries audio data and
    has nothing but channels that refuse the client, drops the message in
    that very round of [advertise]: its list is empty afterwards.  This is
    so when no voice session is open at the call, and also with one that
    is open, if the disconnect that closes it does not fail. *)
Theorem GUILD_drops_refused_message g mode r s :
  msg_list_of g mode = [r] →
  kind (heap s r) = VoiceMESSAGE →
  is_ready (heap s r) (time_now (world s)) = true →
  update_mutex (heap s r) = false →
  (∀ w, audio_of (resolved_value (data (heap s r)) w) ≠ None) →
  (∀ c, c ∈ channels (heap s r) → ∀ w, ∃ p1 p2 p3,
     permissions_for c w = Ok (p1, p2, p3) ∧ p1 && p2 && p3 = false) →
  voice_client s = false ∨ teardown_completes →
  ∃ g', result_of (GUILD_advertise g mode s) = Ok g' ∧
        msg_list_of g' mode = [] ∧
        channels (heap (state_of (GUILD_advertise g mode s)) r) = [].
Proof.
  intros Hlist Hk Hready Hmx Haudio Href Hvc.
  pose proof (GUILD_turn_voice g r s Hk Hready) as Hturn.
  destruct (reset_timer_state r s) as (_ & Hvc1 & _ & Hs1).
  set (s1 := state_of (reset_timer r s)) in *.
  destruct (audio_of (resolved_value (data (heap s1 r)) (world s1)))
    as [audio|] eqn:Ha.
  2: { exfalso. rewrite Hs1 in Ha. by apply (Haudio (world s1)). }
  destruct (send_refused_at r s1 audio) as (s2 & t2 & Hrun & Hch);
    [by rewrite Hs1|done|by rewrite Hs1|
     destruct Hvc as [Hvc|Hdone]; [left; congruence|by right]|].
  rewrite Hrun, Hch in Hturn. simpl in Hturn.
  assert (∃ tr, GUILD_advertise_loop g [r] [] s = (Ok [r], s2, tr))
    as [tr Hloop].
  { simpl. rewrite (bind_ok _ _ _ _ _ _ Hturn). unfold ret. by eexists. }
  unfold GUILD_advertise, result_of, state_of. rewrite Hlist.
  rewrite (bind_ok _ _ _ _ _ _ Hloop).
  rewrite (bind_ok _ _ _ _ _ _ (GUILD_cleanup_run _ _ _ _)).
  unfold ret. simpl. eexists. split; [reflexivity|]. split; [|done].
  unfold remove_if_present. rewrite bool_decide_eq_true_2 by apply list_elem_of_here.
  simpl. rewrite decide_True by done. simpl.
  unfold msg_list_of. by destruct (String.eqb mode "text").
Qed.

Lemma remove_if_present_sublist (r : msg_ref) (l : list msg_ref) :
  remove_if_present r l `sublist_of` l.
Proof.
  unfold remove_if_present. case_bool_decide; [|done].
  destruct (list_remove_first r l) as [l'|] eqn:Hl; [|done].
  by apply list_remove_first_sublist in Hl.
Qed.

Lemma cleanup_fold_sublist (marked l : list msg_ref) :
  foldl (λ acc r, remove_if_present r acc) l marked `sublist_of` l.
Proof.
  revert l. induction marked as [|r rest IH]; intros l; [done|]. simpl.
  etrans; [apply IH|apply remove_if_present_sublist].
Qed.

(** X11: [GUILD.advertise] only ever removes messages from the list of the
    mode it was called for: what is left is in the order it had, the list
    of the other mode and the other slots of the guild are as before, and
    no message outside the list is touched. *)
Theorem GUILD_advertise_only_removes g mode s g' :
  result_of (GUILD_advertise g mode s) = Ok g' →
  msg_list_of g' mode `sublist_of` msg_list_of g mode ∧
  (if String.eqb mode "text" then vc_messages g' = vc_messages g
   else t_messages g' = t_messages g) ∧
  snowflake g' = snowflake g ∧ _generate_log g' = _generate_log g ∧
  ∀ r, r ∉ msg_list_of g mode →
       heap (state_of (GUILD_advertise g mode s)) r = heap s r.
Proof.
  unfold GUILD_advertise.
  destruct (GUILD_advertise_loop g (msg_list_of g mode) [] s)
    as [[[marked|e] s1] t1] eqn:Hl.
  2: { rewrite (bind_raise _ _ _ _ _ _ Hl). by unfold result_of. }
  rewrite (bind_ok _ _ _ _ _ _ Hl).
  rewrite (bind_ok _ _ _ _ _ _ (GUILD_cleanup_run _ _ _ _)).
  unfold ret, result_of, state_of. simpl. intros [= <-].
  apply GUILD_advertise_loop_run in Hl as (Ho & _).
  pose proof (cleanup_fold_sublist marked (msg_list_of g mode)) as Hsub.
  unfold msg_list_of in *. by destruct (String.eqb mode "text").
Qed.

Lemma GUILD_loop_idle g msgs marked s :
  (∀ r, r ∈ msgs → is_ready (heap s r) (time_now (world s)) = false) →
  GUILD_advertise_loop g msgs marked s = (Ok marked, s, []).
Proof.
  revert marked. induction msgs as [|r rest IH]; intros marked Hidle; [done|].
  assert (GUILD_advertise_message g r s = (Ok false, s, [])) as Hm.
  { unfold GUILD_advertise_message. py_unfold. simpl.
    by rewrite (Hidle r (list_elem_of_here _ _)). }
  simpl. rewrite (bind_ok _ _ _ _ _ _ Hm), IH; [done|].
  intros r' Hr'. by apply Hidle, list_elem_of_further.
Qed.

(** X12: a round of [GUILD.advertise] in which no message of the mode is
    due does nothing at all: no call, no trace, and the guild and every
    message are as they were. *)
Theorem GUILD_advertise_idle g mode s :
  (∀ r, r ∈ msg_list_of g mode →
        is_ready (heap s r) (time_now (world s)) = false) →
  GUILD_advertise g mode s = (Ok g, s, []).
Proof.
  intros Hidle. unfold GUILD_advertise.
  rewrite (bind_ok _ _ _ _ _ _ (GUILD_loop_idle g _ [] s Hidle)).
  rewrite (bind_ok _ _ _ _ _ _ (GUILD_cleanup_run _ _ _ _)).
  unfold ret, msg_list_of. simpl.
  by destruct g, (String.eqb mode "text").
Qed.

Lemma USER_loop_idle u msgs s :
  (∀ r, r ∈ msgs → is_ready (heap s r) (time_now (world s)) = false) →
  USER_advertise_loop u msgs s = (Ok false, s, []).
Proof.
  induction msgs as [|r rest IH]; intros Hidle; [done|].
  assert (USER_advertise_message u r s = (Ok false, s, [])) as Hm.
  { unfold USER_advertise_message. py_unfold. simpl.
    by rewrite (Hidle r (list_elem_of_here _ _)). }
  simpl. rewrite (bind_ok _ _ _ _ _ _ Hm), IH; [done|].
  intros r' Hr'. by apply Hidle, list_elem_of_further.
Qed.

(** X13: [USER.advertise] does nothing at all when it is called for a
    mode other than ["text"], or when no text message is due. *)
Theorem USER_advertise_idle u mode s :
  (String.eqb mode "text" = true →
   ∀ r, r ∈ t_messages u →
        is_ready (heap s r) (time_now (world s)) = false) →
  USER_advertise u mode s = (Ok u, s, []).
Proof.
  intros Hidle. unfold USER_advertise.
  destruct (String.eqb mode "text"); [|done].
  by rewrite (bind_ok _ _ _ _ _ _ (USER_loop_idle u _ s (Hidle eq_refl))).
Qed.

(** ** Logging switched off *)

Lemma send_event_no_log (e : event) :
  is_send_event e = true → is_generate_log e = false.
Proof. by destruct e. Qed.

Lemma log_disabled g message_ret s :
  _generate_log g = false → log_if_enabled g message_ret s = (Ok tt, s, []).
Proof.
  intros Hoff. unfold log_if_enabled. rewrite Hoff. by destruct message_ret.
Qed.

Lemma message_send_no_log r s :
  Forall (λ e, is_generate_log e = false) (trace_of (message_send r s)).
Proof.
  destruct (message_send_run r s) as (tr1 & -> & Hev & _).
  constructor; [done|].
  eapply list.Forall_impl; [exact Hev|]. apply send_event_no_log.
Qed.

Lemma GUILD_turn_no_log g r s :
  _generate_log g = false →
  Forall (λ e, is_generate_log e = false)
         (trace_of (GUILD_advertise_message g r s)).
Proof.
  intros Hoff. unfold GUILD_advertise_message.
  unfold bind at 1. unfold read at 1. unfold bind at 1. unfold api_read at 1.
  destruct (is_ready _ _); [|done].
  destruct (reset_timer_run r s) as (t & w & Hreset).
  rewrite (bind_ok _ _ _ _ _ _ Hreset).
  pose proof (message_send_no_log r
    {| world := w; voice_client := voice_client s;
       heap := <[r := set_timer t (heap s r)]> (heap s) |}) as Hms.
  unfold trace_of in *.
  destruct (message_send r _) as [[[mret|e] s2] t2] eqn:Hrun; simpl in Hms.
  - rewrite (bind_ok _ _ _ _ _ _ Hrun).
    unfold bind at 1. unfold read at 1.
    rewrite (bind_ok _ _ _ _ _ _ (log_disabled g mret s2 Hoff)).
    unfold ret. simpl. constructor; [done|]. by rewrite app_nil_r.
  - rewrite (bind_raise _ _ _ _ _ _ Hrun). simpl. by constructor.
Qed.

Lemma GUILD_loop_no_log g msgs marked s :
  _generate_log g = false →
  Forall (λ e, is_generate_log e = false)
         (trace_of (GUILD_advertise_loop g msgs marked s)).
Proof.
  intros Hoff. revert marked s.
  induction msgs as [|r rest IH]; intros marked s; [done|]. simpl.
  pose proof (GUILD_turn_no_log g r s Hoff) as Hturn. unfold trace_of in *.
  destruct (GUILD_advertise_message g r s) as [[[b|e] s1] t1] eqn:Hm.
  - rewrite (bind_ok _ _ _ _ _ _ Hm).
    specialize (IH (if b then marked ++ [r] else marked) s1).
    destruct (GUILD_advertise_loop g rest _ s1) as [[res2 s2] t2].
    by apply Forall_app.
  - by rewrite (bind_raise _ _ _ _ _ _ Hm).
Qed.

Lemma USER_turn_no_log u r s :
  _generate_log u = false →
  Forall (λ e, is_generate_log e = false)
         (trace_of (USER_advertise_message u r s)).
Proof.
  intros Hoff. unfold USER_advertise_message.
  unfold bind at 1. unfold read at 1. unfold bind at 1. unfold api_read at 1.
  destruct (is_ready _ _); [|done].
  destruct (reset_timer_run r s) as (t & w & Hreset).
  rewrite (bind_ok _ _ _ _ _ _ Hreset).
  pose proof (message_send_no_log r
    {| world := w; voice_client := voice_client s;
       heap := <[r := set_timer t (heap s r)]> (heap s) |}) as Hms.
  unfold trace_of in *.
  destruct (message_send r _) as [[[mret|e] s2] t2] eqn:Hrun; simpl in Hms.
  - rewrite (bind_ok _ _ _ _ _ _ Hrun).
    rewrite (bind_ok _ _ _ _ _ _ (log_disabled u mret s2 Hoff)).
    py_unfold. simpl. constructor; [done|]. by rewrite app_nil_r.
  - rewrite (bind_raise _ _ _ _ _ _ Hrun). simpl. by constructor.
Qed.

Lemma USER_loop_no_log u msgs s :
  _generate_log u = false →
  Forall (λ e, is_generate_log e = false)
         (trace_of (USER_advertise_loop u msgs s)).
Proof.
  intros Hoff. revert s. induction msgs as [|r rest IH]; intros s; [done|].
  simpl. pose proof (USER_turn_no_log u r s Hoff) as Hturn.
  unfold trace_of in *.
  destruct (USER_advertise_message u r s) as [[[b|e] s1] t1] eqn:Hm.
  - rewrite (bind_ok _ _ _ _ _ _ Hm). destruct b.
    + py_unfold. simpl. apply Forall_app. split; [done|by repeat constructor].
    + specialize (IH s1).
      destruct (USER_advertise_loop u rest s1) as [[res2 s2] t2].
      by apply Forall_app.
  - by rewrite (bind_raise _ _ _ _ _ _ Hm).
Qed.

(** X14: a container created with [generate_log=False] never calls
    [generate_log]: no round of [GUILD.advertise] or of [USER.advertise]
    has a log in its trace, whatever the messages return. *)
Theorem advertise_without_logging g mode s :
  _generate_log g = false →
  Forall (λ e, is_generate_log e = false) (trace_of (GUILD_advertise g mode s)) ∧
  Forall (λ e, is_generate_log e = false) (trace_of (USER_advertise g mode s)).
Proof.
  intros Hoff. split.
  - unfold GUILD_advertise.
    pose proof (GUILD_loop_no_log g (msg_list_of g mode) [] s Hoff) as Hl.
    unfold trace_of in *.
    destruct (GUILD_advertise_loop g (msg_list_of g mode) [] s)
      as [[[marked|e] s1] t1] eqn:Hrun.
    + rewrite (bind_ok _ _ _ _ _ _ Hrun).
      rewrite (bind_ok _ _ _ _ _ _ (GUILD_cleanup_run _ _ _ _)).
      unfold ret. simpl. rewrite app_nil_r. apply Forall_app. split; [done|].
      apply list.Forall_forall. by intros e (r & -> & _)%list_elem_of_fmap.
    + by rewrite (bind_raise _ _ _ _ _ _ Hrun).
  - unfold USER_advertise. destruct (String.eqb mode "text"); [|done].
    pose proof (USER_loop_no_log g (t_messages g) s Hoff) as Hl.
    unfold trace_of in *.
    destruct (USER_advertise_loop g (t_messages g) s)
      as [[[b|e] s1] t1] eqn:Hrun.
    + rewrite (bind_ok _ _ _ _ _ _ Hrun). unfold ret. simpl.
      by rewrite app_nil_r.
    + by rewrite (bind_raise _ _ _ _ _ _ Hrun).
Qed.

(** ** USER.advertise *)

(** X15: [USER.advertise] keeps the user as it is or clears the whole list
    of text messages, nothing in between; it keeps it exactly when every
    message it has sent still has its direct-message channel, and clears
    it only after a send that has left a message without one. *)
Theorem USER_advertise_keeps_or_clears u mode s u' :
  result_of (USER_advertise u mode s) = Ok u' →
  let s' := state_of (USER_advertise u mode s) in
  let tr := trace_of (USER_advertise u mode s) in
  (u' = u ∧ ∀ r, was_sent r tr = true → dm_channel (heap s' r) ≠ None) ∨
  (u' = set_t_messages [] u ∧
   ∃ r, was_sent r tr = true ∧ dm_channel (heap s' r) = None).
Proof.
  unfold USER_advertise. destruct (String.eqb mode "text").
  2: { unfold ret, result_of. simpl. intros [= <-]. left. by split. }
  destruct (USER_advertise_loop u (t_messages u) s) as [[[b|e] s1] t1] eqn:Hl.
  2: { by rewrite (bind_raise _ _ _ _ _ _ Hl). }
  rewrite (bind_ok _ _ _ _ _ _ Hl).
  unfold ret, result_of, state_of, trace_of. simpl. rewrite app_nil_r.
  intros [= <-].
  apply USER_advertise_loop_run in Hl as (_ & Hfalse & Htrue).
  destruct b.
  - right. split; [done|].
    destruct (Htrue eq_refl) as (r & fire & tr1 & tr2 & -> & _ & Hnone & _).
    exists r. split; [|done]. rewrite was_sent_app. simpl.
    rewrite bool_decide_eq_true_2 by done. apply orb_true_r.
  - left. split; [done|]. by apply Hfalse.
Qed.

End MoreVerification.

(** ** GUILD.add_message, remove_message, initialize *)

Section ContainersVerification.
Context {W : Type} `{API : DiscordAPI W}.
Variable message_initialize : msg_ref → Py W unit.
Variable get_guild : Z → W → bool.

Import Containers.

Abbreviation add_message := (Containers.add_message message_initialize).
Abbreviation add_messages := (Containers.add_messages message_initialize).
Abbreviation initialize := (Containers.initialize message_initialize get_guild).


Lemma list_remove_first_snoc {A} `{EqDecision A} (x : A) (l : list A) :
  x ∉ l → list_remove_first x (l ++ [x]) = Some l.
Proof.
  induction l as [|y l IH]; simpl; intros Hn.
  - by rewrite decide_True.
  - apply not_elem_of_cons in Hn as [Hne Hn].
    rewrite decide_False by done. by rewrite IH.
Qed.

Lemma set_slots_id g : set_slots (slots g) g = g.
Proof. by destruct g. Qed.

(** X16: a message that [add_message] has put into a guild in which it
    was not listed is taken out again by [remove_message], which gives
    the guild back as it was before the two calls. *)
Theorem add_then_remove_message r g s g1 s1 t1 :
  add_message r g s = (Ok tt, g1, s1, t1) →
  kind (heap s1 r) = kind (heap s r) →
  r ∉ t_messages (slots g) → r ∉ vc_messages (slots g) →
  remove_message r g1 s1 = (Ok tt, g, s1, []).
Proof.
  unfold Containers.add_message, remove_message. intros Hadd Hk Ht Hv.
  rewrite Hk. destruct (kind (heap s r)); [| |done];
    destruct (message_initialize r s) as [[[[]|e] s2] t2]; try done;
    injection Hadd as <- <- <-; simpl;
    rewrite list_remove_first_snoc by done; destruct g as [[] ? ? ?]; done.
Qed.




(** X19: once [initialize] has succeeded, calling it again does nothing:
    no message is initialised or added a second time. *)
Theorem initialize_once g s g' s' tr s2 :
  initialize g s = (Ok tt, g', s', tr) →
  initialize g' s2 = (Ok tt, g', s2, []).
Proof.
  unfold Containers.initialize.
  destruct (initialized g) eqn:Hinit.
  { intros [= <- <- <-]. by rewrite Hinit. }
  destruct (apiobject _); [|done].
  destruct (add_messages _ _ s) as [[[[[]|e] g1] s1] t1]; [|done].
  by intros [= <- <- <-].
Qed.

End ContainersVerification.

(** ** The file names and the files of the log *)

Lemma hash_allowed : "#"%char ∉ Logging.C_FILE_NAME_FORBIDDEN_CHAR.
Proof.
  unfold Logging.C_FILE_NAME_FORBIDDEN_CHAR.
  rewrite !not_elem_of_cons. repeat split; try done. apply not_elem_of_nil.
Qed.

Lemma sanitize_clean (name : string) :
  Logging.sanitize name = name ↔
  ∀ c, c ∈ String.list_ascii_of_string name → c ∉ Logging.C_FILE_NAME_FORBIDDEN_CHAR.
Proof.
  induction name as [|a name IH]; simpl.
  - split; [|done]. by intros _ c ?%elem_of_nil.
  - split.
    + case_bool_decide as Ha.
      * intros [= <- _]. exfalso. by apply hash_allowed.
      * intros [= Hrest] c [->|Hc]%elem_of_cons; [done|].
        by apply IH.
    + intros Hclean.
      rewrite bool_decide_eq_false_2 by apply Hclean, list_elem_of_here.
      f_equal. apply IH. intros c Hc. by apply Hclean, list_elem_of_further.
Qed.

Lemma sanitize_allowed (name : string) c :
  c ∈ String.list_ascii_of_string (Logging.sanitize name) →
  c ∉ Logging.C_FILE_NAME_FORBIDDEN_CHAR.
Proof.
  induction name as [|a name IH]; simpl.
  - by intros ?%elem_of_nil.
  - intros [->|Hc]%elem_of_cons; [|by apply IH].
    case_bool_decide; [apply hash_allowed|done].
Qed.

(** X20: the name under which a log file is written has no character
    that a file name must not have; it is as long as the name of the
    guild, it is that very name when the name has no such character, and
    cleaning it a second time changes nothing. *)
Theorem sanitize_file_name (name : string) :
  (∀ c, c ∈ String.list_ascii_of_string (Logging.sanitize name) →
        c ∉ Logging.C_FILE_NAME_FORBIDDEN_CHAR) ∧
  String.length (Logging.sanitize name) = String.length name ∧
  (Logging.sanitize name = name ↔
   ∀ c, c ∈ String.list_ascii_of_string name →
        c ∉ Logging.C_FILE_NAME_FORBIDDEN_CHAR) ∧
  Logging.sanitize (Logging.sanitize name) = Logging.sanitize name.
Proof.
  split; [apply sanitize_allowed|]. split.
  { induction name as [|a name IH]; [done|]. simpl. by rewrite IH. }
  split; [apply sanitize_clean|].
  apply sanitize_clean, sanitize_allowed.
Qed.

Lemma app_old_ne (name : string) : name +:+ ".old" ≠ name.
Proof. induction name as [|a name IH]; [done|]. simpl. by intros [= ?]. Qed.

Lemma old_copy_ne (p : Logging.path) : Logging.old_copy p ≠ p.
Proof.
  destruct p as [[[y m] d] name]. unfold Logging.old_copy. simpl.
  intros [= H]. by apply app_old_ne in H.
Qed.

Lemma counts_down_new history (ctx : log_context) (now : Logging.clock) :
  counts_down history →
  counts_down (Logging.new_entry history ctx now :: history).
Proof.
  intros Hc [|i] e; simpl.
  - intros [= <-]. simpl. destruct history as [|newest rest]; [done|].
    rewrite (Hc 0%nat newest eq_refl). simpl. lia.
  - intros He. rewrite (Hc i e He).
    apply lookup_lt_Some in He. f_equal. lia.
Qed.

Lemma history_at_insert (files : gmap Logging.path Logging.content) p d :
  history_at (<[p := Logging.Valid d]> files) p = Logging.message_history d.
Proof. unfold history_at. by rewrite lookup_insert_eq. Qed.

Lemma history_at_lookup (files : gmap Logging.path Logging.content) p c :
  files !! p = Some c →
  history_at files p
    = match c with Logging.Valid d => Logging.message_history d | _ => [] end.
Proof. unfold history_at. by intros ->. Qed.

(** X21: unless the file of the guild and of the day holds JSON that is
    no log, [LoggerJSON._save_log] puts the new entry in front of the
    history that the file holds (an empty one when there is no file, or
    the file holds no valid JSON, or holds [null]), with the index one
    above the newest; indices that count down to 0 still do so.  Of the
    other files only the [.old] copy can change: it takes the content that
    was not valid JSON, and nothing is written to it otherwise.  On JSON
    that is no log and not [null] it raises the error of the subscript,
    and no file has changed. *)
Theorem save_log_prepends (g : Logging.guild_context) (ctx : log_context)
    (now : Logging.clock) (files : gmap Logging.path Logging.content) :
  let p := Logging.log_path ".json" g now in
  let run := Logging.LoggerJSON_save_log g ctx now files in
  match files !! p with
  | Some (Logging.NotALog raw why) =>
      run = (Raise (Logging.subscript_error why), files)
  | before =>
      run.1 = Ok tt ∧
      history_at run.2 p
        = Logging.new_entry (history_at files p) ctx now :: history_at files p ∧
      (counts_down (history_at files p) → counts_down (history_at run.2 p)) ∧
      (∀ q, q ≠ p → q ≠ Logging.old_copy p → run.2 !! q = files !! q) ∧
      run.2 !! Logging.old_copy p
        = match before with
          | Some (Logging.Invalid raw) => Some (Logging.Invalid raw)
          | _ => files !! Logging.old_copy p
          end
  end.
Proof.
  intros p run.
  pose proof (old_copy_ne p) as Hne.
  subst run. unfold Logging.LoggerJSON_save_log. fold p.
  destruct (files !! p) as [[raw| |raw o|d]|] eqn:Hp.
  - rewrite bool_decide_eq_true_2 by done. rewrite Hp. simpl.
    rewrite history_at_insert, (history_at_lookup _ _ _ Hp). simpl.
    split; [done|]. split; [done|]. split; [apply counts_down_new|]. split.
    + intros q Hq1 Hq2. by rewrite !lookup_insert_ne.
    + by rewrite lookup_insert_ne, lookup_insert_eq.
  - rewrite bool_decide_eq_true_2 by done. rewrite Hp. simpl.
    rewrite history_at_insert, (history_at_lookup _ _ _ Hp). simpl.
    split; [done|]. split; [done|]. split; [apply counts_down_new|]. split.
    + intros q Hq1 Hq2. by rewrite lookup_insert_ne.
    + by rewrite lookup_insert_ne.
  - rewrite bool_decide_eq_true_2 by done. by rewrite Hp.
  - rewrite bool_decide_eq_true_2 by done. rewrite Hp. simpl.
    rewrite history_at_insert, (history_at_lookup _ _ _ Hp). simpl.
    split; [done|]. split; [done|]. split; [apply counts_down_new|]. split.
    + intros q Hq1 Hq2. by rewrite lookup_insert_ne.
    + by rewrite lookup_insert_ne.
  - rewrite bool_decide_eq_false_2 by (by intros [? ?]). simpl.
    rewrite history_at_insert. unfold history_at at 1 2 3. rewrite Hp. simpl.
    split; [done|]. split; [done|]. split; [apply counts_down_new|]. split.
    + intros q Hq1 Hq2. by rewrite !lookup_insert_ne.
    + by rewrite !lookup_insert_ne.
Qed.

(** X22: the file branch of [BaseGUILD.generate_log] of the framework and
    [LoggerJSON._save_log] of daf write the same files, when the file name
    is the one [GUILD.log_file_name] makes of the name in the context,
    unless the file holds JSON that is no log.  On [null] they part: daf
    starts a new history over it, the framework writes nothing and traces
    its warning; on any other such JSON neither writes: daf raises, the
    framework traces its warning. *)
Theorem generate_log_file_agrees (g : Logging.guild_context)
    (ctx : log_context) (now : Logging.clock)
    (files : gmap Logging.path Logging.content) :
  let p := Logging.log_path ".json" g now in
  let daf := Logging.LoggerJSON_save_log g ctx now files in
  let framework :=
    Logging.generate_log_file (Logging.GUILD_log_file_name (Logging.gc_name g))
                              g ctx now files in
  match files !! p with
  | Some Logging.Null =>
      daf = (Ok tt,
             <[p := Logging.Valid
                      (Logging.add_to_history (Logging.fresh_data g) ctx now)]>
               files) ∧
      framework = (files, true)
  | Some (Logging.NotALog raw why) =>
      daf = (Raise (Logging.subscript_error why), files) ∧
      framework = (files, true)
  | _ => daf.1 = Ok tt ∧ framework = (daf.2, false)
  end.
Proof.
  intros p daf framework. subst daf framework.
  unfold Logging.generate_log_file, Logging.LoggerJSON_save_log,
    Logging.GUILD_log_file_name. fold (Logging.log_path ".json" g now). fold p.
  destruct (files !! p) as [[raw| |raw o|d]|] eqn:Hp.
  - rewrite bool_decide_eq_true_2 by done.
    rewrite bool_decide_eq_false_2 by done. by rewrite Hp.
  - rewrite bool_decide_eq_true_2 by done.
    rewrite bool_decide_eq_false_2 by done. by rewrite Hp.
  - rewrite bool_decide_eq_true_2 by done.
    rewrite bool_decide_eq_false_2 by done. by rewrite Hp.
  - rewrite bool_decide_eq_true_2 by done.
    rewrite bool_decide_eq_false_2 by done. by rewrite Hp.
  - rewrite bool_decide_eq_false_2 by (by intros [? ?]).
    rewrite bool_decide_eq_true_2 by done.
    by rewrite lookup_insert_eq.
Qed.

(** ** The chain of loggers *)



(** ** misc._update and misc._write_attr_once *)

Lemma restore_same slots (obj : gmap string Daf.value) :
  Daf.restore slots obj obj
    = (if forallb (λ k, bool_decide (is_Some (obj !! k))) slots
       then None else Some AttributeError, obj).
Proof.
  induction slots as [|k slots IH]; [done|]. simpl.
  destruct (obj !! k) as [v|] eqn:Hv.
  - rewrite (insert_id obj k v Hv), IH.
    by rewrite bool_decide_eq_true_2.
  - by rewrite bool_decide_eq_false_2 by (by intros [? ?]).
Qed.

Lemma restore_unset slots (current_state obj : gmap string Daf.value) k :
  k ∈ slots → current_state !! k = None →
  (Daf.restore slots current_state obj).1 = Some AttributeError.
Proof.
  revert obj. induction slots as [|k0 slots IH]; intros obj Hk Hnone.
  { by apply elem_of_nil in Hk. }
  simpl. destruct (current_state !! k0) as [v|] eqn:Hv; [|done].
  apply IH; [|done].
  apply elem_of_cons in Hk as [->|Hk]; [congruence|done].
Qed.

(** X24: [_update] with a keyword that is no parameter of [__init__]
    fails before it has touched the object: the object is afterwards
    exactly what it was.  The error that leaves the call is the
    [TypeError] of the check only for a class that declares [__slots__]
    and an object on which all of them are set; for a class without
    [__slots__], as the loggers are, the handler raises [AttributeError]
    instead. *)
Theorem update_rejects_unknown_keyword cls (obj kwargs : gmap string Daf.value) k :
  k ∈ dom kwargs → k ∉ Daf.init_keys cls →
  Daf._update cls obj kwargs
    = (Some match Daf.own_slots cls with
            | Some slots =>
                if forallb (λ k, bool_decide (is_Some (obj !! k))) slots
                then TypeError else AttributeError
            | None => AttributeError
            end,
       obj).
Proof.
  intros Hk Hnk. unfold Daf._update, Daf._update_try.
  assert (forallb (λ k, bool_decide (k ∈ Daf.init_keys cls))
                  (elements (dom kwargs)) = false) as ->.
  { apply not_true_is_false. intros Hall.
    rewrite forallb_forall in Hall.
    specialize (Hall k). rewrite <- list_elem_of_In, elem_of_elements in Hall.
    by apply Hall, bool_decide_eq_true in Hk. }
  simpl. destruct (Daf.own_slots cls) as [slots|]; [|done].
  rewrite restore_same. by destruct (forallb _ slots).
Qed.

(** X25: what a failed [_update] leaves.  For a class that declares
    [__slots__]: every slot that the class does not declare itself is as
    the failed [__init__] or [initialize] has written it; when all the
    slots of the class are set on the object, the error that leaves the
    call is the one that was raised and these slots are set back to what
    they were, so that the object is the old one again only when nothing
    was written outside them; when one of them is not set, the handler
    raises [AttributeError] instead.  For a class without [__slots__] the
    handler raises [AttributeError] and restores nothing. *)
Theorem update_failure_own_slots_only cls (obj kwargs : gmap string Daf.value)
    e obj1 :
  Daf._update_try cls obj kwargs = (Some e, obj1) →
  match Daf.own_slots cls with
  | None => Daf._update cls obj kwargs = (Some AttributeError, obj1)
  | Some slots =>
      (∀ k, k ∉ slots → (Daf._update cls obj kwargs).2 !! k = obj1 !! k) ∧
      ((∃ k, k ∈ slots ∧ obj !! k = None) →
       (Daf._update cls obj kwargs).1 = Some AttributeError) ∧
      ((∀ k, k ∈ slots → is_Some (obj !! k)) →
       (Daf._update cls obj kwargs).1 = Some e ∧
       (∀ k, (Daf._update cls obj kwargs).2 !! k
             = if bool_decide (k ∈ slots) then obj !! k else obj1 !! k) ∧
       ((Daf._update cls obj kwargs).2 = obj ↔
        ∀ k, k ∉ slots → obj1 !! k = obj !! k))
  end.
Proof.
  intros Htry.
  destruct (Daf.own_slots cls) as [slots|] eqn:Hslots.
  2: { unfold Daf._update. by rewrite Htry, Hslots. }
  assert (∀ k, k ∉ slots → (Daf._update cls obj kwargs).2 !! k = obj1 !! k)
    as Hother.
  { intros k Hk. unfold Daf._update. rewrite Htry, Hslots.
    pose proof (restore_foreign slots obj obj1 k Hk) as Hf.
    by destruct (Daf.restore slots obj obj1) as [[e'|] obj2]. }
  split; [done|]. split.
  - intros (k & Hk & Hnone). unfold Daf._update. rewrite Htry, Hslots.
    pose proof (restore_unset slots obj obj1 k Hk Hnone) as Hr.
    destruct (Daf.restore slots obj obj1) as [[e'|] obj2]; simpl in *;
      congruence.
  - intros Hset.
    destruct (update_failure_restores cls obj kwargs e obj1 slots Htry Hslots
                Hset) as (He & Hown & _).
    split; [done|].
    assert (∀ k, (Daf._update cls obj kwargs).2 !! k
                 = if bool_decide (k ∈ slots) then obj !! k else obj1 !! k)
      as Hall.
    { intros k. case_bool_decide; [by apply Hown|by apply Hother]. }
    split; [done|]. split.
    + intros Heq k Hk. rewrite <- (Hother k Hk). by rewrite Heq.
    + intros Hsame. apply map_eq. intros k. rewrite Hall.
      case_bool_decide; [done|by apply Hsame].
Qed.


(** X27: [_write_attr_once] never changes an attribute that exists: the
    attribute holds the value it had, or the given one when it had none;
    the other attributes are untouched, and a second write, of any value,
    changes nothing. *)
Theorem write_attr_once_keeps (obj : gmap string Daf.value) name v :
  Misc._write_attr_once obj name v !! name = Some (default v (obj !! name)) ∧
  (∀ k, k ≠ name → Misc._write_attr_once obj name v !! k = obj !! k) ∧
  (∀ v', Misc._write_attr_once (Misc._write_attr_once obj name v) name v'
         = Misc._write_attr_once obj name v).
Proof.
  unfold Misc._write_attr_once.
  destruct (obj !! name) as [old|] eqn:Hold.
  - rewrite Hold. by repeat split.
  - rewrite lookup_insert_eq. split; [done|]. split; [|done].
    intros k Hk. by rewrite lookup_insert_ne.
Qed.

(** ** daf: _send_channel *)

(** X28: [_send_channel] of daf reports a success exactly when the client
    is a member of the guild, is not pending, has the three permissions,
    the channel is still cached, and the stream, the connection and the
    playback went through; then nothing is traced, and the message has
    changed in this only, that it holds the session.  Otherwise it traces
    the error first and reports a reason.  It never changes the channels
    or the volume of the message; the message holds a session afterwards
    exactly when it held one before or [_move_to_connect] was reached and
    went through, whether or not the attempt then succeeded. *)
Theorem daf_send_channel_outcome (self : Daf.VoiceMESSAGE) (a : Daf.attempt) :
  let ctx := (Daf._send_channel self a).1.1 in
  let self' := (Daf._send_channel self a).1.2 in
  let tr := (Daf._send_channel self a).2 in
  Daf.channels (Daf.base self') = Daf.channels (Daf.base self) ∧
  Daf.volume self' = Daf.volume self ∧
  Daf.voice_client self'
    = Daf.voice_client self
      || (Daf.reaches_connection a && Daf.is_Ok (Daf.connection a)) ∧
  (Daf.success ctx = true ↔
   is_Some (Daf.member a) ∧ Daf.pending a = false ∧
   Daf.ch_perms a = (true, true, true) ∧ Daf.cached a = true ∧
   Daf.stream a = Ok tt ∧ Daf.connection a = Ok tt ∧
   Daf.playback a = Ok tt) ∧
  (if Daf.success ctx
   then self' = Daf.set_voice_client true self ∧ tr = [] ∧
        Daf.reason ctx = None ∧ Daf.ctx_action ctx = None
   else ∃ ex rest, Daf._send_channel_try a = Raise ex ∧
                   tr = EvTrace ERROR (TrCouldNotPlay ex) :: rest ∧
                   is_Some (Daf.reason ctx)).
Proof.
  unfold Daf._send_channel.
  assert (Daf._send_channel_try a = Ok tt ↔
          is_Some (Daf.member a) ∧ Daf.pending a = false ∧
          Daf.ch_perms a = (true, true, true) ∧ Daf.cached a = true ∧
          Daf.stream a = Ok tt ∧ Daf.connection a = Ok tt ∧
          Daf.playback a = Ok tt) as Hok.
  { unfold Daf._send_channel_try.
    destruct (Daf.member a) as [mem|].
    2: { split; [done|]. by intros [[? [=]] _]. }
    destruct (Daf.pending a); [split; [done|]; by intros (_ & [=] & _)|].
    destruct (Daf.ch_perms a) as [[[] []] []]; simpl;
      try (split; [done|]; by intros (_ & _ & [=] & _)).
    destruct (Daf.cached a); simpl;
      [|split; [done|]; by intros (_ & _ & _ & [=] & _)].
    destruct (Daf.stream a) as [[]|e];
      [|split; [done|]; by intros (_ & _ & _ & _ & [=] & _)].
    destruct (Daf.connection a) as [[]|e];
      [|split; [done|]; by intros (_ & _ & _ & _ & _ & [=] & _)].
    split; [intros ->; by repeat split|by intros (_ & _ & _ & _ & _ & _ & ->)]. }
  assert (Daf._send_channel_try a = Ok tt →
          Daf._move_to_connect self a = Daf.set_voice_client true self)
    as Hsession.
  { intros (Hm & Hp & Hperm & Hc & Hs & Hcon & _)%Hok.
    unfold Daf._move_to_connect, Daf.reaches_connection.
    destruct Hm as [mem ->]. by rewrite Hp, Hperm, Hc, Hs, Hcon. }
  assert (Daf.channels (Daf.base (Daf._move_to_connect self a))
          = Daf.channels (Daf.base self) ∧
          Daf.volume (Daf._move_to_connect self a) = Daf.volume self ∧
          Daf.voice_client (Daf._move_to_connect self a)
          = Daf.voice_client self
            || (Daf.reaches_connection a && Daf.is_Ok (Daf.connection a)))
    as (Hch & Hvol & Hvc).
  { unfold Daf._move_to_connect.
    destruct (_ && _); simpl; [by rewrite orb_true_r|by rewrite orb_false_r]. }
  assert (∀ (m : Daf.VoiceMESSAGE) ex,
            let h := Daf._handle_error m (Daf.member a) (Daf.now a) ex in
            Daf.channels (Daf.base (Daf.message_after h))
            = Daf.channels (Daf.base m) ∧
            Daf.volume (Daf.message_after h) = Daf.volume m ∧
            Daf.voice_client (Daf.message_after h) = Daf.voice_client m)
    as Hhandle.
  { intros m ex. unfold Daf._handle_error.
    destruct (has_status 401 ex); [done|].
    destruct (Daf.member a) as [mem|]; [|done].
    by destruct (Daf.timed_out mem (Daf.now a)). }
  destruct (Daf._send_channel_try a) as [[]|ex] eqn:Htry; simpl.
  - split; [done|]. split; [done|]. split; [done|]. split.
    + split; [intros _; by apply Hok|done].
    + by rewrite Hsession.
  - destruct (Hhandle (Daf._move_to_connect self a) ex) as (H1 & H2 & H3).
    simpl in *.
    split; [congruence|]. split; [congruence|].
    split; [congruence|].
    split.
    { split; [done|]. intros H. by apply Hok in H. }
    by eauto.
Qed.

(** * The further properties at work in the small world *)

Lemma fresh_channels_distinct_witness :
  let chs' :=
    [Channels.Resolved {| Channels.ch_id := 1;
                          Channels.ch_type := Channels.VoiceChannel |};
     Channels.Resolved {| Channels.ch_id := 2;
                          Channels.ch_type := Channels.VoiceChannel |}] in
  (∀ id ch, Runs.cache id = Some ch → Channels.ch_id ch = id) ∧
  Channels.initialize_channels Runs.cache
    (Channels.ById
       <$> channels (VoiceMESSAGE_init Scenario.every_minute (Static PyNone)
                                       [1; 1; 2; 9]%Z 50))
    = (Ok tt, chs', [9%Z]) ∧
  NoDup (Channels.entry_id <$> chs') ∧
  ∀ c, c ∈ Channels.entry_id <$> chs' → c ∈ [1; 1; 2; 9]%Z.
Proof.
  intros chs'.
  assert (∀ id ch, Runs.cache id = Some ch → Channels.ch_id ch = id) as Hlaw.
  { intros id ch. unfold Runs.cache.
    destruct ((id =? 1)%Z || (id =? 2)%Z); [by intros [= <-]|].
    destruct (id =? 5)%Z; [by intros [= <-]|done]. }
  split; [exact Hlaw|]. split; [reflexivity|].
  exact (fresh_channels_distinct Runs.cache Scenario.every_minute
           (Static PyNone) [1; 1; 2; 9]%Z 50 chs' [9%Z] Hlaw eq_refl).
Defined.

Lemma send_keeps_successful_witness :
  result_of (send 0 Scenario.playing)
    = Ok (Some (VoiceLog "song.mp3" [1%Z]
                  [(2%Z, HTTP 403 50013); (3%Z, HTTP 404 10003);
                   (4%Z, HTTP 500 0)])) ∧
  (∀ c, c ∈ [1%Z] →
        c ∈ channels (heap (state_of (send 0 Scenario.playing)) 0)) ∧
  (length (channels (heap (state_of (send 0 Scenario.playing)) 0))
   + length (filter (λ x, removable x.2 = true)
                    [(2%Z, HTTP 403 50013); (3%Z, HTTP 404 10003);
                     (4%Z, HTTP 500 0)])
   = length (channels (heap Scenario.playing 0)))%nat.
Proof.
  split; [reflexivity|].
  exact (send_keeps_successful (API := Scenario.api) 0%nat Scenario.playing
           _ _ _ eq_refl).
Defined.

Lemma send_channel_asks_permission_first_witness :
  Exists (λ e, is_delivery e = true)
         (trace_of (send_channel 0 1%Z Scenario.song Scenario.playing)) ∧
  permissions_for 1%Z (world Scenario.playing) = Ok (true, true, true).
Proof.
  assert (Exists (λ e, is_delivery e = true)
            (trace_of (send_channel 0 1%Z Scenario.song Scenario.playing)))
    as Hex by (vm_compute; apply Exists_cons_hd; reflexivity).
  split; [exact Hex|].
  exact (send_channel_asks_permission_first (API := Scenario.api) 0%nat 1%Z
           Scenario.song Scenario.playing Hex).
Defined.

Lemma send_refused_everywhere_witness :
  update_mutex (heap Runs.refused 0) = false ∧
  voice_client Runs.refused = false ∧
  result_of (send 0 Runs.refused)
    = Ok (Some (VoiceLog "song.mp3" []
                  [(2%Z, HTTP 403 50013); (2%Z, HTTP 403 50013)])) ∧
  channels (heap (state_of (send 0 Runs.refused)) 0) = [].
Proof.
  split; [reflexivity|]. split; [reflexivity|].
  apply (send_refused_everywhere (API := Scenario.api) 0%nat Runs.refused
           Scenario.song); [reflexivity|reflexivity| |left; reflexivity].
  intros c Hc w. exists true, true, false.
  apply list_elem_of_In in Hc. simpl in Hc.
  destruct Hc as [<-|[<-|[]]]; by split.
Defined.

Lemma GUILD_drops_refused_message_witness :
  msg_list_of Runs.lonely "voice" = [0%nat] ∧
  voice_client Runs.refused = false ∧
  is_ready (heap Runs.refused 0) (time_now (world Runs.refused)) = true ∧
  ∃ g', result_of (GUILD_advertise Runs.lonely "voice" Runs.refused) = Ok g' ∧
        msg_list_of g' "voice" = [] ∧
        channels (heap (state_of (GUILD_advertise Runs.lonely "voice"
                                                  Runs.refused)) 0) = [].
Proof.
  split; [reflexivity|]. split; [reflexivity|]. split; [reflexivity|].
  apply (GUILD_drops_refused_message (API := Scenario.api) Runs.lonely "voice"
           0%nat Runs.refused);
    [reflexivity|reflexivity|reflexivity|reflexivity|by intros w|
     |left; reflexivity].
  intros c Hc w. exists true, true, false.
  apply list_elem_of_In in Hc. simpl in Hc.
  destruct Hc as [<-|[<-|[]]]; by split.
Defined.

Lemma GUILD_advertise_only_removes_witness :
  let run := GUILD_advertise Scenario.guild "voice" Scenario.guild_state in
  let g' := set_vc_messages [0%nat] Scenario.guild in
  result_of run = Ok g' ∧
  msg_list_of g' "voice" `sublist_of` msg_list_of Scenario.guild "voice" ∧
  t_messages g' = t_messages Scenario.guild ∧
  ∀ r, r ∉ msg_list_of Scenario.guild "voice" →
       heap (state_of run) r = heap Scenario.guild_state r.
Proof.
  intros run g'.
  assert (result_of run = Ok g') as Hres by reflexivity.
  destruct (GUILD_advertise_only_removes (API := Scenario.api) Scenario.guild
              "voice" Scenario.guild_state g' Hres)
    as (Hsub & Hother & _ & _ & Hframe).
  split; [exact Hres|]. split; [exact Hsub|]. split; [exact Hother|exact Hframe].
Defined.

Lemma GUILD_advertise_idle_witness :
  (∀ r, r ∈ msg_list_of Runs.lonely "voice" →
        is_ready (heap Runs.resting r) (time_now (world Runs.resting)) = false) ∧
  GUILD_advertise Runs.lonely "voice" Runs.resting
    = (Ok Runs.lonely, Runs.resting, []).
Proof.
  assert (∀ r, r ∈ msg_list_of Runs.lonely "voice" →
               is_ready (heap Runs.resting r)
                        (time_now (world Runs.resting)) = false) as Hidle
    by (intros r _; reflexivity).
  split; [exact Hidle|].
  exact (GUILD_advertise_idle (API := Scenario.api) Runs.lonely "voice"
           Runs.resting Hidle).
Defined.

Lemma USER_advertise_idle_witness :
  String.eqb "voice" "text" = false ∧
  USER_advertise Scenario.user "voice" Scenario.user_state
    = (Ok Scenario.user, Scenario.user_state, []).
Proof.
  split; [reflexivity|].
  apply (USER_advertise_idle (API := Scenario.api) Scenario.user "voice"
           Scenario.user_state).
  intros Hmode. discriminate Hmode.
Defined.

Lemma advertise_without_logging_witness :
  _generate_log Runs.lonely = false ∧
  Forall (λ e, is_generate_log e = false)
         (trace_of (GUILD_advertise Runs.lonely "voice" Runs.refused)) ∧
  Forall (λ e, is_generate_log e = false)
         (trace_of (USER_advertise Runs.lonely "voice" Runs.refused)).
Proof.
  split; [reflexivity|].
  exact (advertise_without_logging (API := Scenario.api) Runs.lonely "voice"
           Runs.refused eq_refl).
Defined.

Lemma USER_advertise_keeps_or_clears_witness :
  let run := USER_advertise Scenario.user "text" Scenario.user_state in
  let u' := set_t_messages [] Scenario.user in
  result_of run = Ok u' ∧
  ((u' = Scenario.user ∧
    ∀ r, was_sent r (trace_of run) = true →
         dm_channel (heap (state_of run) r) ≠ None) ∨
   (u' = set_t_messages [] Scenario.user ∧
    ∃ r, was_sent r (trace_of run) = true ∧
         dm_channel (heap (state_of run) r) = None)).
Proof.
  intros run u'.
  assert (result_of run = Ok u') as Hres by reflexivity.
  split; [exact Hres|].
  exact (USER_advertise_keeps_or_clears (API := Scenario.api) Scenario.user
           "text" Scenario.user_state u' Hres).
Defined.

Lemma add_then_remove_message_witness :
  let g1 := Containers.set_slots
              (set_vc_messages [0%nat] (Containers.slots (Runs.new_guild [])))
              (Runs.new_guild []) in
  Containers.add_message Runs.message_initialize 0 (Runs.new_guild []) Runs.mixed
    = (Ok tt, g1, Runs.mixed, []) ∧
  Containers.remove_message 0 g1 Runs.mixed
    = (Ok tt, Runs.new_guild [], Runs.mixed, []).
Proof.
  intros g1. split; [reflexivity|].
  apply (add_then_remove_message Runs.message_initialize
           0%nat (Runs.new_guild []) Runs.mixed g1 Runs.mixed []);
    [reflexivity|reflexivity|apply not_elem_of_nil|apply not_elem_of_nil].
Defined.


Lemma initialize_once_witness :
  let g := Runs.new_guild [0; 1]%nat in
  let run := Containers.initialize Runs.message_initialize Runs.get_guild
               g Runs.mixed in
  run.1.1.1 = Ok tt ∧
  vc_messages (Containers.slots run.1.1.2) = [0%nat] ∧
  t_messages (Containers.slots run.1.1.2) = [1%nat] ∧
  Containers.initialize Runs.message_initialize Runs.get_guild
    run.1.1.2 Runs.resting
    = (Ok tt, run.1.1.2, Runs.resting, []).
Proof.
  intros g run. split; [reflexivity|]. split; [reflexivity|].
  split; [reflexivity|].
  exact (initialize_once Runs.message_initialize
           Runs.get_guild g Runs.mixed run.1.1.2 run.1.2 run.2 Runs.resting
           eq_refl).
Defined.

Lemma update_rejects_unknown_keyword_witness :
  ("colour" ∈ dom Runs.unknown_keyword) ∧
  ("colour" ∉ Daf.init_keys Scenario.voice_class) ∧
  ("colour" ∉ Daf.init_keys Runs.logger_class) ∧
  Daf._update Scenario.voice_class Scenario.voice_object Runs.unknown_keyword
    = (Some TypeError, Scenario.voice_object) ∧
  Daf._update Runs.logger_class Runs.logger_object Runs.unknown_keyword
    = (Some AttributeError, Runs.logger_object).
Proof.
  assert ("colour" ∈ dom Runs.unknown_keyword) as Hin.
  { unfold Runs.unknown_keyword. rewrite dom_singleton_L.
    by apply elem_of_singleton. }
  assert ("colour" ∉ Daf.init_keys Scenario.voice_class) as Hout.
  { rewrite list_elem_of_In. simpl. intuition discriminate. }
  assert ("colour" ∉ Daf.init_keys Runs.logger_class) as Hout'.
  { rewrite list_elem_of_In. simpl. intuition discriminate. }
  split; [exact Hin|]. split; [exact Hout|]. split; [exact Hout'|]. split.
  - exact (update_rejects_unknown_keyword Scenario.voice_class
             Scenario.voice_object Runs.unknown_keyword "colour" Hin Hout).
  - exact (update_rejects_unknown_keyword Runs.logger_class
             Runs.logger_object Runs.unknown_keyword "colour" Hin Hout').
Defined.

Lemma update_failure_own_slots_only_witness :
  let obj := Scenario.voice_object in
  let obj1 := (Daf._update_try Scenario.voice_class obj
                               Scenario.bad_channels).2 in
  let after := Daf._update Scenario.voice_class obj Scenario.bad_channels in
  Daf._update_try Scenario.voice_class obj Scenario.bad_channels
    = (Some ValueError, obj1) ∧
  after.1 = Some ValueError ∧
  (∀ k, after.2 !! k
        = if bool_decide (k ∈ ["volume"; "voice_client"])
          then obj !! k else obj1 !! k) ∧
  (after.2 = obj ↔
   ∀ k, k ∉ ["volume"; "voice_client"] → obj1 !! k = obj !! k).
Proof.
  intros obj obj1 after.
  assert (Daf._update_try Scenario.voice_class obj Scenario.bad_channels
          = (Some ValueError, obj1)) as Htry by (vm_compute; reflexivity).
  split; [exact Htry|].
  destruct (update_failure_own_slots_only Scenario.voice_class obj
              Scenario.bad_channels ValueError obj1 Htry) as (_ & _ & Hset).
  apply Hset.
  intros k Hk. apply list_elem_of_In in Hk. simpl in Hk.
  destruct Hk as [<-|[<-|[]]]; by eexists.
Defined.
